(** * Booking lifecycle and code lookup of the van-rental application

    A shallow embedding of the booking subsystem: the PL/pgSQL trigger
    [generate_booking_code] and the table definitions of the migrations,
    the storefront handlers [handleSubmit] and [handleLookup] of the index
    page, and [fetchBookings] / [updateStatus] of [AdminBookings.tsx].

    Conventions of the model
    - text is a [string] holding UTF-8, and the string functions of
      JavaScript act on its code points;
    - a calendar day picked in the date picker is a [Z], the number of days
      since 1970-01-01;
    - a [NUMERIC(10,2)] amount is a [Z] counting hundredths;
    - [now()], [gen_random_uuid()] and [random()] are inputs of the
      operations that consult them. *)

From Stdlib Require Import ZArith List Bool Ascii String Lia Permutation Sorted.
Import ListNotations.
Open Scope string_scope.
Open Scope Z_scope.

(** ** Text helpers *)

Fixpoint string_forallb (p : ascii -> bool) (s : string) : bool :=
  match s with
  | EmptyString => true
  | String c r => p c && string_forallb p r
  end.

Fixpoint string_map (f : ascii -> ascii) (s : string) : string :=
  match s with
  | EmptyString => EmptyString
  | String c r => String (f c) (string_map f r)
  end.

Fixpoint string_filter (p : ascii -> bool) (s : string) : string :=
  match s with
  | EmptyString => EmptyString
  | String c r => if p c then String c (string_filter p r) else string_filter p r
  end.

Definition code_of (c : ascii) : Z := Z.of_N (N_of_ascii c).

Definition in_range (lo hi c : ascii) : bool :=
  (code_of lo <=? code_of c) && (code_of c <=? code_of hi).

(** ** MD5 (RFC 1321), the digest behind PostgreSQL's [md5(text)]

    Words are 32-bit integers held in [Z]; every addition wraps. *)

Module MD5.

Definition w32 (x : Z) : Z := x mod 2 ^ 32.

Definition add32 (x y : Z) : Z := w32 (x + y).

Definition not32 (x : Z) : Z := Z.lxor x 0xffffffff.

Definition rotl32 (x n : Z) : Z :=
  Z.lor (w32 (Z.shiftl x n)) (Z.shiftr x (32 - n)).

(** Per-round shift amounts. *)
Definition s_table : list Z :=
  [ 7; 12; 17; 22;  7; 12; 17; 22;  7; 12; 17; 22;  7; 12; 17; 22;
    5;  9; 14; 20;  5;  9; 14; 20;  5;  9; 14; 20;  5;  9; 14; 20;
    4; 11; 16; 23;  4; 11; 16; 23;  4; 11; 16; 23;  4; 11; 16; 23;
    6; 10; 15; 21;  6; 10; 15; 21;  6; 10; 15; 21;  6; 10; 15; 21 ].

(** [K i = floor (2^32 * abs (sin (i + 1)))]. *)
Definition K_table : list Z :=
  [ 0xd76aa478; 0xe8c7b756; 0x242070db; 0xc1bdceee;
    0xf57c0faf; 0x4787c62a; 0xa8304613; 0xfd469501;
    0x698098d8; 0x8b44f7af; 0xffff5bb1; 0x895cd7be;
    0x6b901122; 0xfd987193; 0xa679438e; 0x49b40821;
    0xf61e2562; 0xc040b340; 0x265e5a51; 0xe9b6c7aa;
    0xd62f105d; 0x02441453; 0xd8a1e681; 0xe7d3fbc8;
    0x21e1cde6; 0xc33707d6; 0xf4d50d87; 0x455a14ed;
    0xa9e3e905; 0xfcefa3f8; 0x676f02d9; 0x8d2a4c8a;
    0xfffa3942; 0x8771f681; 0x6d9d6122; 0xfde5380c;
    0xa4beea44; 0x4bdecfa9; 0xf6bb4b60; 0xbebfbc70;
    0x289b7ec6; 0xeaa127fa; 0xd4ef3085; 0x04881d05;
    0xd9d4d039; 0xe6db99e5; 0x1fa27cf8; 0xc4ac5665;
    0xf4292244; 0x432aff97; 0xab9423a7; 0xfc93a039;
    0x655b59c3; 0x8f0ccc92; 0xffeff47d; 0x85845dd1;
    0x6fa87e4f; 0xfe2ce6e0; 0xa3014314; 0x4e0811a1;
    0xf7537e82; 0xbd3af235; 0x2ad7d2bb; 0xeb86d391 ].

Record state := mkState { sA : Z; sB : Z; sC : Z; sD : Z }.

Definition init : state :=
  mkState 0x67452301 0xefcdab89 0x98badcfe 0x10325476.

(** The auxiliary function of round [i] and the index of the message word
    it mixes in. *)
Definition round_F (i b c d : Z) : Z :=
  if i <? 16 then Z.lor (Z.land b c) (Z.land (not32 b) d)
  else if i <? 32 then Z.lor (Z.land d b) (Z.land (not32 d) c)
  else if i <? 48 then Z.lxor (Z.lxor b c) d
  else Z.lxor c (Z.lor b (not32 d)).

Definition round_g (i : Z) : Z :=
  if i <? 16 then i
  else if i <? 32 then (5 * i + 1) mod 16
  else if i <? 48 then (3 * i + 5) mod 16
  else (7 * i) mod 16.

Definition nthZ (l : list Z) (i : Z) : Z := nth (Z.to_nat i) l 0.

Definition step (M : list Z) (st : state) (i : Z) : state :=
  let f := add32 (add32 (add32 (round_F i (sB st) (sC st) (sD st)) (sA st))
                        (nthZ K_table i))
                 (nthZ M (round_g i)) in
  mkState (sD st) (add32 (sB st) (rotl32 f (nthZ s_table i))) (sB st) (sC st).

Definition rounds : list Z := map Z.of_nat (seq 0 64).

(** One 512-bit block, given as sixteen little-endian words. *)
Definition compress (h : state) (M : list Z) : state :=
  let r := fold_left (step M) rounds h in
  mkState (add32 (sA h) (sA r)) (add32 (sB h) (sB r))
          (add32 (sC h) (sC r)) (add32 (sD h) (sD r)).

Definition le_bytes (n : nat) (x : Z) : list Z :=
  map (fun k => Z.shiftr x (8 * Z.of_nat k) mod 256) (seq 0 n).

Fixpoint le_word (bs : list Z) : Z :=
  match bs with
  | [] => 0
  | b :: r => b + 256 * le_word r
  end.

(** Padding: a single 0x80, zeros up to 56 mod 64, the bit length on 64 bits. *)
Definition pad (msg : list Z) : list Z :=
  let len := Z.of_nat (List.length msg) in
  let zeros := Z.to_nat ((55 - len) mod 64) in
  msg ++ [0x80] ++ repeat 0 zeros ++ le_bytes 8 ((8 * len) mod 2 ^ 64).

Fixpoint chunks (fuel n : nat) (l : list Z) : list (list Z) :=
  match fuel with
  | O => []
  | S fuel' =>
      match l with
      | [] => []
      | _ => firstn n l :: chunks fuel' n (skipn n l)
      end
  end.

Definition words_of_block (block : list Z) : list Z :=
  map le_word (chunks 16 4 block).

Definition blocks (bytes : list Z) : list (list Z) :=
  map words_of_block (chunks (List.length bytes) 64 bytes).

Definition digest (msg : list Z) : list Z :=
  let h := fold_left compress (blocks (pad msg)) init in
  le_bytes 4 (sA h) ++ le_bytes 4 (sB h) ++ le_bytes 4 (sC h) ++ le_bytes 4 (sD h).

Definition hex_digit (n : Z) : ascii :=
  if n <? 10 then ascii_of_N (Z.to_N (48 + n)) else ascii_of_N (Z.to_N (87 + n)).

Fixpoint hex_of_bytes (bs : list Z) : string :=
  match bs with
  | [] => EmptyString
  | b :: r => String (hex_digit (b / 16)) (String (hex_digit (b mod 16)) (hex_of_bytes r))
  end.

Fixpoint bytes_of_string (s : string) : list Z :=
  match s with
  | EmptyString => []
  | String c r => code_of c :: bytes_of_string r
  end.

(** [md5(text)]: the digest of the text's bytes, as 32 lowercase hex digits. *)
Definition md5 (s : string) : string := hex_of_bytes (digest (bytes_of_string s)).

End MD5.

(** ** PostgreSQL string functions used by the trigger *)

Definition upper_char (c : ascii) : ascii :=
  if in_range "a" "z" c then ascii_of_N (N_of_ascii c - 32) else c.

(** [upper(text)]. *)
Definition upper (s : string) : string := string_map upper_char s.

(** [substr(text, start, count)]: positions are counted from 1; the part of
    the window before position 1 is cut off. *)
Definition substr (s : string) (start count : Z) : string :=
  let first := Z.max start 1 in
  substring (Z.to_nat (first - 1)) (Z.to_nat (start + count - first)) s.

(** ** Unicode text

    Text is held in UTF-8, the encoding of the database and of the literals
    of this file.  The string functions of JavaScript act on the characters
    of a text; they are defined here on its code points. *)

Module UTF8.

Definition chr (n : Z) : ascii := ascii_of_N (Z.to_N n).

(** The Unicode scalar values: the code points outside the surrogates. *)
Definition scalar (c : Z) : bool :=
  ((0 <=? c) && (c <? 0xD800)) || ((0xE000 <=? c) && (c <=? 0x10FFFF)).

Definition encode1 (c : Z) : string :=
  if c <? 0x80 then String (chr c) EmptyString
  else if c <? 0x800 then
    String (chr (0xC0 + c / 64)) (String (chr (0x80 + c mod 64)) EmptyString)
  else if c <? 0x10000 then
    String (chr (0xE0 + c / 4096))
      (String (chr (0x80 + (c / 64) mod 64)) (String (chr (0x80 + c mod 64)) EmptyString))
  else
    String (chr (0xF0 + c / 262144))
      (String (chr (0x80 + (c / 4096) mod 64))
         (String (chr (0x80 + (c / 64) mod 64)) (String (chr (0x80 + c mod 64)) EmptyString))).

Fixpoint encode (l : list Z) : string :=
  match l with
  | [] => EmptyString
  | c :: r => encode1 c ++ encode r
  end.

Definition byte_at (n : nat) (s : string) : Z :=
  match String.get n s with
  | Some c => code_of c
  | None => -1
  end.

Definition continuation (b : Z) : bool := (0x80 <=? b) && (b <=? 0xBF).

(** The code point encoded at the head of [s], with the number of bytes
    that follow its first byte; [None] where no well-formed sequence starts
    (a stray or truncated sequence, an overlong form, a surrogate). *)
Definition head (s : string) : option (Z * nat) :=
  let b0 := byte_at 0 s in
  let b1 := byte_at 1 s in
  let b2 := byte_at 2 s in
  let b3 := byte_at 3 s in
  if (0 <=? b0) && (b0 <? 0x80) then Some (b0, 0%nat)
  else if (0xC2 <=? b0) && (b0 <=? 0xDF) && continuation b1 then
    Some ((b0 - 0xC0) * 64 + (b1 - 0x80), 1%nat)
  else if (0xE0 <=? b0) && (b0 <=? 0xEF) && continuation b1 && continuation b2 then
    let c := (b0 - 0xE0) * 4096 + (b1 - 0x80) * 64 + (b2 - 0x80) in
    if (0x800 <=? c) && scalar c then Some (c, 2%nat) else None
  else if (0xF0 <=? b0) && (b0 <=? 0xF4) && continuation b1 && continuation b2
          && continuation b3 then
    let c := (b0 - 0xF0) * 262144 + (b1 - 0x80) * 4096 + (b2 - 0x80) * 64 + (b3 - 0x80) in
    if (0x10000 <=? c) && (c <=? 0x10FFFF) then Some (c, 3%nat) else None
  else None.

(** U+FFFD, which a decoder puts in the place of a byte that belongs to no
    well-formed sequence. *)
Definition replacement : Z := 0xFFFD.

Fixpoint decode_from (skip : nat) (s : string) : list Z :=
  match s with
  | EmptyString => []
  | String _ r =>
      match skip with
      | S k => decode_from k r
      | O =>
          match head s with
          | Some (c, more) => c :: decode_from more r
          | None => replacement :: decode_from 0 r
          end
      end
  end.

(** The code points of a text. *)
Definition decode (s : string) : list Z := decode_from 0 s.

End UTF8.

(** *** Upper-casing

    The case mappings of the Unicode Character Database (version 14.0) that
    [String.prototype.toUpperCase] applies to each code point whatever the
    locale: the simple upper-case mappings of [UnicodeData.txt] and the
    unconditional mappings of [SpecialCasing.txt], which turn one character
    into several. *)

Module Unicode.

(** Runs [(first, last, step, offset)]: each of [first], [first + step],
    ..., [last] is mapped to itself plus [offset]. *)
Definition simple_uppercase : list (Z * Z * Z * Z) :=
  [ (0x61, 0x7A, 1, -32); (0xB5, 0xB5, 1, 743); (0xE0, 0xF6, 1, -32); (0xF8, 0xFE, 1, -32);
    (0xFF, 0xFF, 1, 121); (0x101, 0x12F, 2, -1); (0x131, 0x131, 1, -232);
    (0x133, 0x137, 2, -1); (0x13A, 0x148, 2, -1); (0x14B, 0x177, 2, -1);
    (0x17A, 0x17E, 2, -1); (0x17F, 0x17F, 1, -300); (0x180, 0x180, 1, 195);
    (0x183, 0x185, 2, -1); (0x188, 0x188, 1, -1); (0x18C, 0x18C, 1, -1);
    (0x192, 0x192, 1, -1); (0x195, 0x195, 1, 97); (0x199, 0x199, 1, -1);
    (0x19A, 0x19A, 1, 163); (0x19E, 0x19E, 1, 130); (0x1A1, 0x1A5, 2, -1);
    (0x1A8, 0x1A8, 1, -1); (0x1AD, 0x1AD, 1, -1); (0x1B0, 0x1B0, 1, -1);
    (0x1B4, 0x1B6, 2, -1); (0x1B9, 0x1B9, 1, -1); (0x1BD, 0x1BD, 1, -1);
    (0x1BF, 0x1BF, 1, 56); (0x1C5, 0x1C5, 1, -1); (0x1C6, 0x1C6, 1, -2);
    (0x1C8, 0x1C8, 1, -1); (0x1C9, 0x1C9, 1, -2); (0x1CB, 0x1CB, 1, -1);
    (0x1CC, 0x1CC, 1, -2); (0x1CE, 0x1DC, 2, -1); (0x1DD, 0x1DD, 1, -79);
    (0x1DF, 0x1EF, 2, -1); (0x1F2, 0x1F2, 1, -1); (0x1F3, 0x1F3, 1, -2);
    (0x1F5, 0x1F5, 1, -1); (0x1F9, 0x21F, 2, -1); (0x223, 0x233, 2, -1);
    (0x23C, 0x23C, 1, -1); (0x23F, 0x240, 1, 10815); (0x242, 0x242, 1, -1);
    (0x247, 0x24F, 2, -1); (0x250, 0x250, 1, 10783); (0x251, 0x251, 1, 10780);
    (0x252, 0x252, 1, 10782); (0x253, 0x253, 1, -210); (0x254, 0x254, 1, -206);
    (0x256, 0x257, 1, -205); (0x259, 0x259, 1, -202); (0x25B, 0x25B, 1, -203);
    (0x25C, 0x25C, 1, 42319); (0x260, 0x260, 1, -205); (0x261, 0x261, 1, 42315);
    (0x263, 0x263, 1, -207); (0x265, 0x265, 1, 42280); (0x266, 0x266, 1, 42308);
    (0x268, 0x268, 1, -209); (0x269, 0x269, 1, -211); (0x26A, 0x26A, 1, 42308);
    (0x26B, 0x26B, 1, 10743); (0x26C, 0x26C, 1, 42305); (0x26F, 0x26F, 1, -211);
    (0x271, 0x271, 1, 10749); (0x272, 0x272, 1, -213); (0x275, 0x275, 1, -214);
    (0x27D, 0x27D, 1, 10727); (0x280, 0x280, 1, -218); (0x282, 0x282, 1, 42307);
    (0x283, 0x283, 1, -218); (0x287, 0x287, 1, 42282); (0x288, 0x288, 1, -218);
    (0x289, 0x289, 1, -69); (0x28A, 0x28B, 1, -217); (0x28C, 0x28C, 1, -71);
    (0x292, 0x292, 1, -219); (0x29D, 0x29D, 1, 42261); (0x29E, 0x29E, 1, 42258);
    (0x345, 0x345, 1, 84); (0x371, 0x373, 2, -1); (0x377, 0x377, 1, -1);
    (0x37B, 0x37D, 1, 130); (0x3AC, 0x3AC, 1, -38); (0x3AD, 0x3AF, 1, -37);
    (0x3B1, 0x3C1, 1, -32); (0x3C2, 0x3C2, 1, -31); (0x3C3, 0x3CB, 1, -32);
    (0x3CC, 0x3CC, 1, -64); (0x3CD, 0x3CE, 1, -63); (0x3D0, 0x3D0, 1, -62);
    (0x3D1, 0x3D1, 1, -57); (0x3D5, 0x3D5, 1, -47); (0x3D6, 0x3D6, 1, -54);
    (0x3D7, 0x3D7, 1, -8); (0x3D9, 0x3EF, 2, -1); (0x3F0, 0x3F0, 1, -86);
    (0x3F1, 0x3F1, 1, -80); (0x3F2, 0x3F2, 1, 7); (0x3F3, 0x3F3, 1, -116);
    (0x3F5, 0x3F5, 1, -96); (0x3F8, 0x3F8, 1, -1); (0x3FB, 0x3FB, 1, -1);
    (0x430, 0x44F, 1, -32); (0x450, 0x45F, 1, -80); (0x461, 0x481, 2, -1);
    (0x48B, 0x4BF, 2, -1); (0x4C2, 0x4CE, 2, -1); (0x4CF, 0x4CF, 1, -15);
    (0x4D1, 0x52F, 2, -1); (0x561, 0x586, 1, -48); (0x10D0, 0x10FA, 1, 3008);
    (0x10FD, 0x10FF, 1, 3008); (0x13F8, 0x13FD, 1, -8); (0x1C80, 0x1C80, 1, -6254);
    (0x1C81, 0x1C81, 1, -6253); (0x1C82, 0x1C82, 1, -6244); (0x1C83, 0x1C84, 1, -6242);
    (0x1C85, 0x1C85, 1, -6243); (0x1C86, 0x1C86, 1, -6236); (0x1C87, 0x1C87, 1, -6181);
    (0x1C88, 0x1C88, 1, 35266); (0x1D79, 0x1D79, 1, 35332); (0x1D7D, 0x1D7D, 1, 3814);
    (0x1D8E, 0x1D8E, 1, 35384); (0x1E01, 0x1E95, 2, -1); (0x1E9B, 0x1E9B, 1, -59);
    (0x1EA1, 0x1EFF, 2, -1); (0x1F00, 0x1F07, 1, 8); (0x1F10, 0x1F15, 1, 8);
    (0x1F20, 0x1F27, 1, 8); (0x1F30, 0x1F37, 1, 8); (0x1F40, 0x1F45, 1, 8);
    (0x1F51, 0x1F57, 2, 8); (0x1F60, 0x1F67, 1, 8); (0x1F70, 0x1F71, 1, 74);
    (0x1F72, 0x1F75, 1, 86); (0x1F76, 0x1F77, 1, 100); (0x1F78, 0x1F79, 1, 128);
    (0x1F7A, 0x1F7B, 1, 112); (0x1F7C, 0x1F7D, 1, 126); (0x1FB0, 0x1FB1, 1, 8);
    (0x1FBE, 0x1FBE, 1, -7205); (0x1FD0, 0x1FD1, 1, 8); (0x1FE0, 0x1FE1, 1, 8);
    (0x1FE5, 0x1FE5, 1, 7); (0x214E, 0x214E, 1, -28); (0x2170, 0x217F, 1, -16);
    (0x2184, 0x2184, 1, -1); (0x24D0, 0x24E9, 1, -26); (0x2C30, 0x2C5F, 1, -48);
    (0x2C61, 0x2C61, 1, -1); (0x2C65, 0x2C65, 1, -10795); (0x2C66, 0x2C66, 1, -10792);
    (0x2C68, 0x2C6C, 2, -1); (0x2C73, 0x2C73, 1, -1); (0x2C76, 0x2C76, 1, -1);
    (0x2C81, 0x2CE3, 2, -1); (0x2CEC, 0x2CEE, 2, -1); (0x2CF3, 0x2CF3, 1, -1);
    (0x2D00, 0x2D25, 1, -7264); (0x2D27, 0x2D27, 1, -7264); (0x2D2D, 0x2D2D, 1, -7264);
    (0xA641, 0xA66D, 2, -1); (0xA681, 0xA69B, 2, -1); (0xA723, 0xA72F, 2, -1);
    (0xA733, 0xA76F, 2, -1); (0xA77A, 0xA77C, 2, -1); (0xA77F, 0xA787, 2, -1);
    (0xA78C, 0xA78C, 1, -1); (0xA791, 0xA793, 2, -1); (0xA794, 0xA794, 1, 48);
    (0xA797, 0xA7A9, 2, -1); (0xA7B5, 0xA7C3, 2, -1); (0xA7C8, 0xA7CA, 2, -1);
    (0xA7D1, 0xA7D1, 1, -1); (0xA7D7, 0xA7D9, 2, -1); (0xA7F6, 0xA7F6, 1, -1);
    (0xAB53, 0xAB53, 1, -928); (0xAB70, 0xABBF, 1, -38864); (0xFF41, 0xFF5A, 1, -32);
    (0x10428, 0x1044F, 1, -40); (0x104D8, 0x104FB, 1, -40); (0x10597, 0x105BB, 2, -39);
    (0x10598, 0x105A0, 2, -39); (0x105A4, 0x105B0, 2, -39); (0x105B4, 0x105B8, 2, -39);
    (0x105BC, 0x105BC, 1, -39); (0x10CC0, 0x10CF2, 1, -64); (0x118C0, 0x118DF, 1, -32);
    (0x16E60, 0x16E7F, 1, -32); (0x1E922, 0x1E943, 1, -34) ].

(** The characters whose upper case is a sequence of characters. *)
Definition special_uppercase : list (Z * list Z) :=
  [ (0xDF, [0x53; 0x53]); (0x149, [0x2BC; 0x4E]); (0x1F0, [0x4A; 0x30C]);
    (0x390, [0x399; 0x308; 0x301]); (0x3B0, [0x3A5; 0x308; 0x301]); (0x587, [0x535; 0x552]);
    (0x1E96, [0x48; 0x331]); (0x1E97, [0x54; 0x308]); (0x1E98, [0x57; 0x30A]);
    (0x1E99, [0x59; 0x30A]); (0x1E9A, [0x41; 0x2BE]); (0x1F50, [0x3A5; 0x313]);
    (0x1F52, [0x3A5; 0x313; 0x300]); (0x1F54, [0x3A5; 0x313; 0x301]);
    (0x1F56, [0x3A5; 0x313; 0x342]); (0x1F80, [0x1F08; 0x399]); (0x1F81, [0x1F09; 0x399]);
    (0x1F82, [0x1F0A; 0x399]); (0x1F83, [0x1F0B; 0x399]); (0x1F84, [0x1F0C; 0x399]);
    (0x1F85, [0x1F0D; 0x399]); (0x1F86, [0x1F0E; 0x399]); (0x1F87, [0x1F0F; 0x399]);
    (0x1F88, [0x1F08; 0x399]); (0x1F89, [0x1F09; 0x399]); (0x1F8A, [0x1F0A; 0x399]);
    (0x1F8B, [0x1F0B; 0x399]); (0x1F8C, [0x1F0C; 0x399]); (0x1F8D, [0x1F0D; 0x399]);
    (0x1F8E, [0x1F0E; 0x399]); (0x1F8F, [0x1F0F; 0x399]); (0x1F90, [0x1F28; 0x399]);
    (0x1F91, [0x1F29; 0x399]); (0x1F92, [0x1F2A; 0x399]); (0x1F93, [0x1F2B; 0x399]);
    (0x1F94, [0x1F2C; 0x399]); (0x1F95, [0x1F2D; 0x399]); (0x1F96, [0x1F2E; 0x399]);
    (0x1F97, [0x1F2F; 0x399]); (0x1F98, [0x1F28; 0x399]); (0x1F99, [0x1F29; 0x399]);
    (0x1F9A, [0x1F2A; 0x399]); (0x1F9B, [0x1F2B; 0x399]); (0x1F9C, [0x1F2C; 0x399]);
    (0x1F9D, [0x1F2D; 0x399]); (0x1F9E, [0x1F2E; 0x399]); (0x1F9F, [0x1F2F; 0x399]);
    (0x1FA0, [0x1F68; 0x399]); (0x1FA1, [0x1F69; 0x399]); (0x1FA2, [0x1F6A; 0x399]);
    (0x1FA3, [0x1F6B; 0x399]); (0x1FA4, [0x1F6C; 0x399]); (0x1FA5, [0x1F6D; 0x399]);
    (0x1FA6, [0x1F6E; 0x399]); (0x1FA7, [0x1F6F; 0x399]); (0x1FA8, [0x1F68; 0x399]);
    (0x1FA9, [0x1F69; 0x399]); (0x1FAA, [0x1F6A; 0x399]); (0x1FAB, [0x1F6B; 0x399]);
    (0x1FAC, [0x1F6C; 0x399]); (0x1FAD, [0x1F6D; 0x399]); (0x1FAE, [0x1F6E; 0x399]);
    (0x1FAF, [0x1F6F; 0x399]); (0x1FB2, [0x1FBA; 0x399]); (0x1FB3, [0x391; 0x399]);
    (0x1FB4, [0x386; 0x399]); (0x1FB6, [0x391; 0x342]); (0x1FB7, [0x391; 0x342; 0x399]);
    (0x1FBC, [0x391; 0x399]); (0x1FC2, [0x1FCA; 0x399]); (0x1FC3, [0x397; 0x399]);
    (0x1FC4, [0x389; 0x399]); (0x1FC6, [0x397; 0x342]); (0x1FC7, [0x397; 0x342; 0x399]);
    (0x1FCC, [0x397; 0x399]); (0x1FD2, [0x399; 0x308; 0x300]);
    (0x1FD3, [0x399; 0x308; 0x301]); (0x1FD6, [0x399; 0x342]);
    (0x1FD7, [0x399; 0x308; 0x342]); (0x1FE2, [0x3A5; 0x308; 0x300]);
    (0x1FE3, [0x3A5; 0x308; 0x301]); (0x1FE4, [0x3A1; 0x313]); (0x1FE6, [0x3A5; 0x342]);
    (0x1FE7, [0x3A5; 0x308; 0x342]); (0x1FF2, [0x1FFA; 0x399]); (0x1FF3, [0x3A9; 0x399]);
    (0x1FF4, [0x38F; 0x399]); (0x1FF6, [0x3A9; 0x342]); (0x1FF7, [0x3A9; 0x342; 0x399]);
    (0x1FFC, [0x3A9; 0x399]); (0xFB00, [0x46; 0x46]); (0xFB01, [0x46; 0x49]);
    (0xFB02, [0x46; 0x4C]); (0xFB03, [0x46; 0x46; 0x49]); (0xFB04, [0x46; 0x46; 0x4C]);
    (0xFB05, [0x53; 0x54]); (0xFB06, [0x53; 0x54]); (0xFB13, [0x544; 0x546]);
    (0xFB14, [0x544; 0x535]); (0xFB15, [0x544; 0x53B]); (0xFB16, [0x54E; 0x546]);
    (0xFB17, [0x544; 0x53D]) ].

Definition in_run (c : Z) (r : Z * Z * Z * Z) : bool :=
  let '(first, last, step, _) := r in
  (first <=? c) && (c <=? last) && ((c - first) mod step =? 0).

Definition toUppercase (c : Z) : list Z :=
  match find (fun e => fst e =? c) special_uppercase with
  | Some (_, l) => l
  | None =>
      match find (in_run c) simple_uppercase with
      | Some (_, _, _, offset) => [c + offset]
      | None => [c]
      end
  end.

End Unicode.

(** ** JavaScript string functions used by the handlers *)

(** The class [\s], which is also what [trim] removes: the WhiteSpace and
    LineTerminator code points of ECMAScript (TAB, LF, VT, FF, CR, the
    space separators of Unicode, the line and paragraph separators and the
    byte order mark). *)
Definition is_whitespace (c : Z) : bool :=
  ((0x09 <=? c) && (c <=? 0x0D)) || (c =? 0x20) || (c =? 0xA0) || (c =? 0x1680)
  || ((0x2000 <=? c) && (c <=? 0x200A)) || (c =? 0x2028) || (c =? 0x2029)
  || (c =? 0x202F) || (c =? 0x205F) || (c =? 0x3000) || (c =? 0xFEFF).

(** The class [\d]. *)
Definition is_digit (c : ascii) : bool := in_range "0" "9" c.

Module CodePoints.

Fixpoint trimStart (l : list Z) : list Z :=
  match l with
  | [] => []
  | c :: r => if is_whitespace c then trimStart r else l
  end.

Definition trimEnd (l : list Z) : list Z := rev (trimStart (rev l)).

Definition trim (l : list Z) : list Z := trimEnd (trimStart l).

Definition toUpperCase (l : list Z) : list Z := flat_map Unicode.toUppercase l.

(** The class [[-\s]]. *)
Definition is_separator (c : Z) : bool := (c =? 0x2D) || is_whitespace c.

Definition strip_separators (l : list Z) : list Z :=
  filter (fun c => negb (is_separator c)) l.

End CodePoints.

(** A function on the characters of a text, applied to the text. *)
Definition on_code_points (f : list Z -> list Z) (s : string) : string :=
  UTF8.encode (f (UTF8.decode s)).

(** [String.prototype.trim]. *)
Definition trim (s : string) : string := on_code_points CodePoints.trim s.

(** [String.prototype.toUpperCase]. *)
Definition toUpperCase (s : string) : string := on_code_points CodePoints.toUpperCase s.

(** [s.replace(/[-\s]/g, ...)] with the empty replacement: every hyphen and
    every whitespace character is deleted. *)
Definition strip_separators (s : string) : string :=
  on_code_points CodePoints.strip_separators s.

(** *** A backtracking matcher for the regular expression of the form

    A matcher takes the rest of the input and a continuation deciding
    whether the match may end there, as in the semantics of [RegExp].  The
    pattern of the form has ASCII classes only and is run on the bytes of
    the text: a byte of a character outside ASCII is in none of its
    classes, as the character itself is in none. *)

Definition Matcher : Type := string -> (string -> bool) -> bool.

Definition m_empty : Matcher := fun s k => k s.

Definition m_class (p : ascii -> bool) : Matcher :=
  fun s k => match s with
             | EmptyString => false
             | String c r => p c && k r
             end.

Definition m_seq (a b : Matcher) : Matcher := fun s k => a s (fun r => b r k).

Definition m_alt (a b : Matcher) : Matcher := fun s k => a s k || b s k.

(** [a{n}]. *)
Fixpoint m_times (n : nat) (a : Matcher) : Matcher :=
  match n with
  | O => m_empty
  | S n' => m_seq a (m_times n' a)
  end.

(** [a{0,n}], greedy. *)
Fixpoint m_upto (n : nat) (a : Matcher) : Matcher :=
  match n with
  | O => m_empty
  | S n' => m_alt (m_seq a (m_upto n' a)) m_empty
  end.

(** [a{lo,hi}]. *)
Definition m_between (lo hi : nat) (a : Matcher) : Matcher :=
  m_seq (m_times lo a) (m_upto (hi - lo) a).

(** [/^( ... )$/.test(s)]: the whole input has to be matched. *)
Definition test_anchored (m : Matcher) (s : string) : bool :=
  m s (fun r => String.eqb r EmptyString).

Definition one_of (cs : string) (c : ascii) : bool :=
  negb (string_forallb (fun x => negb (Ascii.eqb x c)) cs).

(** [const phoneRegex = /^(0[689]\d{8}|0[2-9]\d{7,8})$/]. *)
Definition phoneRegex : Matcher :=
  m_alt (m_seq (m_class (one_of "0"))
               (m_seq (m_class (one_of "689")) (m_times 8 (m_class is_digit))))
        (m_seq (m_class (one_of "0"))
               (m_seq (m_class (in_range "2" "9")) (m_between 7 8 (m_class is_digit)))).

Definition phoneRegex_test (s : string) : bool := test_anchored phoneRegex s.

(** ** Dates *)

(** A day chosen in the calendar widget, the only source of the dates the
    page holds: the local calendar day, counted from 1970-01-01. *)
Definition Date : Type := Z.

(** The day number of the civil date [y]-[m]-[d]. *)
Definition ymd (y m d : Z) : Date :=
  let y' := if m <=? 2 then y - 1 else y in
  let era := y' / 400 in
  let yoe := y' - era * 400 in
  let mp := (m + 9) mod 12 in
  let doy := (153 * mp + 2) / 5 + d - 1 in
  let doe := yoe * 365 + yoe / 4 - yoe / 100 + doy in
  era * 146097 + doe - 719468.

(** date-fns [differenceInDays(laterDate, earlierDate)] on two days of the
    calendar widget (both at local midnight): the number of whole days from
    the second to the first. *)
Definition differenceInDays (laterDate earlierDate : Date) : Z :=
  laterDate - earlierDate.

(** ** The schema of the migrations *)

Inductive app_role := admin | staff.

Inductive van_status := available | maintenance | hidden.

(** [booking_status], with [proceed] added after [confirmed] by a later
    migration. *)
Inductive booking_status := pending | confirmed | proceed | completed | cancelled.

Definition app_role_eqb (a b : app_role) : bool :=
  match a, b with
  | admin, admin | staff, staff => true
  | _, _ => false
  end.

Definition van_status_eqb (a b : van_status) : bool :=
  match a, b with
  | available, available | maintenance, maintenance | hidden, hidden => true
  | _, _ => false
  end.

Definition booking_status_eqb (a b : booking_status) : bool :=
  match a, b with
  | pending, pending | confirmed, confirmed | proceed, proceed
  | completed, completed | cancelled, cancelled => true
  | _, _ => false
  end.

(** Reading an enum label, as the store does for [.eq("status", label)]. *)
Definition booking_status_of_label (l : string) : option booking_status :=
  if String.eqb l "pending" then Some pending
  else if String.eqb l "confirmed" then Some confirmed
  else if String.eqb l "proceed" then Some proceed
  else if String.eqb l "completed" then Some completed
  else if String.eqb l "cancelled" then Some cancelled
  else None.

Module profiles.

Record Row := mkRow {
  id : string;
  full_name : option string;
  role : app_role
}.

End profiles.

Module vans.

Record Features := mkFeatures { wifi : bool; ac : bool; vip_seats : bool }.

Record Row := mkRow {
  id : string;
  name : string;
  model : string;
  seats : Z;
  price_per_day : Z;
  image_url : option string;
  description : option string;
  features : Features;
  status : van_status;
  co2_per_km : option Z;
  created_at : Z;
  updated_at : Z
}.

End vans.

Module bookings.

Record Row := mkRow {
  id : string;
  customer_name : string;
  customer_phone : string;
  van_id : string;
  start_date : Date;
  end_date : Date;
  pickup_location : string;
  pickup_time : option string;
  total_price : Z;
  status : booking_status;
  notes : option string;
  booking_code : option string;
  created_at : Z;
  updated_at : Z
}.

(** The columns the storefront supplies on insert; the others come from
    column defaults and from the trigger. *)
Record Insert := mkInsert {
  i_customer_name : string;
  i_customer_phone : string;
  i_van_id : string;
  i_start_date : Date;
  i_end_date : Date;
  i_pickup_location : string;
  i_pickup_time : option string;
  i_total_price : Z;
  i_notes : option string;
  i_status : booking_status
}.

(** [UPDATE ... SET status = s], followed by the [BEFORE UPDATE] trigger
    [update_updated_at_column] setting [updated_at] to [now()]. *)
Definition set_status (s : booking_status) (t : Z) (b : Row) : Row :=
  mkRow (id b) (customer_name b) (customer_phone b) (van_id b)
        (start_date b) (end_date b) (pickup_location b) (pickup_time b)
        (total_price b) s (notes b) (booking_code b) (created_at b) t.

(** The column [booking_code] set to [c]. *)
Definition set_booking_code (c : option string) (b : Row) : Row :=
  mkRow (id b) (customer_name b) (customer_phone b) (van_id b)
        (start_date b) (end_date b) (pickup_location b) (pickup_time b)
        (total_price b) (status b) (notes b) c (created_at b) (updated_at b).

(** The trigger [update_bookings_updated_at], which runs
    [update_updated_at_column] on every row that an [UPDATE] touches:
    [NEW.updated_at = now()]. *)
Definition update_updated_at_column (t : Z) (b : Row) : Row :=
  mkRow (id b) (customer_name b) (customer_phone b) (van_id b)
        (start_date b) (end_date b) (pickup_location b) (pickup_time b)
        (total_price b) (status b) (notes b) (booking_code b) (created_at b) t.

End bookings.

Record Db := mkDb {
  tbl_profiles : list profiles.Row;
  tbl_vans : list vans.Row;
  tbl_bookings : list bookings.Row
}.

(** What a request brings with it: the caller ([auth.uid()]), the
    transaction time ([now()]), the next [gen_random_uuid()] and the text of
    the successive [random()] draws. *)
Record Env := mkEnv {
  auth_uid : option string;
  pg_now : Z;
  gen_random_uuid : string;
  random_text : list string
}.

(** ** Row-level security *)

(** [public.is_staff_or_admin(_user_id)]. *)
Definition is_staff_or_admin (db : Db) (user : option string) : bool :=
  match user with
  | None => false
  | Some u =>
      existsb (fun p => String.eqb (profiles.id p) u
                        && (app_role_eqb (profiles.role p) admin
                            || app_role_eqb (profiles.role p) staff))
              (tbl_profiles db)
  end.

(** Policies "Anyone can view available vans" and "Staff can view all vans". *)
Definition vans_select_policy (db : Db) (user : option string) (v : vans.Row) : bool :=
  van_status_eqb (vans.status v) available || is_staff_or_admin db user.

(** Policy "Anyone can view booking by code": [USING (true)]. *)
Definition bookings_select_policy (db : Db) (user : option string) (b : bookings.Row) : bool :=
  true.

(** Policy "Anyone can create bookings": [WITH CHECK (true)]. *)
Definition bookings_insert_policy (db : Db) (user : option string) (b : bookings.Row) : bool :=
  true.

(** Policy "Staff can update bookings". *)
Definition bookings_update_policy (db : Db) (user : option string) (b : bookings.Row) : bool :=
  is_staff_or_admin db user.

(** ** The trigger [generate_booking_code] *)

Definition option_string_eqb (o : option string) (s : string) : bool :=
  match o with
  | Some x => String.eqb x s
  | None => false
  end.

(** [SELECT EXISTS(SELECT 1 FROM public.bookings WHERE booking_code = new_code)];
    a NULL code equals nothing. *)
Definition code_exists (rows : list bookings.Row) (new_code : string) : bool :=
  existsb (fun b => option_string_eqb (bookings.booking_code b) new_code) rows.

(** [upper(substr(md5(t), 1, 6))]: the code derived from a text [t], which
    is [random()::text] in the trigger and [id::text] in the backfill. *)
Definition candidate (t : string) : string :=
  upper (substr (MD5.md5 t) 1 6).

(** The [LOOP ... EXIT WHEN NOT code_exists; END LOOP] of the trigger, run
    on the given draws.  It has no bound of its own: [None] says that every
    supplied draw collided and the loop is still running. *)
Fixpoint generate_booking_code (rs : list string) (rows : list bookings.Row)
  : option string :=
  match rs with
  | [] => None
  | r :: rest =>
      let new_code := candidate r in
      if code_exists rows new_code then generate_booking_code rest rows
      else Some new_code
  end.

(** ** [INSERT INTO bookings] and the migration that adds the code *)

Inductive PgError :=
| numeric_field_overflow
| unique_violation (constraint : string)
| foreign_key_violation (constraint : string)
| insufficient_privilege
| still_running.

(** [NUMERIC(10,2)]: at most eight digits before the decimal point. *)
Definition numeric_10_2_fits (hundredths : Z) : bool :=
  Z.abs hundredths <? 10 ^ 10.

Definition insert_booking (env : Env) (p : bookings.Insert) (db : Db)
  : PgError + (Db * bookings.Row) :=
  if negb (numeric_10_2_fits (bookings.i_total_price p)) then inl numeric_field_overflow
  else
    match generate_booking_code (random_text env) (tbl_bookings db) with
    | None => inl still_running
    | Some code =>
        let row :=
          bookings.mkRow (gen_random_uuid env)
            (bookings.i_customer_name p) (bookings.i_customer_phone p)
            (bookings.i_van_id p) (bookings.i_start_date p) (bookings.i_end_date p)
            (bookings.i_pickup_location p) (bookings.i_pickup_time p)
            (bookings.i_total_price p) (bookings.i_status p) (bookings.i_notes p)
            (Some code) (pg_now env) (pg_now env) in
        if negb (bookings_insert_policy db (auth_uid env) row) then inl insufficient_privilege
        else if existsb (fun b => String.eqb (bookings.id b) (gen_random_uuid env)) (tbl_bookings db)
        then inl (unique_violation "bookings_pkey")
        else if code_exists (tbl_bookings db) code
        then inl (unique_violation "bookings_booking_code_key")
        else if negb (existsb (fun v => String.eqb (vans.id v) (bookings.i_van_id p))
                              (tbl_vans db))
        then inl (foreign_key_violation "bookings_van_id_fkey")
        else inr (mkDb (tbl_profiles db) (tbl_vans db) (tbl_bookings db ++ [row]), row)
    end.

(** The column's [UNIQUE] constraint on a list of rows; NULLs never clash. *)
Fixpoint distinct_codes (rows : list bookings.Row) : bool :=
  match rows with
  | [] => true
  | b :: r =>
      match bookings.booking_code b with
      | Some c => negb (code_exists r c)
      | None => true
      end && distinct_codes r
  end.

(** The migration that introduces [booking_code], run on a store that may
    already hold bookings.  First
    [ALTER TABLE public.bookings ADD COLUMN booking_code TEXT UNIQUE]: the
    new column is NULL in every row. *)
Definition add_booking_code_column (db : Db) : Db :=
  mkDb (tbl_profiles db) (tbl_vans db)
       (map (bookings.set_booking_code None) (tbl_bookings db)).

(** Then the backfill,
    [UPDATE public.bookings SET booking_code = upper(substr(md5(id::text), 1, 6))
    WHERE booking_code IS NULL]: every row without a code receives the code
    derived from its id and passes the [BEFORE UPDATE] trigger, a row that
    holds a code is not touched, and the statement is aborted if two rows
    come to hold the same code. *)
Definition backfill_booking_codes (env : Env) (db : Db) : PgError + Db :=
  let rows :=
    map (fun b =>
           match bookings.booking_code b with
           | None =>
               bookings.update_updated_at_column (pg_now env)
                 (bookings.set_booking_code (Some (candidate (bookings.id b))) b)
           | Some _ => b
           end)
        (tbl_bookings db) in
  if distinct_codes rows then inr (mkDb (tbl_profiles db) (tbl_vans db) rows)
  else inl (unique_violation "bookings_booking_code_key").

(** ** The storefront (index page) *)

Record Form := mkForm {
  name : string;
  phone : string;
  pickup : string;
  pickupTime : string;
  notes : string
}.

Record IndexState := mkIndexState {
  selectedVan : option vans.Row;
  startDate : option Date;
  endDate : option Date;
  form : Form
}.

(** [const days = startDate && endDate ? differenceInDays(endDate, startDate) : 0]. *)
Definition days (st : IndexState) : Z :=
  match startDate st, endDate st with
  | Some s, Some e => differenceInDays e s
  | _, _ => 0
  end.

(** [const totalPrice = selectedVan ? days * selectedVan.price_per_day : 0].
    The page multiplies JavaScript numbers and the column rounds the result
    to two decimals; for a rate with two decimals this is the exact product,
    which is what the model computes on hundredths. *)
Definition totalPrice (st : IndexState) : Z :=
  match selectedVan st with
  | Some v => days st * vans.price_per_day v
  | None => 0
  end.

(** [text || null]. *)
Definition or_null (s : string) : option string :=
  if String.eqb s EmptyString then None else Some s.

(** How [handleSubmit] ends: the silent return of its first line, one of the
    two validation toasts, the "Booking Failed" toast, or the success dialog
    for the returned row. *)
Inductive SubmitResult :=
| NotReady
| InvalidPhone
| InvalidDates
| BookingFailed (e : PgError)
| Booked (row : bookings.Row).

Definition handleSubmit (env : Env) (st : IndexState) (db : Db) : Db * SubmitResult :=
  match selectedVan st, startDate st, endDate st with
  | Some van, Some sd, Some ed =>
      if negb (phoneRegex_test (strip_separators (phone (form st)))) then (db, InvalidPhone)
      else if days st <? 1 then (db, InvalidDates)
      else
        let payload :=
          bookings.mkInsert (name (form st)) (strip_separators (phone (form st)))
            (vans.id van) sd ed (pickup (form st)) (or_null (pickupTime (form st)))
            (totalPrice st) (or_null (notes (form st))) pending in
        match insert_booking env payload db with
        | inl e => (db, BookingFailed e)
        | inr (db', row) => (db', Booked row)
        end
  | _, _, _ => (db, NotReady)
  end.

(** The embedded resource [vans(name, model, image_url)] of a booking, as
    far as the caller may see the van. *)
Record VanSummary := mkVanSummary {
  vs_name : string;
  vs_model : string;
  vs_image_url : option string
}.

Definition embed_van (db : Db) (user : option string) (b : bookings.Row)
  : option VanSummary :=
  match find (fun v => String.eqb (vans.id v) (bookings.van_id b)
                       && vans_select_policy db user v) (tbl_vans db) with
  | Some v => Some (mkVanSummary (vans.name v) (vans.model v) (vans.image_url v))
  | None => None
  end.

(** How [handleLookup] ends: the silent return on blank input, the "no
    booking found with this code" message, or the booking shown. *)
Inductive LookupResult :=
| NoLookup
| NotFound
| Found (row : bookings.Row) (van : option VanSummary).

Definition handleLookup (user : option string) (lookupCode : string) (db : Db)
  : LookupResult :=
  if String.eqb (trim lookupCode) EmptyString then NoLookup
  else
    let code := toUpperCase (trim lookupCode) in
    match filter (fun b => bookings_select_policy db user b
                           && option_string_eqb (bookings.booking_code b) code)
                 (tbl_bookings db) with
    | [] => NotFound
    | [b] => Found b (embed_van db user b)
    | _ :: _ :: _ => NotFound
    end.

(** ** The administration page *)

(** [ORDER BY created_at DESC], as an insertion sort. *)
Fixpoint insert_desc (b : bookings.Row) (l : list bookings.Row) : list bookings.Row :=
  match l with
  | [] => [b]
  | x :: r =>
      if bookings.created_at x <=? bookings.created_at b then b :: l
      else x :: insert_desc b r
  end.

Fixpoint order_by_created_at_desc (l : list bookings.Row) : list bookings.Row :=
  match l with
  | [] => []
  | b :: r => insert_desc b (order_by_created_at_desc r)
  end.

(** The embedded resource [vans(name, model)] of the administration page. *)
Definition embed_van_name_model (db : Db) (user : option string) (b : bookings.Row)
  : option (string * string) :=
  option_map (fun v => (vs_name v, vs_model v)) (embed_van db user b).

(** [fetchBookings] for the current value of the filter: the rows put into
    the page state, each with its embedded van. *)
Definition fetchBookings (user : option string) (filter_ : string) (db : Db)
  : list (bookings.Row * option (string * string)) :=
  let visible := filter (bookings_select_policy db user) (tbl_bookings db) in
  let rows :=
    if String.eqb filter_ "all" then Some visible
    else match booking_status_of_label filter_ with
         | Some s => Some (filter (fun b => booking_status_eqb (bookings.status b) s) visible)
         | None => None
         end in
  match rows with
  | Some l => map (fun b => (b, embed_van_name_model db user b)) (order_by_created_at_desc l)
  | None => []
  end.

Inductive Toast := StatusUpdated (s : booking_status) | ErrorToast (e : PgError).

(** [supabase.from("bookings").update({ status }).eq("id", id)]: every row
    of that id which the update policy lets the caller touch.  An id is a
    value of the [uuid] column, as the page holds it in [booking.id] of a
    listed row. *)
Definition update_booking_status (env : Env) (id : string) (s : booking_status) (db : Db)
  : Db :=
  mkDb (tbl_profiles db) (tbl_vans db)
       (map (fun b => if String.eqb (bookings.id b) id
                         && bookings_select_policy db (auth_uid env) b
                         && bookings_update_policy db (auth_uid env) b
                      then bookings.set_status s (pg_now env) b else b)
            (tbl_bookings db)).

(** [updateStatus(booking.id, status)], as the buttons of the page call it:
    the update of a listed booking's status returns no error, and the page
    shows the "Status Updated" toast. *)
Definition updateStatus (env : Env) (id : string) (s : booking_status) (db : Db)
  : Db * Toast :=
  (update_booking_status env id s db, StatusUpdated s).

(** ** The fleet page *)

Module fleet.

(** The edit form of the fleet page, which [handleSave] sends as the
    update payload. *)
Record Payload := mkPayload {
  name : string;
  model : string;
  seats : Z;
  price_per_day : Z;
  image_url : string;
  description : string;
  features : vans.Features;
  status : van_status;
  co2_per_km : option Z
}.

End fleet.

(** Policies "Staff can update vans" and "Staff can insert vans". *)
Definition vans_update_policy (db : Db) (user : option string) (v : vans.Row) : bool :=
  is_staff_or_admin db user.

Definition vans_insert_policy (db : Db) (user : option string) (v : vans.Row) : bool :=
  is_staff_or_admin db user.

(** [UPDATE vans SET ... WHERE id = ...] on the rows the caller may touch,
    with the [BEFORE UPDATE] trigger on [vans]. *)
Definition update_vans (env : Env) (id : string) (f : vans.Row -> vans.Row) (db : Db) : Db :=
  mkDb (tbl_profiles db)
       (map (fun v =>
               if String.eqb (vans.id v) id
                  && vans_select_policy db (auth_uid env) v
                  && vans_update_policy db (auth_uid env) v
               then let v' := f v in
                    vans.mkRow (vans.id v') (vans.name v') (vans.model v') (vans.seats v')
                      (vans.price_per_day v') (vans.image_url v') (vans.description v')
                      (vans.features v') (vans.status v') (vans.co2_per_km v')
                      (vans.created_at v') (pg_now env)
               else v)
            (tbl_vans db))
       (tbl_bookings db).

Definition row_of_payload (id : string) (created : Z) (p : fleet.Payload) : vans.Row :=
  vans.mkRow id (fleet.name p) (fleet.model p) (fleet.seats p) (fleet.price_per_day p)
    (Some (fleet.image_url p)) (Some (fleet.description p)) (fleet.features p)
    (fleet.status p) (fleet.co2_per_km p) created created.

(** [handleSave]: an update of the van being edited, or the insert of a new
    van (image uploads left aside). *)
Definition handleSave (env : Env) (editingVan : option vans.Row) (p : fleet.Payload) (db : Db)
  : PgError + Db :=
  if negb (numeric_10_2_fits (fleet.price_per_day p)) then inl numeric_field_overflow
  else
    match editingVan with
    | Some van =>
        inr (update_vans env (vans.id van)
               (fun v => row_of_payload (vans.id v) (vans.created_at v) p) db)
    | None =>
        let row := row_of_payload (gen_random_uuid env) (pg_now env) p in
        if negb (vans_insert_policy db (auth_uid env) row) then inl insufficient_privilege
        else if existsb (fun v => String.eqb (vans.id v) (gen_random_uuid env)) (tbl_vans db)
        then inl (unique_violation "vans_pkey")
        else inr (mkDb (tbl_profiles db) (tbl_vans db ++ [row]) (tbl_bookings db))
    end.

(** [toggleStatus]: an available van becomes hidden, any other available. *)
Definition toggleStatus (env : Env) (van : vans.Row) (db : Db) : Db :=
  let newStatus := if van_status_eqb (vans.status van) available then hidden else available in
  update_vans env (vans.id van)
    (fun v => vans.mkRow (vans.id v) (vans.name v) (vans.model v) (vans.seats v)
                (vans.price_per_day v) (vans.image_url v) (vans.description v)
                (vans.features v) newStatus (vans.co2_per_km v)
                (vans.created_at v) (vans.updated_at v))
    db.

(** * Properties *)

(** ** Shape of the digest and of a candidate code *)

Definition is_lower_hex (c : ascii) : bool := in_range "0" "9" c || in_range "a" "f" c.

Definition is_upper_hex (c : ascii) : bool := in_range "0" "9" c || in_range "A" "F" c.

(** The alphabet [A-Z0-9]. *)
Definition is_code_char (c : ascii) : bool := in_range "A" "Z" c || in_range "0" "9" c.

Ltac by_ascii_cases c :=
  destruct c as [[] [] [] [] [] [] [] []]; vm_compute; intros; congruence.

Lemma hex_digit_lower n : 0 <= n < 16 -> is_lower_hex (MD5.hex_digit n) = true.
Proof.
  intros H. rewrite <- (Z2Nat.id n) by lia.
  assert (Hk : (Z.to_nat n < 16)%nat) by lia.
  revert Hk. generalize (Z.to_nat n) as k. intros k Hk.
  do 16 (destruct k as [| k]; [reflexivity |]). lia.
Qed.

Definition is_byte (b : Z) : Prop := 0 <= b < 256.

Lemma hex_of_bytes_shape bs :
  Forall is_byte bs ->
  String.length (MD5.hex_of_bytes bs) = (2 * List.length bs)%nat /\
  string_forallb is_lower_hex (MD5.hex_of_bytes bs) = true.
Proof.
  induction 1 as [| b r Hb _ [IHlen IHall]]; [split; reflexivity |].
  cbn [MD5.hex_of_bytes String.length List.length string_forallb].
  split; [lia |].
  rewrite IHall, !hex_digit_lower; [reflexivity | |].
  - apply Z.mod_pos_bound; lia.
  - unfold is_byte in Hb. split; [apply Z.div_pos; lia | apply Z.div_lt_upper_bound; lia].
Qed.

Lemma le_bytes_shape n x :
  List.length (MD5.le_bytes n x) = n /\ Forall is_byte (MD5.le_bytes n x).
Proof.
  unfold MD5.le_bytes. split.
  - now rewrite length_map, length_seq.
  - apply Forall_map, Forall_forall. intros k _. apply Z.mod_pos_bound; lia.
Qed.

Lemma digest_shape msg :
  List.length (MD5.digest msg) = 16%nat /\ Forall is_byte (MD5.digest msg).
Proof.
  unfold MD5.digest. split.
  - rewrite !length_app. now rewrite !(proj1 (le_bytes_shape 4 _)).
  - repeat (apply Forall_app; split); apply le_bytes_shape.
Qed.

Lemma md5_shape s :
  String.length (MD5.md5 s) = 32%nat /\ string_forallb is_lower_hex (MD5.md5 s) = true.
Proof.
  unfold MD5.md5.
  destruct (digest_shape (MD5.bytes_of_string s)) as [Hlen Hall].
  destruct (hex_of_bytes_shape _ Hall) as [H1 H2].
  split; [rewrite H1, Hlen; reflexivity | exact H2].
Qed.

Lemma substring_prefix_shape p n s :
  (n <= String.length s)%nat -> string_forallb p s = true ->
  String.length (substring 0 n s) = n /\ string_forallb p (substring 0 n s) = true.
Proof.
  revert s. induction n as [| n IH]; intros s Hlen Hall.
  - destruct s; split; reflexivity.
  - destruct s as [| c r]; [simpl in Hlen; lia |].
    simpl in Hlen, Hall. apply andb_true_iff in Hall as [Hc Hr].
    destruct (IH r) as [IH1 IH2]; [lia | assumption |].
    cbn [substring String.length string_forallb]. rewrite IH1, Hc, IH2. split; reflexivity.
Qed.

Lemma upper_char_hex c : is_lower_hex c = true -> is_upper_hex (upper_char c) = true.
Proof. by_ascii_cases c. Qed.

Lemma upper_hex_is_code_char c : is_upper_hex c = true -> is_code_char c = true.
Proof. by_ascii_cases c. Qed.

Lemma string_map_length f s : String.length (string_map f s) = String.length s.
Proof. induction s as [| c r IH]; simpl; congruence. Qed.

Lemma string_forallb_map (p q : ascii -> bool) f s :
  (forall c, p c = true -> q (f c) = true) ->
  string_forallb p s = true -> string_forallb q (string_map f s) = true.
Proof.
  intros Hpq. induction s as [| c r IH]; simpl; [reflexivity |].
  intros H. apply andb_true_iff in H as [Hc Hr]. now rewrite (Hpq _ Hc), IH.
Qed.

Lemma string_forallb_impl (p q : ascii -> bool) s :
  (forall c, p c = true -> q c = true) ->
  string_forallb p s = true -> string_forallb q s = true.
Proof.
  intros Hpq. induction s as [| c r IH]; simpl; [reflexivity |].
  intros H. apply andb_true_iff in H as [Hc Hr]. now rewrite (Hpq _ Hc), IH.
Qed.

(** Every candidate is six characters drawn from [0-9A-F]. *)
Lemma candidate_shape r :
  String.length (candidate r) = 6%nat /\ string_forallb is_upper_hex (candidate r) = true.
Proof.
  unfold candidate, upper, substr.
  destruct (md5_shape r) as [Hlen Hall].
  destruct (substring_prefix_shape is_lower_hex 6 (MD5.md5 r)) as [H1 H2];
    [lia | assumption |].
  change (Z.to_nat (1 - 1)) with 0%nat. change (Z.to_nat (1 + 6 - 1)) with 6%nat.
  split.
  - now rewrite string_map_length.
  - eapply string_forallb_map; [apply upper_char_hex | exact H2].
Qed.

(** ** The generator loop *)

Definition collides (rows : list bookings.Row) (r : string) : Prop :=
  code_exists rows (candidate r) = true.

Lemma generate_returns_first_free rs rows c :
  generate_booking_code rs rows = Some c ->
  exists pre r post,
    rs = (pre ++ r :: post)%list /\ Forall (collides rows) pre /\
    c = candidate r /\ code_exists rows c = false.
Proof.
  induction rs as [| r rest IH]; simpl; [discriminate |].
  destruct (code_exists rows (candidate r)) eqn:E.
  - intros H. destruct (IH H) as (pre & r' & post & -> & Hpre & -> & Hfree).
    exists (r :: pre), r', post. repeat split; auto.
  - intros [= <-]. exists [], r, rest. repeat split; auto.
Qed.

Lemma generate_exits rs rows :
  Exists (fun r => code_exists rows (candidate r) = false) rs ->
  exists c, generate_booking_code rs rows = Some c.
Proof.
  induction 1 as [r rest Hfree | r rest _ IH]; simpl.
  - rewrite Hfree. eauto.
  - destruct (code_exists rows (candidate r)); eauto.
Qed.

Lemma generate_shape rs rows c :
  generate_booking_code rs rows = Some c ->
  String.length c = 6%nat /\ string_forallb is_upper_hex c = true.
Proof.
  intros H. destruct (generate_returns_first_free _ _ _ H) as (_ & r & _ & _ & _ & -> & _).
  apply candidate_shape.
Qed.

(** ** The store invariant on booking codes *)

Definition well_formed_code (c : string) : Prop :=
  String.length c = 6%nat /\ string_forallb is_code_char c = true.

Definition has_well_formed_code (b : bookings.Row) : Prop :=
  exists c, bookings.booking_code b = Some c /\ well_formed_code c.

(** Every booking holds a well-formed code and no code is held twice. *)
Definition codes_ok (rows : list bookings.Row) : Prop :=
  Forall has_well_formed_code rows /\ NoDup (map bookings.booking_code rows).

Lemma code_exists_false_iff rows c :
  code_exists rows c = false <-> ~ In (Some c) (map bookings.booking_code rows).
Proof.
  unfold code_exists. induction rows as [| b r IH]; simpl.
  - tauto.
  - rewrite orb_false_iff, IH. unfold option_string_eqb.
    destruct (bookings.booking_code b) as [x |].
    + destruct (String.eqb_spec x c) as [-> | Hne].
      * split; [intros [H _]; discriminate | intros H; exfalso; apply H; now left].
      * split; [intros [_ H] [E | E]; [congruence | tauto] | intros H; split; tauto].
    + split; [intros [_ H] [E | E]; [discriminate | tauto] | intros H; split; tauto].
Qed.

Lemma codes_ok_snoc rows row c :
  codes_ok rows -> bookings.booking_code row = Some c -> well_formed_code c ->
  code_exists rows c = false -> codes_ok (rows ++ [row])%list.
Proof.
  intros [Hwf Hnd] Hc Hshape Hfree. split.
  - apply Forall_app. split; [assumption |]. constructor; [| constructor]. now exists c.
  - rewrite map_app. simpl. rewrite Hc.
    apply NoDup_app; [assumption | repeat constructor; simpl; tauto |].
    intros x Hx [<- | []]. now apply code_exists_false_iff in Hfree.
Qed.

Lemma codes_ok_map f rows :
  (forall b, bookings.booking_code (f b) = bookings.booking_code b) ->
  codes_ok rows -> codes_ok (map f rows).
Proof.
  intros Hf [Hwf Hnd]. split.
  - apply Forall_map. eapply Forall_impl; [| exact Hwf].
    intros b (c & Hc & Hs). exists c. now rewrite Hf.
  - rewrite map_map. erewrite map_ext; [exact Hnd | exact Hf].
Qed.

Lemma insert_booking_inv env p db db' row :
  insert_booking env p db = inr (db', row) ->
  exists c,
    generate_booking_code (random_text env) (tbl_bookings db) = Some c /\
    bookings.booking_code row = Some c /\
    numeric_10_2_fits (bookings.i_total_price p) = true /\
    existsb (fun b => String.eqb (bookings.id b) (gen_random_uuid env)) (tbl_bookings db) = false /\
    existsb (fun v => String.eqb (vans.id v) (bookings.i_van_id p)) (tbl_vans db) = true /\
    row = bookings.mkRow (gen_random_uuid env)
            (bookings.i_customer_name p) (bookings.i_customer_phone p)
            (bookings.i_van_id p) (bookings.i_start_date p) (bookings.i_end_date p)
            (bookings.i_pickup_location p) (bookings.i_pickup_time p)
            (bookings.i_total_price p) (bookings.i_status p) (bookings.i_notes p)
            (Some c) (pg_now env) (pg_now env) /\
    db' = mkDb (tbl_profiles db) (tbl_vans db) (tbl_bookings db ++ [row]).
Proof.
  unfold insert_booking.
  destruct (numeric_10_2_fits _) eqn:Efit; [| discriminate].
  destruct (generate_booking_code _ _) as [c |] eqn:Egen; [| discriminate].
  cbn [negb bookings_insert_policy].
  destruct (existsb _ (tbl_bookings db)) eqn:Epk; [discriminate |].
  destruct (code_exists _ c) eqn:Euq; [discriminate |].
  destruct (existsb _ (tbl_vans db)) eqn:Efk; [| discriminate].
  cbn [negb]. intros [= <- <-]. exists c. repeat split; auto.
Qed.

Lemma handleSubmit_inv env st db db' r :
  handleSubmit env st db = (db', r) ->
  (db' = db /\ forall row, r <> Booked row) \/
  (exists van sd ed row,
      selectedVan st = Some van /\ startDate st = Some sd /\ endDate st = Some ed /\
      phoneRegex_test (strip_separators (phone (form st))) = true /\
      1 <= days st /\ r = Booked row /\
      insert_booking env
        (bookings.mkInsert (name (form st)) (strip_separators (phone (form st)))
           (vans.id van) sd ed (pickup (form st)) (or_null (pickupTime (form st)))
           (totalPrice st) (or_null (notes (form st))) pending) db = inr (db', row)).
Proof.
  unfold handleSubmit.
  destruct (selectedVan st) as [van |] eqn:Ev;
    [| intros [= <- <-]; left; split; [reflexivity | discriminate]].
  destruct (startDate st) as [sd |] eqn:Es;
    [| intros [= <- <-]; left; split; [reflexivity | discriminate]].
  destruct (endDate st) as [ed |] eqn:Ee;
    [| intros [= <- <-]; left; split; [reflexivity | discriminate]].
  destruct (phoneRegex_test _) eqn:Ephone; cbn [negb];
    [| intros [= <- <-]; left; split; [reflexivity | discriminate]].
  destruct (days st <? 1) eqn:Edays;
    [intros [= <- <-]; left; split; [reflexivity | discriminate] |].
  apply Z.ltb_ge in Edays.
  destruct (insert_booking _ _ db) as [e | [db1 row]] eqn:Eins.
  - intros [= <- <-]; left; split; [reflexivity | discriminate].
  - intros [= <- <-]. right. exists van, sd, ed, row. repeat split; auto.
Qed.

(** ** Reachable stores *)

Inductive step (db : Db) : Db -> Prop :=
| step_submit env st : step db (fst (handleSubmit env st db))
| step_status env id s : step db (fst (updateStatus env id s db))
| step_save env editingVan p db' : handleSave env editingVan p db = inr db' -> step db db'
| step_toggle env van : step db (toggleStatus env van db).

(** The stores that arise once the code column has been added, to an empty
    or to an already populated bookings table. *)
Inductive reachable : Db -> Prop :=
| reach_migrated env db0 db :
    backfill_booking_codes env (add_booking_code_column db0) = inr db -> reachable db
| reach_step db db' : reachable db -> step db db' -> reachable db'.

Lemma distinct_codes_NoDup rows :
  Forall has_well_formed_code rows -> distinct_codes rows = true ->
  NoDup (map bookings.booking_code rows).
Proof.
  induction 1 as [| b r (c & Hc & _) _ IH]; simpl; [constructor |].
  rewrite Hc. intros H. apply andb_true_iff in H as [Hb Hr].
  constructor; [| now apply IH].
  apply negb_true_iff in Hb. now apply code_exists_false_iff.
Qed.

Lemma candidate_well_formed r : well_formed_code (candidate r).
Proof.
  destruct (candidate_shape r) as [Hlen Hhex]. split; [exact Hlen |].
  eapply string_forallb_impl; [apply upper_hex_is_code_char | exact Hhex].
Qed.

(** The rows of a table that the migration has gone through. *)
Definition backfilled (t : Z) (b : bookings.Row) : bookings.Row :=
  bookings.update_updated_at_column t
    (bookings.set_booking_code (Some (candidate (bookings.id b))) b).

Lemma backfill_after_add_column env db :
  backfill_booking_codes env (add_booking_code_column db)
  = let rows := map (backfilled (pg_now env)) (tbl_bookings db) in
    if distinct_codes rows then inr (mkDb (tbl_profiles db) (tbl_vans db) rows)
    else inl (unique_violation "bookings_booking_code_key").
Proof.
  unfold backfill_booking_codes, add_booking_code_column.
  cbn [tbl_bookings tbl_vans tbl_profiles]. rewrite map_map. reflexivity.
Qed.

Lemma backfilled_well_formed t rows :
  Forall has_well_formed_code (map (backfilled t) rows).
Proof.
  apply Forall_map, Forall_forall. intros b _. eexists. split; [reflexivity |].
  apply candidate_well_formed.
Qed.

Lemma migration_codes_ok env db0 db :
  backfill_booking_codes env (add_booking_code_column db0) = inr db ->
  codes_ok (tbl_bookings db).
Proof.
  rewrite backfill_after_add_column. cbv zeta.
  destruct (distinct_codes _) eqn:E; [| discriminate]. intros [= <-]. cbn [tbl_bookings].
  split; [apply backfilled_well_formed |].
  apply distinct_codes_NoDup; [apply backfilled_well_formed | exact E].
Qed.

Lemma handleSave_bookings env editingVan p db db' :
  handleSave env editingVan p db = inr db' -> tbl_bookings db' = tbl_bookings db.
Proof.
  unfold handleSave. destruct (negb (numeric_10_2_fits _)); [discriminate |].
  destruct editingVan as [van |]; [now intros [= <-] |].
  destruct (negb (vans_insert_policy _ _ _)); [discriminate |].
  destruct (existsb _ _); [discriminate |]. now intros [= <-].
Qed.

Lemma step_codes_ok db db' :
  step db db' -> codes_ok (tbl_bookings db) -> codes_ok (tbl_bookings db').
Proof.
  intros Hstep Hok. destruct Hstep as [env st | env id s | env ev p db' Hsave | env van].
  - destruct (handleSubmit env st db) as [db1 r] eqn:E. cbn [fst].
    destruct (handleSubmit_inv _ _ _ _ _ E)
      as [[-> _] | (van & sd & ed & row & _ & _ & _ & _ & _ & _ & Hins)]; [assumption |].
    destruct (insert_booking_inv _ _ _ _ _ Hins) as (c & Hgen & Hc & _ & _ & _ & _ & ->).
    cbn [tbl_bookings].
    destruct (generate_returns_first_free _ _ _ Hgen) as (_ & draw & _ & _ & _ & Hdraw & Hfree).
    eapply codes_ok_snoc; eauto. rewrite Hdraw. apply candidate_well_formed.
  - cbn [updateStatus fst update_booking_status tbl_bookings].
    apply codes_ok_map; [| assumption].
    intros b. now destruct (_ && _).
  - now rewrite (handleSave_bookings _ _ _ _ _ Hsave).
  - exact Hok.
Qed.

Lemma reachable_codes_ok db : reachable db -> codes_ok (tbl_bookings db).
Proof.
  induction 1 as [env db0 db Hmig | db db' _ IH Hstep].
  - eapply migration_codes_ok; eauto.
  - eapply step_codes_ok; eauto.
Qed.

(** ** UTF-8 *)

Lemma code_of_bounds a : 0 <= code_of a < 256.
Proof.
  unfold code_of. pose proof (N_ascii_bounded a) as H. lia.
Qed.

Lemma code_of_chr n : 0 <= n < 256 -> code_of (UTF8.chr n) = n.
Proof.
  intros H. unfold code_of, UTF8.chr. rewrite N_ascii_embedding by lia. lia.
Qed.

Lemma scalar_bounds c : UTF8.scalar c = true -> 0 <= c <= 0x10FFFF /\ ~ (0xD800 <= c < 0xE000).
Proof. unfold UTF8.scalar. lia. Qed.

Ltac bytes_in_range :=
  repeat match goal with
         | |- context [code_of (UTF8.chr ?n)] =>
             rewrite (code_of_chr n) by (Z.to_euclidean_division_equations; lia)
         end.

Lemma head_encode1 c s :
  UTF8.scalar c = true ->
  exists more,
    UTF8.head (UTF8.encode1 c ++ s) = Some (c, more) /\
    forall a r, (UTF8.encode1 c ++ s)%string = String a r ->
                UTF8.decode_from more r = UTF8.decode_from 0 s.
Proof.
  intros Hc. apply scalar_bounds in Hc as [Hc Hs]. unfold UTF8.encode1.
  destruct (Z.ltb_spec c 0x80) as [H1 | H1];
    [| destruct (Z.ltb_spec c 0x800) as [H2 | H2];
       [| destruct (Z.ltb_spec c 0x10000) as [H3 | H3]]].
  - exists 0%nat. split.
    + unfold UTF8.head. cbn [append UTF8.byte_at String.get]. bytes_in_range.
      replace ((0 <=? c) && (c <? 128)) with true by lia. reflexivity.
    + cbn [append]. now intros a r [= _ <-].
  - exists 1%nat. split.
    + unfold UTF8.head, UTF8.continuation. cbn [append UTF8.byte_at String.get]. bytes_in_range.
      replace ((0 <=? 192 + c / 64) && (192 + c / 64 <? 128)) with false
        by (Z.to_euclidean_division_equations; lia).
      replace ((194 <=? 192 + c / 64) && (192 + c / 64 <=? 223)
               && ((128 <=? 128 + c mod 64) && (128 + c mod 64 <=? 191))) with true
        by (Z.to_euclidean_division_equations; lia).
      do 2 f_equal. Z.to_euclidean_division_equations; lia.
    + cbn [append]. now intros a r [= _ <-].
  - exists 2%nat. split.
    + unfold UTF8.head, UTF8.continuation, UTF8.scalar.
      cbn [append UTF8.byte_at String.get]. bytes_in_range.
      replace ((0 <=? 224 + c / 4096) && (224 + c / 4096 <? 128)) with false
        by (Z.to_euclidean_division_equations; lia).
      replace ((194 <=? 224 + c / 4096) && (224 + c / 4096 <=? 223)
               && ((128 <=? 128 + (c / 64) mod 64) && (128 + (c / 64) mod 64 <=? 191)))
        with false by (Z.to_euclidean_division_equations; lia).
      replace ((224 <=? 224 + c / 4096) && (224 + c / 4096 <=? 239)
               && ((128 <=? 128 + (c / 64) mod 64) && (128 + (c / 64) mod 64 <=? 191))
               && ((128 <=? 128 + c mod 64) && (128 + c mod 64 <=? 191))) with true
        by (Z.to_euclidean_division_equations; lia).
      replace ((224 + c / 4096 - 224) * 4096 + (128 + (c / 64) mod 64 - 128) * 64
               + (128 + c mod 64 - 128)) with c
        by (Z.to_euclidean_division_equations; lia).
      replace ((2048 <=? c) && ((0 <=? c) && (c <? 55296) || (57344 <=? c) && (c <=? 1114111)))
        with true by lia.
      reflexivity.
    + cbn [append]. now intros a r [= _ <-].
  - exists 3%nat. split.
    + unfold UTF8.head, UTF8.continuation.
      cbn [append UTF8.byte_at String.get]. bytes_in_range.
      replace ((0 <=? 240 + c / 262144) && (240 + c / 262144 <? 128)) with false
        by (Z.to_euclidean_division_equations; lia).
      replace ((194 <=? 240 + c / 262144) && (240 + c / 262144 <=? 223)
               && ((128 <=? 128 + (c / 4096) mod 64) && (128 + (c / 4096) mod 64 <=? 191)))
        with false by (Z.to_euclidean_division_equations; lia).
      replace ((224 <=? 240 + c / 262144) && (240 + c / 262144 <=? 239)
               && ((128 <=? 128 + (c / 4096) mod 64) && (128 + (c / 4096) mod 64 <=? 191))
               && ((128 <=? 128 + (c / 64) mod 64) && (128 + (c / 64) mod 64 <=? 191)))
        with false by (Z.to_euclidean_division_equations; lia).
      replace ((240 <=? 240 + c / 262144) && (240 + c / 262144 <=? 244)
               && ((128 <=? 128 + (c / 4096) mod 64) && (128 + (c / 4096) mod 64 <=? 191))
               && ((128 <=? 128 + (c / 64) mod 64) && (128 + (c / 64) mod 64 <=? 191))
               && ((128 <=? 128 + c mod 64) && (128 + c mod 64 <=? 191))) with true
        by (Z.to_euclidean_division_equations; lia).
      replace ((240 + c / 262144 - 240) * 262144 + (128 + (c / 4096) mod 64 - 128) * 4096
               + (128 + (c / 64) mod 64 - 128) * 64 + (128 + c mod 64 - 128)) with c
        by (Z.to_euclidean_division_equations; lia).
      replace ((65536 <=? c) && (c <=? 1114111)) with true by lia.
      reflexivity.
    + cbn [append]. now intros a r [= _ <-].
Qed.

Lemma encode1_not_empty c : UTF8.encode1 c <> EmptyString.
Proof.
  unfold UTF8.encode1.
  destruct (c <? 128); [| destruct (c <? 2048); [| destruct (c <? 65536)]]; discriminate.
Qed.

Lemma decode_encode1 c s :
  UTF8.scalar c = true -> UTF8.decode (UTF8.encode1 c ++ s) = c :: UTF8.decode s.
Proof.
  intros Hc. destruct (head_encode1 c s Hc) as (more & Hhead & Hrest).
  unfold UTF8.decode.
  destruct (UTF8.encode1 c ++ s)%string as [| a r] eqn:E.
  - exfalso. destruct (UTF8.encode1 c) eqn:E1; [now apply (encode1_not_empty c) | discriminate E].
  - cbn [UTF8.decode_from]. rewrite Hhead. f_equal. now apply (Hrest a).
Qed.

Definition scalars (l : list Z) : Prop := Forall (fun c => UTF8.scalar c = true) l.

(** Reading back what has been written. *)
Lemma decode_encode l : scalars l -> UTF8.decode (UTF8.encode l) = l.
Proof.
  induction 1 as [| c r Hc _ IH]; [reflexivity |].
  cbn [UTF8.encode]. rewrite decode_encode1 by assumption. now rewrite IH.
Qed.

Lemma continuation_bounds b : UTF8.continuation b = true -> 128 <= b <= 191.
Proof. unfold UTF8.continuation. lia. Qed.

Lemma head_scalar s c more : UTF8.head s = Some (c, more) -> UTF8.scalar c = true.
Proof.
  unfold UTF8.head.
  destruct ((0 <=? _) && (_ <? 128)) eqn:E0.
  { intros [= <- _]. unfold UTF8.scalar. lia. }
  destruct ((194 <=? _) && _ && UTF8.continuation _) eqn:E1.
  { intros [= <- _]. apply andb_true_iff in E1 as [E1 C1].
    apply continuation_bounds in C1. unfold UTF8.scalar. lia. }
  destruct ((224 <=? _) && _ && _ && _) eqn:E2.
  { destruct ((2048 <=? _) && UTF8.scalar _) eqn:E; [| discriminate].
    intros [= <- _]. now apply andb_true_iff in E as [_ E]. }
  destruct ((240 <=? _) && _ && _ && _ && _) eqn:E3; [| discriminate].
  destruct ((65536 <=? _) && _) eqn:E; [| discriminate].
  intros [= <- _]. unfold UTF8.scalar. lia.
Qed.

Lemma decode_from_scalars s : forall skip, scalars (UTF8.decode_from skip s).
Proof.
  induction s as [| a r IH]; intros skip; [constructor |].
  cbn [UTF8.decode_from]. destruct skip as [| k]; [| apply IH].
  destruct (UTF8.head (String a r)) as [[c more] |] eqn:E.
  - constructor; [now apply head_scalar in E | apply IH].
  - constructor; [reflexivity | apply IH].
Qed.

Lemma decode_scalars s : scalars (UTF8.decode s).
Proof. apply decode_from_scalars. Qed.

Lemma encode_app l1 l2 : UTF8.encode (l1 ++ l2) = (UTF8.encode l1 ++ UTF8.encode l2)%string.
Proof.
  induction l1 as [| c r IH]; [reflexivity |].
  cbn [UTF8.encode app]. rewrite IH.
  generalize (UTF8.encode1 c) as x. induction x as [| a x IHx]; [reflexivity |].
  cbn [append]. now rewrite IHx.
Qed.

Lemma encode_empty l : UTF8.encode l = EmptyString <-> l = [].
Proof.
  split; [| now intros ->]. destruct l as [| c r]; [reflexivity |].
  cbn [UTF8.encode]. intros H. exfalso. apply (encode1_not_empty c).
  destruct (UTF8.encode1 c); [reflexivity | discriminate H].
Qed.

Lemma decode_empty s : UTF8.decode s = [] <-> s = EmptyString.
Proof.
  split; [| now intros ->]. destruct s as [| a r]; [reflexivity |].
  unfold UTF8.decode. cbn [UTF8.decode_from].
  destruct (UTF8.head _) as [[c more] |]; discriminate.
Qed.

(** Plain ASCII text is its own encoding, one byte for each character. *)
Definition is_ascii (c : ascii) : bool := code_of c <? 128.

Fixpoint codes (s : string) : list Z :=
  match s with
  | EmptyString => []
  | String a r => code_of a :: codes r
  end.

Lemma decode_ascii s : string_forallb is_ascii s = true -> UTF8.decode s = codes s.
Proof.
  unfold UTF8.decode. induction s as [| a r IH]; [reflexivity |].
  cbn [string_forallb]. intros H. apply andb_true_iff in H as [Ha Hr].
  cbn [UTF8.decode_from codes]. unfold UTF8.head. cbn [UTF8.byte_at String.get].
  unfold is_ascii in Ha. pose proof (code_of_bounds a).
  replace ((0 <=? code_of a) && (code_of a <? 128)) with true by lia.
  now rewrite IH.
Qed.

Lemma chr_code_of a : UTF8.chr (code_of a) = a.
Proof. unfold UTF8.chr, code_of. rewrite N2Z.id. apply ascii_N_embedding. Qed.

Lemma encode_ascii s : string_forallb is_ascii s = true -> UTF8.encode (codes s) = s.
Proof.
  induction s as [| a r IH]; [reflexivity |].
  cbn [string_forallb]. intros H. apply andb_true_iff in H as [Ha Hr].
  cbn [codes UTF8.encode]. unfold UTF8.encode1. unfold is_ascii in Ha. rewrite Ha.
  cbn [append]. now rewrite chr_code_of, IH.
Qed.

(** ** Upper-casing, character by character *)

Definition run_pairs (r : Z * Z * Z * Z) : list (Z * list Z) :=
  let '(first, last, step, offset) := r in
  map (fun k => let c := first + Z.of_nat k * step in (c, [c + offset]))
      (seq 0 (Z.to_nat ((last - first) / step) + 1)).

(** Every character that upper-casing changes, with its upper case. *)
Definition uppercase_pairs : list (Z * list Z) :=
  (flat_map run_pairs Unicode.simple_uppercase ++ Unicode.special_uppercase)%list.

Definition is_code_point_of_code (c : Z) : bool :=
  ((0x30 <=? c) && (c <=? 0x39)) || ((0x41 <=? c) && (c <=? 0x5A)).

Definition fixed_by_toUppercase (c : Z) : bool :=
  match Unicode.toUppercase c with
  | [x] => x =? c
  | _ => false
  end.

Definition sound_pair (p : Z * list Z) : bool :=
  let '(c, l) := p in
  UTF8.scalar c && negb (is_whitespace c) && negb (is_code_point_of_code c)
  && match l with [] => false | _ :: _ => true end
  && forallb (fun x => UTF8.scalar x && negb (is_whitespace x) && fixed_by_toUppercase x) l.

Lemma uppercase_pairs_sound : forallb sound_pair uppercase_pairs = true.
Proof. vm_compute. reflexivity. Qed.

Lemma simple_uppercase_steps :
  forallb (fun '(_, _, step, _) => 0 <? step) Unicode.simple_uppercase = true.
Proof. vm_compute. reflexivity. Qed.

Lemma in_run_pairs c first last step offset :
  0 < step -> Unicode.in_run c (first, last, step, offset) = true ->
  In (c, [c + offset]) (run_pairs (first, last, step, offset)).
Proof.
  intros Hstep Hin. unfold Unicode.in_run in Hin.
  apply andb_true_iff in Hin as [Hin Hmod]. apply andb_true_iff in Hin as [Hlo Hhi].
  apply Z.leb_le in Hlo, Hhi. apply Z.eqb_eq in Hmod.
  unfold run_pairs. apply in_map_iff. exists (Z.to_nat ((c - first) / step)).
  assert (Hq : 0 <= (c - first) / step) by (apply Z.div_pos; lia).
  assert (Hc : first + (c - first) / step * step = c).
  { pose proof (Z.div_mod (c - first) step ltac:(lia)) as E. rewrite Hmod in E. lia. }
  split.
  - cbv zeta. rewrite Z2Nat.id by exact Hq. now rewrite Hc.
  - apply in_seq. split; [lia |].
    assert ((c - first) / step <= (last - first) / step) by (apply Z.div_le_mono; lia).
    lia.
Qed.

Lemma toUppercase_cases c :
  Unicode.toUppercase c = [c] \/ In (c, Unicode.toUppercase c) uppercase_pairs.
Proof.
  unfold Unicode.toUppercase, uppercase_pairs.
  destruct (find (fun e => fst e =? c) Unicode.special_uppercase) as [[k l] |] eqn:E.
  - apply find_some in E as [Hin Hk]. cbn [fst] in Hk. apply Z.eqb_eq in Hk. subst k.
    right. apply in_or_app. now right.
  - destruct (find (Unicode.in_run c) Unicode.simple_uppercase) as [[[[first last] step] offset] |] eqn:E';
      [| now left].
    apply find_some in E' as [Hin Hrun]. right. apply in_or_app. left.
    apply in_flat_map. exists (first, last, step, offset). split; [exact Hin |].
    apply in_run_pairs; [| exact Hrun].
    pose proof simple_uppercase_steps as Hs. rewrite forallb_forall in Hs.
    specialize (Hs _ Hin). cbv beta iota in Hs. lia.
Qed.

Lemma toUppercase_pair c :
  In (c, Unicode.toUppercase c) uppercase_pairs -> sound_pair (c, Unicode.toUppercase c) = true.
Proof.
  intros H. pose proof uppercase_pairs_sound as Hs. rewrite forallb_forall in Hs. now apply Hs.
Qed.

Ltac toUppercase_by_cases c H :=
  destruct (toUppercase_cases c) as [H | H];
  [| apply toUppercase_pair in H; unfold sound_pair in H;
     repeat (apply andb_true_iff in H; destruct H as [H ?])].

Lemma toUppercase_whitespace c : is_whitespace c = true -> Unicode.toUppercase c = [c].
Proof.
  intros Hw. toUppercase_by_cases c H; [exact H |].
  rewrite Hw in *. discriminate.
Qed.

Lemma toUppercase_code c : is_code_point_of_code c = true -> Unicode.toUppercase c = [c].
Proof.
  intros Hw. toUppercase_by_cases c H; [exact H |].
  rewrite Hw in *. discriminate.
Qed.

Lemma toUppercase_not_scalar c : UTF8.scalar c = false -> Unicode.toUppercase c = [c].
Proof.
  intros Hw. toUppercase_by_cases c H; [exact H |].
  rewrite Hw in *. discriminate.
Qed.

Lemma toUppercase_not_empty c : Unicode.toUppercase c <> [].
Proof.
  toUppercase_by_cases c H; [now rewrite H |].
  destruct (Unicode.toUppercase c); [discriminate | discriminate].
Qed.

Lemma toUppercase_image c x :
  In x (Unicode.toUppercase c) ->
  (UTF8.scalar c = true -> UTF8.scalar x = true) /\
  (is_whitespace c = false -> is_whitespace x = false) /\
  Unicode.toUppercase x = [x].
Proof.
  intros Hx. destruct (toUppercase_cases c) as [H | H].
  - rewrite H in Hx. destruct Hx as [<- | []]. repeat split; auto.
  - apply toUppercase_pair in H. unfold sound_pair in H.
    repeat (apply andb_true_iff in H; destruct H as [H ?]).
    match goal with Hall : forallb _ _ = true |- _ => rewrite forallb_forall in Hall;
      specialize (Hall x Hx); repeat (apply andb_true_iff in Hall; destruct Hall as [Hall ?]) end.
    repeat split; intros; auto.
    + now apply negb_true_iff.
    + unfold fixed_by_toUppercase in *.
      destruct (Unicode.toUppercase x) as [| y [| ? ?]]; try discriminate.
      f_equal. now apply Z.eqb_eq.
Qed.

(** ** Trimming and upper-casing *)

Definition all_whitespace (l : list Z) : bool := forallb is_whitespace l.

Definition no_whitespace (l : list Z) : bool :=
  forallb (fun c => negb (is_whitespace c)) l.

Lemma trimStart_app_whitespace pre l :
  all_whitespace pre = true -> CodePoints.trimStart (pre ++ l) = CodePoints.trimStart l.
Proof.
  induction pre as [| c r IH]; simpl; [reflexivity |].
  intros H. apply andb_true_iff in H as [Hc Hr]. now rewrite Hc, IH.
Qed.

Lemma trimStart_all_whitespace l : all_whitespace l = true -> CodePoints.trimStart l = [].
Proof.
  induction l as [| c r IH]; simpl; [reflexivity |].
  intros H. apply andb_true_iff in H as [Hc Hr]. now rewrite Hc, IH.
Qed.

Lemma trimStart_snoc l c :
  CodePoints.trimStart (l ++ [c])
  = match CodePoints.trimStart l with
    | [] => if is_whitespace c then [] else [c]
    | l' => (l' ++ [c])%list
    end.
Proof.
  induction l as [| d r IH]; simpl; [reflexivity |].
  destruct (is_whitespace d); [exact IH | reflexivity].
Qed.

(** [trimEnd] from the front of the text. *)
Lemma trimEnd_cons c r :
  CodePoints.trimEnd (c :: r)
  = match CodePoints.trimEnd r with
    | [] => if is_whitespace c then [] else [c]
    | r' => c :: r'
    end.
Proof.
  unfold CodePoints.trimEnd. cbn [rev]. rewrite trimStart_snoc.
  destruct (CodePoints.trimStart (rev r)) as [| d l'] eqn:E.
  - cbn [rev]. now destruct (is_whitespace c).
  - rewrite rev_app_distr. cbn [rev app].
    destruct (rev l' ++ [d])%list eqn:E'; [now destruct (rev l') | reflexivity].
Qed.

Lemma trimEnd_nil : CodePoints.trimEnd [] = [].
Proof. reflexivity. Qed.

Lemma trimEnd_all_whitespace l : all_whitespace l = true -> CodePoints.trimEnd l = [].
Proof.
  induction l as [| c r IH]; [reflexivity |]. cbn [all_whitespace forallb].
  intros H. apply andb_true_iff in H as [Hc Hr]. now rewrite trimEnd_cons, (IH Hr), Hc.
Qed.

Lemma trimEnd_app_whitespace x post :
  no_whitespace x = true -> all_whitespace post = true -> CodePoints.trimEnd (x ++ post) = x.
Proof.
  intros Hx Hpost. induction x as [| c r IH].
  - now apply trimEnd_all_whitespace.
  - cbn [no_whitespace forallb] in Hx. apply andb_true_iff in Hx as [Hc Hr].
    cbn [app]. rewrite trimEnd_cons, (IH Hr).
    destruct r; [| reflexivity].
    apply negb_true_iff in Hc. now rewrite Hc.
Qed.

Lemma trim_padded pre x post :
  all_whitespace pre = true -> no_whitespace x = true -> all_whitespace post = true ->
  CodePoints.trim (pre ++ x ++ post) = x.
Proof.
  intros Hpre Hx Hpost. unfold CodePoints.trim. rewrite trimStart_app_whitespace by assumption.
  destruct x as [| c r].
  - cbn [app]. rewrite trimStart_all_whitespace by assumption. reflexivity.
  - assert (Hc : is_whitespace c = false).
    { cbn [no_whitespace forallb] in Hx. apply andb_true_iff in Hx as [Hc _].
      now apply negb_true_iff. }
    cbn [app CodePoints.trimStart]. rewrite Hc.
    now apply (trimEnd_app_whitespace (c :: r) post).
Qed.

Lemma trimEnd_idempotent l : CodePoints.trimEnd (CodePoints.trimEnd l) = CodePoints.trimEnd l.
Proof.
  induction l as [| c r IH]; [reflexivity |]. rewrite (trimEnd_cons c r).
  destruct (CodePoints.trimEnd r) as [| d r'] eqn:E.
  - destruct (is_whitespace c) eqn:Ec; [reflexivity |].
    now rewrite trimEnd_cons, trimEnd_nil, Ec.
  - now rewrite trimEnd_cons, IH.
Qed.

Lemma trimStart_head l :
  CodePoints.trimStart l = [] \/
  exists c r, CodePoints.trimStart l = c :: r /\ is_whitespace c = false.
Proof.
  induction l as [| c r IH]; simpl; [now left |].
  destruct (is_whitespace c) eqn:E; [exact IH | right; eauto].
Qed.

Lemma trimEnd_head c r :
  is_whitespace c = false -> exists r', CodePoints.trimEnd (c :: r) = c :: r'.
Proof.
  intros Hc. rewrite trimEnd_cons. destruct (CodePoints.trimEnd r); [rewrite Hc |]; eauto.
Qed.

Lemma trim_points_idempotent l : CodePoints.trim (CodePoints.trim l) = CodePoints.trim l.
Proof.
  unfold CodePoints.trim. destruct (trimStart_head l) as [E | (c & r & E & Hc)]; rewrite E;
    [reflexivity |].
  destruct (trimEnd_head c r Hc) as [r' E']. rewrite E'. cbn [CodePoints.trimStart]. rewrite Hc.
  rewrite <- E'. apply trimEnd_idempotent.
Qed.

Lemma flat_map_fixed {A} (f : A -> list A) l :
  (forall x, In x l -> f x = [x]) -> flat_map f l = l.
Proof.
  induction l as [| a r IH]; intros H; [reflexivity |].
  cbn [flat_map]. rewrite (H a) by now left. cbn [app]. f_equal.
  apply IH. intros x Hx. apply H. now right.
Qed.

Lemma toUpperCase_points_idempotent l :
  CodePoints.toUpperCase (CodePoints.toUpperCase l) = CodePoints.toUpperCase l.
Proof.
  unfold CodePoints.toUpperCase. induction l as [| c r IH]; [reflexivity |].
  cbn [flat_map]. rewrite flat_map_app, IH. f_equal.
  apply flat_map_fixed. intros x Hx. now apply (toUppercase_image c x).
Qed.

(** The upper case of a character that is no whitespace begins with a
    character that is none. *)
Lemma toUppercase_head c :
  is_whitespace c = false ->
  exists x m, Unicode.toUppercase c = x :: m /\ no_whitespace (x :: m) = true.
Proof.
  intros Hc. destruct (Unicode.toUppercase c) as [| x m] eqn:E;
    [now apply toUppercase_not_empty in E |].
  exists x, m. split; [reflexivity |]. apply forallb_forall. intros y Hy.
  apply negb_true_iff. apply (toUppercase_image c y); [now rewrite E | exact Hc].
Qed.

Lemma trimStart_toUpperCase l :
  CodePoints.trimStart (CodePoints.toUpperCase l) = CodePoints.toUpperCase (CodePoints.trimStart l).
Proof.
  unfold CodePoints.toUpperCase. induction l as [| c r IH]; [reflexivity |].
  cbn [flat_map CodePoints.trimStart]. destruct (is_whitespace c) eqn:Ec.
  - rewrite (toUppercase_whitespace c Ec). cbn [app CodePoints.trimStart]. now rewrite Ec.
  - destruct (toUppercase_head c Ec) as (x & m & E & Hx). cbn [flat_map]. rewrite E.
    cbn [no_whitespace forallb] in Hx. apply andb_true_iff in Hx as [Hx _].
    apply negb_true_iff in Hx. cbn [app CodePoints.trimStart]. now rewrite Hx.
Qed.

Lemma trimEnd_app_no_whitespace x l :
  x <> [] -> no_whitespace x = true ->
  CodePoints.trimEnd (x ++ l) = (x ++ CodePoints.trimEnd l)%list.
Proof.
  induction x as [| c r IH]; [congruence |]. intros _ Hx.
  cbn [no_whitespace forallb] in Hx. apply andb_true_iff in Hx as [Hc Hr].
  apply negb_true_iff in Hc. cbn [app]. rewrite trimEnd_cons.
  destruct r as [| d r'].
  - cbn [app]. destruct (CodePoints.trimEnd l); [now rewrite Hc | reflexivity].
  - rewrite IH by (discriminate || exact Hr). reflexivity.
Qed.

Lemma toUpperCase_points_empty l : CodePoints.toUpperCase l = [] <-> l = [].
Proof.
  split; [| now intros ->]. destruct l as [| c r]; [reflexivity |].
  unfold CodePoints.toUpperCase. cbn [flat_map]. intros H.
  apply app_eq_nil in H as [H _]. now apply toUppercase_not_empty in H.
Qed.

Lemma trimEnd_toUpperCase l :
  CodePoints.trimEnd (CodePoints.toUpperCase l) = CodePoints.toUpperCase (CodePoints.trimEnd l).
Proof.
  induction l as [| c r IH]; [reflexivity |].
  rewrite (trimEnd_cons c r).
  change (CodePoints.toUpperCase (c :: r))
    with (Unicode.toUppercase c ++ CodePoints.toUpperCase r)%list.
  destruct (is_whitespace c) eqn:Ec.
  - rewrite (toUppercase_whitespace c Ec). cbn [app]. rewrite trimEnd_cons, IH, Ec.
    destruct (CodePoints.trimEnd r) as [| d r'] eqn:E; [reflexivity |].
    destruct (CodePoints.toUpperCase (d :: r')) eqn:E';
      [apply (proj1 (toUpperCase_points_empty _)) in E'; discriminate E' |].
    change (CodePoints.toUpperCase (c :: d :: r'))
      with (Unicode.toUppercase c ++ CodePoints.toUpperCase (d :: r'))%list.
    now rewrite (toUppercase_whitespace c Ec), E'.
  - destruct (toUppercase_head c Ec) as (x & m & E & Hx).
    rewrite E, trimEnd_app_no_whitespace, IH by (discriminate || exact Hx). rewrite <- E.
    destruct (CodePoints.trimEnd r) as [| d r'];
      [unfold CodePoints.toUpperCase; cbn [flat_map]; now rewrite app_nil_r | reflexivity].
Qed.

Lemma trim_toUpperCase_points l :
  CodePoints.trim (CodePoints.toUpperCase l) = CodePoints.toUpperCase (CodePoints.trim l).
Proof. unfold CodePoints.trim. now rewrite trimStart_toUpperCase, trimEnd_toUpperCase. Qed.

Lemma strip_separators_points_idempotent l :
  CodePoints.strip_separators (CodePoints.strip_separators l) = CodePoints.strip_separators l.
Proof.
  unfold CodePoints.strip_separators. induction l as [| c r IH]; simpl; [reflexivity |].
  destruct (CodePoints.is_separator c) eqn:E; simpl; [exact IH |]. now rewrite E, IH.
Qed.

(** *** The functions keep to well-formed text *)

Lemma trimStart_suffix {P : Z -> Prop} l : Forall P l -> Forall P (CodePoints.trimStart l).
Proof.
  induction 1 as [| c r Hc Hr IH]; simpl; [constructor |].
  destruct (is_whitespace c); [exact IH | now constructor].
Qed.

Lemma trim_scalars l : scalars l -> scalars (CodePoints.trim l).
Proof.
  intros H. unfold scalars, CodePoints.trim, CodePoints.trimEnd.
  apply Forall_rev, trimStart_suffix, Forall_rev, trimStart_suffix, H.
Qed.

Lemma toUpperCase_scalars l : scalars l -> scalars (CodePoints.toUpperCase l).
Proof.
  intros H. unfold scalars, CodePoints.toUpperCase. apply Forall_flat_map.
  eapply Forall_impl; [| exact H]. cbv beta. intros c Hc.
  apply Forall_forall. intros x Hx. now apply (toUppercase_image c x).
Qed.

Lemma strip_separators_scalars l : scalars l -> scalars (CodePoints.strip_separators l).
Proof.
  intros H. unfold scalars, CodePoints.strip_separators in *. rewrite Forall_forall in *.
  intros x Hx. apply filter_In in Hx as [Hx _]. now apply H.
Qed.

Lemma on_code_points_twice f g s :
  (forall l, scalars l -> scalars (g l)) ->
  on_code_points f (on_code_points g s) = on_code_points (fun l => f (g l)) s.
Proof.
  intros Hg. unfold on_code_points. now rewrite decode_encode by apply Hg, decode_scalars.
Qed.

Lemma trim_idempotent s : trim (trim s) = trim s.
Proof.
  unfold trim. rewrite on_code_points_twice by apply trim_scalars.
  unfold on_code_points. now rewrite trim_points_idempotent.
Qed.

Lemma toUpperCase_idempotent s : toUpperCase (toUpperCase s) = toUpperCase s.
Proof.
  unfold toUpperCase. rewrite on_code_points_twice by apply toUpperCase_scalars.
  unfold on_code_points. now rewrite toUpperCase_points_idempotent.
Qed.

Lemma trim_toUpperCase s : trim (toUpperCase s) = toUpperCase (trim s).
Proof.
  unfold trim, toUpperCase.
  rewrite !on_code_points_twice by (apply trim_scalars || apply toUpperCase_scalars).
  unfold on_code_points. now rewrite trim_toUpperCase_points.
Qed.

Lemma toUpperCase_empty s : toUpperCase s = EmptyString <-> s = EmptyString.
Proof.
  unfold toUpperCase, on_code_points.
  now rewrite encode_empty, toUpperCase_points_empty, decode_empty.
Qed.

Lemma strip_separators_idempotent s :
  strip_separators (strip_separators s) = strip_separators s.
Proof.
  unfold strip_separators. rewrite on_code_points_twice by apply strip_separators_scalars.
  unfold on_code_points. now rewrite strip_separators_points_idempotent.
Qed.

(** *** The functions at work *)

(** The no-break space U+00A0 is the two bytes C2 A0. *)
Example no_break_space_in_utf8 :
  UTF8.encode [0xA0] = String (UTF8.chr 0xC2) (String (UTF8.chr 0xA0) EmptyString) /\
  UTF8.decode (String (UTF8.chr 0xC2) (String (UTF8.chr 0xA0) EmptyString)) = [0xA0].
Proof. vm_compute. split; reflexivity. Qed.

(** [trim] removes a no-break space, a space and a byte order mark in front
    and an ideographic space and a line separator behind. *)
Example trim_removes_unicode_whitespace :
  trim (UTF8.encode [0xA0; 0x20; 0xFEFF] ++ "d310cb" ++ UTF8.encode [0x3000; 0x2028])
  = "d310cb".
Proof. vm_compute. reflexivity. Qed.

(** The ligature U+FB00 becomes FF, e-acute becomes E-acute, the sharp s
    becomes SS and the Deseret letter U+10428 becomes U+10400. *)
Example toUpperCase_beyond_ascii :
  toUpperCase (UTF8.encode [0xFB00; 0x31; 0xE9; 0xDF; 0x10428])
  = UTF8.encode [0x46; 0x46; 0x31; 0xC9; 0x53; 0x53; 0x10400].
Proof. vm_compute. reflexivity. Qed.

(** *** The characters of a code *)

Lemma well_formed_code_nonempty c : well_formed_code c -> c <> EmptyString.
Proof. intros [Hlen _] ->. discriminate. Qed.

Lemma code_char_is_ascii a : is_code_char a = true -> is_ascii a = true.
Proof. unfold is_code_char, is_ascii, in_range. cbn. lia. Qed.

Lemma code_char_point a : is_code_char a = true -> is_code_point_of_code (code_of a) = true.
Proof. unfold is_code_char, is_code_point_of_code, in_range. cbn. lia. Qed.

Lemma code_point_of_code_plain c :
  is_code_point_of_code c = true -> is_whitespace c = false /\ UTF8.scalar c = true.
Proof. unfold is_code_point_of_code, is_whitespace, UTF8.scalar. lia. Qed.

(** A code is plain ASCII: its code points are its bytes. *)
Lemma code_points_of_code c :
  string_forallb is_code_char c = true ->
  UTF8.decode c = codes c /\ UTF8.encode (codes c) = c /\
  Forall (fun x => is_code_point_of_code x = true) (codes c).
Proof.
  intros H.
  assert (Ha : string_forallb is_ascii c = true)
    by (eapply string_forallb_impl; [apply code_char_is_ascii | exact H]).
  split; [now apply decode_ascii | split; [now apply encode_ascii |]].
  induction c as [| a r IH]; [constructor |].
  cbn [string_forallb] in H, Ha. apply andb_true_iff in H as [H1 H2].
  apply andb_true_iff in Ha as [_ Ha].
  constructor; [now apply code_char_point | now apply IH].
Qed.

(** A text whose upper case is a code is well formed and holds no
    whitespace. *)
Lemma case_variant_no_whitespace x c :
  string_forallb is_code_char c = true -> CodePoints.toUpperCase x = UTF8.decode c ->
  no_whitespace x = true /\ scalars x.
Proof.
  intros Hc Hx. destruct (code_points_of_code c Hc) as (Hd & _ & Hall).
  rewrite Hd in Hx. rewrite Forall_forall in Hall.
  assert (Himg : forall a, In a x -> Unicode.toUppercase a = [a] -> is_code_point_of_code a = true).
  { intros a Ha E. apply Hall. rewrite <- Hx. unfold CodePoints.toUpperCase.
    apply in_flat_map. exists a. split; [exact Ha | rewrite E; now left]. }
  split.
  - apply forallb_forall. intros a Ha. apply negb_true_iff.
    destruct (is_whitespace a) eqn:E; [| reflexivity].
    destruct (code_point_of_code_plain a (Himg a Ha (toUppercase_whitespace a E))) as [E' _].
    congruence.
  - apply Forall_forall. intros a Ha.
    destruct (UTF8.scalar a) eqn:E; [reflexivity |].
    destruct (code_point_of_code_plain a (Himg a Ha (toUppercase_not_scalar a E))) as [_ E'].
    congruence.
Qed.

Lemma whitespace_scalars l : all_whitespace l = true -> scalars l.
Proof.
  intros H. apply Forall_forall. intros c Hc.
  unfold all_whitespace in H. rewrite forallb_forall in H. specialize (H c Hc).
  unfold is_whitespace in H. unfold UTF8.scalar. lia.
Qed.

(** What [lookupCode.trim().toUpperCase()] makes of padded text. *)
Lemma normalize_padded pre x post c :
  string_forallb is_code_char c = true ->
  all_whitespace pre = true -> all_whitespace post = true ->
  CodePoints.toUpperCase x = UTF8.decode c ->
  trim (UTF8.encode (pre ++ x ++ post)) = UTF8.encode x /\
  toUpperCase (UTF8.encode x) = c.
Proof.
  intros Hc Hpre Hpost Hx.
  destruct (case_variant_no_whitespace x c Hc Hx) as [Hnows Hsc].
  destruct (code_points_of_code c Hc) as (Hd & He & _).
  split.
  - unfold trim, on_code_points. rewrite decode_encode.
    + now rewrite trim_padded.
    + apply Forall_app. split; [now apply whitespace_scalars |].
      apply Forall_app. split; [exact Hsc | now apply whitespace_scalars].
  - unfold toUpperCase, on_code_points. rewrite decode_encode by exact Hsc.
    now rewrite Hx, Hd, He.
Qed.

(** ** Selecting by a unique column *)

Lemma filter_none {A} (p : A -> bool) l :
  (forall x, In x l -> p x = false) -> filter p l = [].
Proof.
  induction l as [| a r IH]; simpl; [reflexivity |].
  intros H. rewrite (H a) by now left. apply IH. intros x Hx. apply H. now right.
Qed.

Lemma option_string_eqb_true o s : option_string_eqb o s = true <-> o = Some s.
Proof.
  destruct o as [x |]; simpl; [| split; discriminate].
  rewrite String.eqb_eq. split; congruence.
Qed.

Lemma filter_unique_code rows b c :
  NoDup (map bookings.booking_code rows) -> In b rows ->
  bookings.booking_code b = Some c ->
  filter (fun x => option_string_eqb (bookings.booking_code x) c) rows = [b].
Proof.
  induction rows as [| a r IH]; simpl; [tauto |].
  intros Hnd Hin Hc. inversion Hnd as [| ? ? Hnotin Hnd']; subst.
  destruct Hin as [-> | Hin].
  - rewrite (proj2 (option_string_eqb_true _ _) Hc). f_equal.
    apply filter_none. intros x Hx.
    destruct (option_string_eqb (bookings.booking_code x) c) eqn:E; [| reflexivity].
    apply option_string_eqb_true in E. exfalso. apply Hnotin.
    rewrite Hc, <- E. now apply in_map.
  - destruct (option_string_eqb (bookings.booking_code a) c) eqn:E.
    + apply option_string_eqb_true in E. exfalso. apply Hnotin.
      rewrite E, <- Hc. now apply in_map.
    + now apply IH.
Qed.

Definition van_summary (v : vans.Row) : VanSummary :=
  mkVanSummary (vans.name v) (vans.model v) (vans.image_url v).

Lemma find_unique_id (p : vans.Row -> bool) vs v :
  NoDup (map vans.id vs) -> In v vs -> p v = true ->
  find (fun x => String.eqb (vans.id x) (vans.id v) && p x) vs = Some v.
Proof.
  induction vs as [| a r IH]; simpl; [tauto |].
  intros Hnd Hin Hp. inversion Hnd as [| ? ? Hnotin Hnd']; subst.
  destruct Hin as [-> | Hin].
  - now rewrite String.eqb_refl, Hp.
  - destruct (String.eqb_spec (vans.id a) (vans.id v)) as [E | _].
    + exfalso. apply Hnotin. rewrite E. now apply in_map.
    + now apply IH.
Qed.

Lemma embed_van_visible db user b v :
  NoDup (map vans.id (tbl_vans db)) -> In v (tbl_vans db) ->
  vans.id v = bookings.van_id b -> vans_select_policy db user v = true ->
  embed_van db user b = Some (van_summary v).
Proof.
  intros Hnd Hin Hid Hvis. unfold embed_van. rewrite <- Hid.
  now rewrite (find_unique_id (vans_select_policy db user) _ _ Hnd Hin Hvis).
Qed.

(** ** What the phone pattern accepts *)

(** A matcher that only ever steps over digits. *)
Definition consumes_digits (m : Matcher) : Prop :=
  forall s k, m s k = true ->
    exists pre r, s = (pre ++ r)%string /\ string_forallb is_digit pre = true /\ k r = true.

Lemma string_app_nil s : (s ++ "")%string = s.
Proof. induction s as [| c r IH]; simpl; congruence. Qed.

Lemma string_app_assoc a b c : ((a ++ b) ++ c)%string = (a ++ (b ++ c))%string.
Proof. induction a as [| x r IH]; simpl; congruence. Qed.

Lemma string_forallb_app p a b :
  string_forallb p (a ++ b) = string_forallb p a && string_forallb p b.
Proof. induction a as [| x r IH]; simpl; [reflexivity |]. now rewrite IH, andb_assoc. Qed.

Lemma consumes_empty : consumes_digits m_empty.
Proof. intros s k H. exists EmptyString, s. auto. Qed.

Lemma consumes_class p :
  (forall c, p c = true -> is_digit c = true) -> consumes_digits (m_class p).
Proof.
  intros Hp [| c r] k H; simpl in H; [discriminate |].
  apply andb_true_iff in H as [Hc Hk].
  exists (String c EmptyString), r. simpl. rewrite (Hp _ Hc). auto.
Qed.

Lemma consumes_seq a b : consumes_digits a -> consumes_digits b -> consumes_digits (m_seq a b).
Proof.
  intros Ha Hb s k H. unfold m_seq in H.
  destruct (Ha _ _ H) as (p1 & r1 & -> & Hp1 & H1).
  destruct (Hb _ _ H1) as (p2 & r2 & -> & Hp2 & H2).
  exists (p1 ++ p2)%string, r2. rewrite string_app_assoc, string_forallb_app, Hp1, Hp2. auto.
Qed.

Lemma consumes_alt a b : consumes_digits a -> consumes_digits b -> consumes_digits (m_alt a b).
Proof.
  intros Ha Hb s k H. unfold m_alt in H. apply orb_true_iff in H as [H | H]; eauto.
Qed.

Lemma consumes_times n a : consumes_digits a -> consumes_digits (m_times n a).
Proof.
  intros Ha. induction n; simpl; [apply consumes_empty | now apply consumes_seq].
Qed.

Lemma consumes_upto n a : consumes_digits a -> consumes_digits (m_upto n a).
Proof.
  intros Ha. induction n; simpl; [apply consumes_empty |].
  apply consumes_alt; [now apply consumes_seq | apply consumes_empty].
Qed.

Lemma zero_is_digit c : one_of "0" c = true -> is_digit c = true.
Proof. by_ascii_cases c. Qed.

Lemma mobile_prefix_is_digit c : one_of "689" c = true -> is_digit c = true.
Proof. by_ascii_cases c. Qed.

Lemma area_prefix_is_digit c : in_range "2" "9" c = true -> is_digit c = true.
Proof. by_ascii_cases c. Qed.

Lemma phoneRegex_consumes_digits : consumes_digits phoneRegex.
Proof.
  assert (Hd : consumes_digits (m_class is_digit)) by (apply consumes_class; auto).
  unfold phoneRegex, m_between. apply consumes_alt.
  - apply consumes_seq; [apply consumes_class, zero_is_digit |].
    apply consumes_seq; [apply consumes_class, mobile_prefix_is_digit |].
    now apply consumes_times.
  - apply consumes_seq; [apply consumes_class, zero_is_digit |].
    apply consumes_seq; [apply consumes_class, area_prefix_is_digit |].
    apply consumes_seq; [now apply consumes_times | now apply consumes_upto].
Qed.

(** Whatever the pattern accepts consists of digits only. *)
Lemma phoneRegex_digits s : phoneRegex_test s = true -> string_forallb is_digit s = true.
Proof.
  intros H. destruct (phoneRegex_consumes_digits _ _ H) as (pre & r & -> & Hpre & Hr).
  apply String.eqb_eq in Hr. subst r. now rewrite string_app_nil.
Qed.

(** A text that holds a hyphen or a whitespace character. *)
Definition has_separator (s : string) : bool :=
  existsb CodePoints.is_separator (UTF8.decode s).

Lemma strip_separators_clean s : has_separator (strip_separators s) = false.
Proof.
  unfold has_separator, strip_separators, on_code_points.
  rewrite decode_encode by apply strip_separators_scalars, decode_scalars.
  generalize (UTF8.decode s) as l. unfold CodePoints.strip_separators.
  induction l as [| c r IH]; [reflexivity |]. cbn [filter].
  destruct (CodePoints.is_separator c) eqn:E; cbn [negb]; [exact IH |].
  cbn [existsb]. now rewrite E, IH.
Qed.

(** ** [ORDER BY created_at DESC] *)

Definition newer_or_same (a b : bookings.Row) : Prop :=
  bookings.created_at b <= bookings.created_at a.

Lemma insert_desc_perm b l : Permutation (insert_desc b l) (b :: l).
Proof.
  induction l as [| x r IH]; simpl; [reflexivity |].
  destruct (_ <=? _); [reflexivity |].
  rewrite IH. apply perm_swap.
Qed.

Lemma order_perm l : Permutation (order_by_created_at_desc l) l.
Proof.
  induction l as [| b r IH]; simpl; [reflexivity |].
  rewrite insert_desc_perm. now constructor.
Qed.

Lemma insert_desc_sorted b l :
  Sorted newer_or_same l -> Sorted newer_or_same (insert_desc b l).
Proof.
  induction 1 as [| x r Hs IH Hhd]; simpl; [repeat constructor |].
  destruct (Z.leb_spec (bookings.created_at x) (bookings.created_at b)) as [Hle | Hgt].
  - constructor; [now constructor | constructor; exact Hle].
  - constructor; [exact IH |].
    destruct r as [| y r']; simpl.
    + constructor. unfold newer_or_same. lia.
    + destruct (_ <=? _); constructor; [unfold newer_or_same; lia |].
      now inversion Hhd.
Qed.

Lemma order_sorted l : StronglySorted newer_or_same (order_by_created_at_desc l).
Proof.
  apply Sorted_StronglySorted.
  - intros a b c Hab Hbc. unfold newer_or_same in *. lia.
  - induction l as [| b r IH]; simpl; [constructor | now apply insert_desc_sorted].
Qed.

(** ** When a submission is stored *)

Definition new_row (env : Env) (p : bookings.Insert) (c : string) : bookings.Row :=
  bookings.mkRow (gen_random_uuid env)
    (bookings.i_customer_name p) (bookings.i_customer_phone p)
    (bookings.i_van_id p) (bookings.i_start_date p) (bookings.i_end_date p)
    (bookings.i_pickup_location p) (bookings.i_pickup_time p)
    (bookings.i_total_price p) (bookings.i_status p) (bookings.i_notes p)
    (Some c) (pg_now env) (pg_now env).

Definition with_booking (db : Db) (row : bookings.Row) : Db :=
  mkDb (tbl_profiles db) (tbl_vans db) (tbl_bookings db ++ [row]).

Definition submit_payload (van : vans.Row) (sd ed : Date) (f : Form) : bookings.Insert :=
  bookings.mkInsert (name f) (strip_separators (phone f)) (vans.id van) sd ed
    (pickup f) (or_null (pickupTime f))
    (differenceInDays ed sd * vans.price_per_day van) (or_null (notes f)) pending.

Lemma insert_booking_ok env p db c :
  numeric_10_2_fits (bookings.i_total_price p) = true ->
  generate_booking_code (random_text env) (tbl_bookings db) = Some c ->
  existsb (fun b => String.eqb (bookings.id b) (gen_random_uuid env)) (tbl_bookings db) = false ->
  existsb (fun v => String.eqb (vans.id v) (bookings.i_van_id p)) (tbl_vans db) = true ->
  insert_booking env p db = inr (with_booking db (new_row env p c), new_row env p c).
Proof.
  intros Hfit Hgen Hpk Hfk. unfold insert_booking.
  rewrite Hfit, Hgen. cbn [negb bookings_insert_policy]. rewrite Hpk.
  destruct (generate_returns_first_free _ _ _ Hgen) as (_ & _ & _ & _ & _ & _ & Hfree).
  rewrite Hfree, Hfk. reflexivity.
Qed.

Lemma handleSubmit_books env van sd ed f db c :
  phoneRegex_test (strip_separators (phone f)) = true ->
  1 <= differenceInDays ed sd ->
  numeric_10_2_fits (differenceInDays ed sd * vans.price_per_day van) = true ->
  generate_booking_code (random_text env) (tbl_bookings db) = Some c ->
  existsb (fun b => String.eqb (bookings.id b) (gen_random_uuid env)) (tbl_bookings db) = false ->
  existsb (fun v => String.eqb (vans.id v) (vans.id van)) (tbl_vans db) = true ->
  let row := new_row env (submit_payload van sd ed f) c in
  handleSubmit env (mkIndexState (Some van) (Some sd) (Some ed) f) db
  = (with_booking db row, Booked row).
Proof.
  intros Hphone Hdays Hfit Hgen Hpk Hfk row. unfold handleSubmit.
  cbn [selectedVan startDate endDate form days totalPrice].
  rewrite Hphone. cbn [negb].
  destruct (Z.ltb_spec (differenceInDays ed sd) 1) as [Hlt | _]; [lia |].
  fold (submit_payload van sd ed f).
  now rewrite (insert_booking_ok env (submit_payload van sd ed f) db c).
Qed.

Lemma handleSubmit_booked env st db db' row :
  handleSubmit env st db = (db', Booked row) ->
  exists van sd ed c,
    st = mkIndexState (Some van) (Some sd) (Some ed) (form st) /\
    phoneRegex_test (strip_separators (phone (form st))) = true /\
    1 <= differenceInDays ed sd /\
    generate_booking_code (random_text env) (tbl_bookings db) = Some c /\
    row = new_row env (submit_payload van sd ed (form st)) c /\
    db' = with_booking db row.
Proof.
  intros H.
  destruct (handleSubmit_inv _ _ _ _ _ H)
    as [[_ Hno] | (van & sd & ed & row' & Ev & Es & Ee & Hphone & Hdays & Hr & Hins)].
  - exfalso. now apply (Hno row).
  - injection Hr as <-.
    destruct (insert_booking_inv _ _ _ _ _ Hins) as (c & Hgen & _ & _ & _ & _ & Hrow & Hdb).
    exists van, sd, ed, c.
    assert (Hdays' : days st = differenceInDays ed sd) by (unfold days; now rewrite Es, Ee).
    assert (Htot : totalPrice st = differenceInDays ed sd * vans.price_per_day van)
      by (unfold totalPrice; now rewrite Ev, Hdays').
    rewrite Htot in Hrow.
    split; [destruct st as [v s e f]; simpl in *; congruence |].
    split; [assumption |]. split; [lia |]. split; [assumption |].
    split; [exact Hrow | now rewrite Hdb, Hrow].
Qed.

(** ** A small deployment, used to run the operations *)

Definition baht (n : Z) : Z := n * 100.

(** The "City Cruiser" of the sample fleet, at 1800 per day. *)
Definition city_cruiser : vans.Row :=
  vans.mkRow "van-4" "City Cruiser" "Hyundai H-1 Premium 2023" 9 (baht 1800)
    (Some "https://images.unsplash.com/photo-1555215695-3004980ad54e?w=800&q=80")
    (Some "Perfect for city tours, family outings, and small group transfers.")
    (vans.mkFeatures false true false) available None 0 0.

Definition db_fresh : Db :=
  mkDb [profiles.mkRow "user-1" (Some "Fleet Manager") staff] [city_cruiser] [].

Definition customer_env : Env := mkEnv None 1000 "booking-1" ["0.5"].

Definition staff_env : Env := mkEnv (Some "user-1") 2000 "unused" [].

Definition three_days : IndexState :=
  mkIndexState (Some city_cruiser) (Some (ymd 2025 6 10)) (Some (ymd 2025 6 13))
    (mkForm "Somchai" "089-123 4567" "Suvarnabhumi Airport" "" "").

Definition first_booking : bookings.Row :=
  bookings.mkRow "booking-1" "Somchai" "0891234567" "van-4" (ymd 2025 6 10) (ymd 2025 6 13)
    "Suvarnabhumi Airport" None (baht 5400) pending None (Some "D310CB") 1000 1000.

(** The store after the first booking (see [first_submission]). *)
Definition db_one : Db := with_booking db_fresh first_booking.

Example md5_empty : MD5.md5 "" = "d41d8cd98f00b204e9800998ecf8427e".
Proof. vm_compute. reflexivity. Qed.

Example md5_abc : MD5.md5 "abc" = "900150983cd24fb0d6963f7d28e17f72".
Proof. vm_compute. reflexivity. Qed.

Example md5_two_blocks :
  MD5.md5 "12345678901234567890123456789012345678901234567890123456789012345678901234567890"
  = "57edf4a22be3c955ac49da2e2107b67a".
Proof. vm_compute. reflexivity. Qed.

Example first_submission :
  handleSubmit customer_env three_days db_fresh
  = (with_booking db_fresh first_booking, Booked first_booking).
Proof. vm_compute. reflexivity. Qed.

(** A draw that collides is discarded and the next one is tried. *)
Example forced_collision :
  generate_booking_code ["0.5"; "0.5"; "0.25"] (tbl_bookings db_one)
  = Some (candidate "0.25") /\ candidate "0.25" <> candidate "0.5".
Proof. vm_compute. split; [reflexivity | discriminate]. Qed.

Lemma db_one_reachable : reachable db_one.
Proof.
  apply (reach_step db_fresh); [now apply (reach_migrated customer_env db_fresh) |].
  replace db_one with (fst (handleSubmit customer_env three_days db_fresh))
    by (rewrite first_submission; reflexivity).
  apply step_submit.
Qed.

(** * The booking code generator *)

(** C1.  A generated booking code has length 6 and only characters of
    [A-Z0-9]; the generator returns the candidate of the first draw that
    collides with no stored code, discarding every colliding draw before it,
    and it does return as soon as some draw is free; in every store reached
    once the code column has been added (to an empty table, or to older
    bookings that the migration backfills) each booking holds such a code and
    no two bookings hold the same code. *)
Theorem booking_codes_well_formed_and_unique :
  (forall rs rows c,
      generate_booking_code rs rows = Some c ->
      well_formed_code c /\ code_exists rows c = false /\
      exists pre r post,
        rs = (pre ++ r :: post)%list /\ Forall (collides rows) pre /\ c = candidate r) /\
  (forall rs rows,
      Exists (fun r => code_exists rows (candidate r) = false) rs ->
      exists c, generate_booking_code rs rows = Some c) /\
  (forall db, reachable db -> codes_ok (tbl_bookings db)).
Proof.
  split; [| split].
  - intros rs rows c H.
    destruct (generate_shape _ _ _ H) as [Hlen Hhex].
    destruct (generate_returns_first_free _ _ _ H) as (pre & r & post & Hrs & Hpre & Hc & Hfree).
    split; [split; [exact Hlen |] | split; [exact Hfree |]].
    + eapply string_forallb_impl; [apply upper_hex_is_code_char | exact Hhex].
    + exists pre, r, post. auto.
  - apply generate_exits.
  - apply reachable_codes_ok.
Qed.

Lemma booking_codes_well_formed_and_unique_witness :
  reachable db_one /\ codes_ok (tbl_bookings db_one).
Proof.
  split.
  - exact db_one_reachable.
  - exact (proj2 (proj2 booking_codes_well_formed_and_unique) db_one db_one_reachable).
Defined.

(** ** The candidate space *)














(** * Submitting a booking *)

(** C3.  The total is a function of the daily rate and the two dates alone:
    it is the rate times the whole days from start to end.  Whenever a
    submission is stored, the dates are at least one day apart and the stored
    row carries exactly that product; at 1800 per day from 2025-06-10 to
    2025-06-13 the total is 5400, and this is what the stored booking
    holds. *)
Theorem total_price_is_rate_times_days :
  (forall van sd ed f,
      totalPrice (mkIndexState (Some van) (Some sd) (Some ed) f)
      = vans.price_per_day van * differenceInDays ed sd) /\
  (forall env st db db' row,
      handleSubmit env st db = (db', Booked row) ->
      exists van sd ed,
        selectedVan st = Some van /\ startDate st = Some sd /\ endDate st = Some ed /\
        1 <= differenceInDays ed sd /\
        bookings.total_price row = vans.price_per_day van * differenceInDays ed sd /\
        In row (tbl_bookings db')) /\
  differenceInDays (ymd 2025 6 13) (ymd 2025 6 10) = 3 /\
  totalPrice three_days = baht 5400 /\
  (exists row,
      handleSubmit customer_env three_days db_fresh = (with_booking db_fresh row, Booked row) /\
      bookings.total_price row = baht 5400).
Proof.
  split; [| split; [| split; [| split]]].
  - intros van sd ed f. unfold totalPrice, days. cbn [selectedVan startDate endDate]. lia.
  - intros env st db db' row H.
    destruct (handleSubmit_booked _ _ _ _ _ H) as (van & sd & ed & c & Hst & _ & Hdays & _ & -> & ->).
    exists van, sd, ed. rewrite Hst. cbn [selectedVan startDate endDate].
    repeat split; try assumption.
    + cbn [new_row submit_payload bookings.total_price bookings.i_total_price]. lia.
    + cbn [with_booking tbl_bookings]. apply in_or_app. right. now left.
  - reflexivity.
  - reflexivity.
  - exists first_booking. split; [exact first_submission | reflexivity].
Qed.

Lemma total_price_is_rate_times_days_witness :
  exists van sd ed,
    selectedVan three_days = Some van /\ startDate three_days = Some sd /\
    endDate three_days = Some ed /\ 1 <= differenceInDays ed sd /\
    bookings.total_price first_booking = vans.price_per_day van * differenceInDays ed sd /\
    In first_booking (tbl_bookings (with_booking db_fresh first_booking)).
Proof.
  exact (proj1 (proj2 total_price_is_rate_times_days)
           customer_env three_days db_fresh _ first_booking first_submission).
Defined.

(** C4.  A submission whose end date is not after its start date is turned
    down with a validation toast ("Invalid Dates", or "Invalid Phone" when
    the phone fails first) and the store is left as it was; a submission
    whose end date is the day after its start date, with a valid phone, an
    existing van, a fresh row id and a draw that yields a free code, is
    stored, and the stored booking spans exactly one day. *)
Theorem end_date_must_follow_start_date :
  (forall env van sd ed f db,
      ed <= sd ->
      handleSubmit env (mkIndexState (Some van) (Some sd) (Some ed) f) db
      = (db, if phoneRegex_test (strip_separators (phone f)) then InvalidDates
             else InvalidPhone)) /\
  (forall env van sd f db,
      phoneRegex_test (strip_separators (phone f)) = true ->
      numeric_10_2_fits (vans.price_per_day van) = true ->
      existsb (fun v => String.eqb (vans.id v) (vans.id van)) (tbl_vans db) = true ->
      existsb (fun b => String.eqb (bookings.id b) (gen_random_uuid env)) (tbl_bookings db) = false ->
      Exists (fun r => code_exists (tbl_bookings db) (candidate r) = false) (random_text env) ->
      exists row,
        handleSubmit env (mkIndexState (Some van) (Some sd) (Some (sd + 1)) f) db
        = (with_booking db row, Booked row) /\
        bookings.start_date row = sd /\
        differenceInDays (bookings.end_date row) (bookings.start_date row) = 1 /\
        bookings.total_price row = vans.price_per_day van /\
        bookings.status row = pending) /\
  (forall env f db,
      phoneRegex_test (strip_separators (phone f)) = true ->
      handleSubmit env
        (mkIndexState (Some city_cruiser) (Some (ymd 2025 6 10)) (Some (ymd 2025 6 10)) f) db
      = (db, InvalidDates)).
Proof.
  split; [| split].
  - intros env van sd ed f db Hle. unfold handleSubmit.
    cbn [selectedVan startDate endDate form days].
    destruct (phoneRegex_test _); cbn [negb]; [| reflexivity].
    unfold differenceInDays. destruct (Z.ltb_spec (ed - sd) 1); [reflexivity | lia].
  - intros env van sd f db Hphone Hfit Hfk Hpk Hfree.
    destruct (generate_exits _ _ Hfree) as [c Hgen].
    assert (Hone : differenceInDays (sd + 1) sd = 1) by (unfold differenceInDays; lia).
    exists (new_row env (submit_payload van sd (sd + 1) f) c).
    split; [| cbn; unfold differenceInDays; repeat split; lia].
    apply handleSubmit_books; try assumption; rewrite Hone; [lia |].
    now rewrite Z.mul_1_l.
  - intros env f db Hphone. unfold handleSubmit.
    cbn [selectedVan startDate endDate form days]. now rewrite Hphone.
Qed.

Definition next_day : IndexState :=
  mkIndexState (Some city_cruiser) (Some (ymd 2025 6 10)) (Some (ymd 2025 6 10 + 1))
    (mkForm "Somchai" "0891234567" "Suvarnabhumi Airport" "09:30" "two child seats").

Lemma end_date_must_follow_start_date_witness :
  ymd 2025 6 10 + 1 = ymd 2025 6 11 /\
  exists row,
    handleSubmit customer_env next_day db_fresh = (with_booking db_fresh row, Booked row) /\
    bookings.start_date row = ymd 2025 6 10 /\
    differenceInDays (bookings.end_date row) (bookings.start_date row) = 1 /\
    bookings.total_price row = vans.price_per_day city_cruiser /\
    bookings.status row = pending.
Proof.
  split; [reflexivity |].
  apply (proj1 (proj2 end_date_must_follow_start_date) customer_env city_cruiser
           (ymd 2025 6 10) (form next_day) db_fresh).
  - vm_compute. reflexivity.
  - vm_compute. reflexivity.
  - vm_compute. reflexivity.
  - vm_compute. reflexivity.
  - constructor. vm_compute. reflexivity.
Defined.

(** The phone of [three_days], typed with a no-break space and a thin space
    between its groups. *)
Definition spaced_phone : string :=
  ("089" ++ UTF8.encode [0xA0] ++ "123" ++ UTF8.encode [0x2009] ++ "4567")%string.

Definition spaced_submission : IndexState :=
  mkIndexState (Some city_cruiser) (Some (ymd 2025 6 10)) (Some (ymd 2025 6 13))
    (mkForm "Somchai" spaced_phone "Suvarnabhumi Airport" "" "").

(** C5.  With a van and both dates chosen, the submission ends in the
    "Invalid Phone" toast exactly when the phone, once every hyphen and every
    whitespace character of the class [\s] is removed, fails [phoneRegex];
    in that case nothing is stored.  The phone 0891234567 passes and the
    booking is stored, also when its groups are set apart by a no-break and
    a thin space; the phone 12345 is turned down and the store is left as it
    was. *)
Theorem phone_is_validated :
  (forall env van sd ed f db,
      snd (handleSubmit env (mkIndexState (Some van) (Some sd) (Some ed) f) db) = InvalidPhone
      <-> phoneRegex_test (strip_separators (phone f)) = false) /\
  (forall env van sd ed f db,
      phoneRegex_test (strip_separators (phone f)) = false ->
      handleSubmit env (mkIndexState (Some van) (Some sd) (Some ed) f) db = (db, InvalidPhone)) /\
  phoneRegex_test (strip_separators "0891234567") = true /\
  (exists row,
      handleSubmit customer_env next_day db_fresh = (with_booking db_fresh row, Booked row) /\
      bookings.customer_phone row = "0891234567") /\
  (phoneRegex_test (strip_separators spaced_phone) = true /\
   exists row,
     handleSubmit customer_env spaced_submission db_fresh
     = (with_booking db_fresh row, Booked row) /\
     bookings.customer_phone row = "0891234567") /\
  (forall env van sd ed db n p t o,
      handleSubmit env (mkIndexState (Some van) (Some sd) (Some ed) (mkForm n "12345" p t o)) db
      = (db, InvalidPhone)).
Proof.
  assert (Hrej : forall env van sd ed f db,
             phoneRegex_test (strip_separators (phone f)) = false ->
             handleSubmit env (mkIndexState (Some van) (Some sd) (Some ed) f) db
             = (db, InvalidPhone)).
  { intros env van sd ed f db H. unfold handleSubmit.
    cbn [selectedVan startDate endDate form]. now rewrite H. }
  split; [| split; [exact Hrej | split; [vm_compute; reflexivity | split; [| split]]]].
  - intros env van sd ed f db. split.
    + unfold handleSubmit. cbn [selectedVan startDate endDate form].
      destruct (phoneRegex_test _); [| reflexivity]. cbn [negb].
      destruct (_ <? 1); [discriminate |].
      destruct (insert_booking _ _ _) as [e | [db1 row]]; discriminate.
    + intros H. now rewrite Hrej.
  - eexists. split; [vm_compute; reflexivity | reflexivity].
  - split; [vm_compute; reflexivity |].
    eexists. split; [vm_compute; reflexivity | reflexivity].
  - intros. apply Hrej. vm_compute. reflexivity.
Qed.

Lemma phone_is_validated_witness :
  handleSubmit customer_env
    (mkIndexState (Some city_cruiser) (Some (ymd 2025 6 10)) (Some (ymd 2025 6 13))
       (mkForm "Somchai" "0-2123" "Suvarnabhumi Airport" "" "")) db_fresh
  = (db_fresh, InvalidPhone).
Proof.
  apply (proj1 (proj2 phone_is_validated)). vm_compute. reflexivity.
Defined.

(** C10.  The phone is stored as it was validated: with every hyphen and
    every whitespace character (every character of the class [\s], the
    no-break space and the other space separators included) deleted.  A
    stored booking's phone is the stripped input; it passes [phoneRegex], so
    it consists of digits only and differs from any raw input that contained
    a separator.  The input "089-123 4567" is accepted and stored as
    "0891234567", and so is the same number typed with a no-break and a thin
    space. *)
Theorem phone_is_stored_normalized :
  (forall env st db db' row,
      handleSubmit env st db = (db', Booked row) ->
      bookings.customer_phone row = strip_separators (phone (form st)) /\
      phoneRegex_test (bookings.customer_phone row) = true /\
      string_forallb is_digit (bookings.customer_phone row) = true /\
      In row (tbl_bookings db') /\
      (has_separator (phone (form st)) = true ->
       bookings.customer_phone row <> phone (form st))) /\
  strip_separators "089-123 4567" = "0891234567" /\
  (exists row,
      handleSubmit customer_env three_days db_fresh = (with_booking db_fresh row, Booked row) /\
      phone (form three_days) = "089-123 4567" /\
      bookings.customer_phone row = "0891234567") /\
  UTF8.decode spaced_phone
  = [0x30; 0x38; 0x39; 0xA0; 0x31; 0x32; 0x33; 0x2009; 0x34; 0x35; 0x36; 0x37] /\
  strip_separators spaced_phone = "0891234567" /\
  (exists row,
      handleSubmit customer_env spaced_submission db_fresh
      = (with_booking db_fresh row, Booked row) /\
      bookings.customer_phone row = "0891234567").
Proof.
  split; [| split; [vm_compute; reflexivity | split; [| split; [vm_compute; reflexivity |
    split; [vm_compute; reflexivity |]]]]].
  - intros env st db db' row H.
    destruct (handleSubmit_booked _ _ _ _ _ H) as (van & sd & ed & c & _ & Hphone & _ & _ & -> & ->).
    cbn [new_row submit_payload bookings.customer_phone bookings.i_customer_phone].
    split; [reflexivity |]. split; [exact Hphone |].
    split; [now apply phoneRegex_digits |].
    split; [cbn [with_booking tbl_bookings]; apply in_or_app; right; now left |].
    intros Hsep Heq. rewrite <- Heq, strip_separators_clean in Hsep. discriminate.
  - exists first_booking. split; [exact first_submission | split; reflexivity].
  - eexists. split; [vm_compute; reflexivity | reflexivity].
Qed.

Lemma phone_is_stored_normalized_witness :
  bookings.customer_phone first_booking = strip_separators (phone (form three_days)) /\
  phoneRegex_test (bookings.customer_phone first_booking) = true /\
  string_forallb is_digit (bookings.customer_phone first_booking) = true /\
  In first_booking (tbl_bookings (with_booking db_fresh first_booking)) /\
  (has_separator (phone (form three_days)) = true ->
   bookings.customer_phone first_booking <> phone (form three_days)).
Proof.
  exact (proj1 phone_is_stored_normalized customer_env three_days db_fresh _ first_booking
           first_submission).
Defined.

(** * Looking a booking up by its code *)

Lemma handleLookup_select user lookupCode db :
  trim lookupCode <> EmptyString ->
  handleLookup user lookupCode db
  = match filter (fun b => option_string_eqb (bookings.booking_code b)
                             (toUpperCase (trim lookupCode))) (tbl_bookings db) with
    | [] => NotFound
    | [b] => Found b (embed_van db user b)
    | _ :: _ :: _ => NotFound
    end.
Proof.
  intros Hne. unfold handleLookup.
  destruct (String.eqb_spec (trim lookupCode) EmptyString) as [E | _]; [contradiction |].
  reflexivity.
Qed.

(** C6, as the code has it.  In a store whose codes are well formed and
    unique, looking up the code of a stored booking shows that booking
    together with the name, model and primary image of its van as far as the
    row-level policy lets the caller see the van (always so for an available
    van): this holds for every input whose trimmed, upper-cased form is the
    code, and so for the code written in any letter case (any text whose
    upper case is the code) and surrounded by any whitespace (any characters
    that [trim] removes, the no-break space and the other space separators
    included); a non-blank input whose trimmed, upper-cased form is held by
    no booking gives the "not found" message; a blank input is ignored
    without any lookup. *)
Theorem lookup_by_code user db :
  codes_ok (tbl_bookings db) ->
  (forall b c input,
      In b (tbl_bookings db) -> bookings.booking_code b = Some c ->
      toUpperCase (trim input) = c ->
      handleLookup user input db = Found b (embed_van db user b)) /\
  (forall b c pre x post,
      In b (tbl_bookings db) -> bookings.booking_code b = Some c ->
      all_whitespace pre = true -> all_whitespace post = true ->
      CodePoints.toUpperCase x = UTF8.decode c ->
      handleLookup user (UTF8.encode (pre ++ x ++ post)) db = Found b (embed_van db user b)) /\
  (forall b v,
      NoDup (map vans.id (tbl_vans db)) -> In v (tbl_vans db) ->
      vans.id v = bookings.van_id b -> vans_select_policy db user v = true ->
      embed_van db user b = Some (van_summary v)) /\
  (forall input,
      trim input <> EmptyString ->
      (forall b, In b (tbl_bookings db) ->
                 bookings.booking_code b <> Some (toUpperCase (trim input))) ->
      handleLookup user input db = NotFound) /\
  (forall input, trim input = EmptyString -> handleLookup user input db = NoLookup).
Proof.
  intros [Hwf Hnd].
  assert (Hshape : forall b c, In b (tbl_bookings db) -> bookings.booking_code b = Some c ->
                               well_formed_code c).
  { intros b c Hin Hc. rewrite Forall_forall in Hwf.
    destruct (Hwf b Hin) as (c' & Hc' & Hs). congruence. }
  assert (Hfound : forall b c input,
             In b (tbl_bookings db) -> bookings.booking_code b = Some c ->
             toUpperCase (trim input) = c ->
             handleLookup user input db = Found b (embed_van db user b)).
  { intros b c input Hin Hc Hnorm. rewrite handleLookup_select.
    - rewrite Hnorm. now rewrite (filter_unique_code _ b c Hnd Hin Hc).
    - intros E. rewrite E in Hnorm.
      apply (well_formed_code_nonempty c (Hshape b c Hin Hc)). rewrite <- Hnorm.
      now apply toUpperCase_empty. }
  split; [exact Hfound | split; [| split; [| split]]].
  - intros b c pre x post Hin Hc Hpre Hpost Hx. apply (Hfound b c); try assumption.
    destruct (normalize_padded pre x post c (proj2 (Hshape b c Hin Hc)) Hpre Hpost Hx)
      as [Htrim Hup].
    now rewrite Htrim.
  - intros b v. apply embed_van_visible.
  - intros input Hne Hnone. rewrite handleLookup_select by assumption.
    rewrite filter_none; [reflexivity |].
    intros b Hin. destruct (option_string_eqb _ _) eqn:E; [| reflexivity].
    apply option_string_eqb_true in E. now apply Hnone in E.
  - intros input Hblank. unfold handleLookup. now rewrite Hblank.
Qed.

(** The code d310cb in lower case, after a no-break space and a space and
    before an ideographic space. *)
Lemma lookup_by_code_witness :
  codes_ok (tbl_bookings db_one) /\
  UTF8.decode "d310cb" = [0x64; 0x33; 0x31; 0x30; 0x63; 0x62] /\
  handleLookup None
    (UTF8.encode ([0xA0; 0x20] ++ [0x64; 0x33; 0x31; 0x30; 0x63; 0x62] ++ [0x3000])) db_one
  = Found first_booking (Some (van_summary city_cruiser)).
Proof.
  assert (Hok : codes_ok (tbl_bookings db_one)) by exact (reachable_codes_ok _ db_one_reachable).
  split; [exact Hok | split; [vm_compute; reflexivity |]].
  assert (Hvan : embed_van db_one None first_booking = Some (van_summary city_cruiser))
    by (vm_compute; reflexivity).
  rewrite <- Hvan.
  apply (proj1 (proj2 (lookup_by_code None db_one Hok)) first_booking "D310CB");
    [now left | reflexivity | reflexivity | reflexivity | vm_compute; reflexivity].
Defined.

(** A blank input, of spaces or of other whitespace such as the no-break
    space, is the code of no booking, yet it is not answered with the "not
    found" message: the handler returns before any lookup. *)
Lemma blank_lookup_is_not_answered :
  (forall b, In b (tbl_bookings db_one) ->
             bookings.booking_code b <> Some "   " /\
             bookings.booking_code b <> Some (toUpperCase (trim "   "))) /\
  handleLookup None "   " db_one = NoLookup /\
  handleLookup None "   " db_one <> NotFound /\
  handleLookup None (UTF8.encode [0xA0; 0x2003]) db_one = NoLookup.
Proof.
  split; [| split; [vm_compute; reflexivity | split; [vm_compute; discriminate |
    vm_compute; reflexivity]]].
  intros b [<- | []]. split; vm_compute; discriminate.
Qed.

(** * Administration *)

(** The text of an enum value. *)
Definition label (s : booking_status) : string :=
  match s with
  | pending => "pending"
  | confirmed => "confirmed"
  | proceed => "proceed"
  | completed => "completed"
  | cancelled => "cancelled"
  end.

Lemma booking_status_eqb_eq a b : booking_status_eqb a b = true <-> a = b.
Proof. destruct a, b; simpl; split; congruence. Qed.

Lemma updateStatus_rows env id s db b :
  is_staff_or_admin db (auth_uid env) = true ->
  In b (tbl_bookings db) -> bookings.id b = id ->
  In (bookings.set_status s (pg_now env) b) (tbl_bookings (fst (updateStatus env id s db))) /\
  (forall b', In b' (tbl_bookings (fst (updateStatus env id s db))) ->
              bookings.id b' = id -> bookings.status b' = s).
Proof.
  intros Hstaff Hin Hid.
  cbn [updateStatus fst update_booking_status tbl_bookings].
  unfold bookings_select_policy, bookings_update_policy. rewrite Hstaff. split.
  - apply in_map_iff. exists b. split; [| assumption].
    rewrite Hid, String.eqb_refl. reflexivity.
  - intros b' Hb' Hid'. apply in_map_iff in Hb' as (b0 & <- & _).
    destruct (String.eqb_spec (bookings.id b0) id) as [E | Hne]; cbn [andb] in *.
    + reflexivity.
    + contradiction.
Qed.

(** C7.  For a caller the update policy admits (the administration page is
    only shown to staff and admins), [updateStatus] on a known booking sets
    the status to the requested value whatever the current status is, and
    ends in the "Status Updated" toast, never in an error; asking for the
    same status again leaves every status as it is, again without error. *)
Theorem updateStatus_sets_any_status env id s db b :
  is_staff_or_admin db (auth_uid env) = true ->
  In b (tbl_bookings db) -> bookings.id b = id ->
  let db' := fst (updateStatus env id s db) in
  snd (updateStatus env id s db) = StatusUpdated s /\
  In (bookings.set_status s (pg_now env) b) (tbl_bookings db') /\
  (forall b', In b' (tbl_bookings db') -> bookings.id b' = id -> bookings.status b' = s) /\
  (forall env',
      snd (updateStatus env' id s db') = StatusUpdated s /\
      map bookings.status (tbl_bookings (fst (updateStatus env' id s db')))
      = map bookings.status (tbl_bookings db')).
Proof.
  intros Hstaff Hin Hid db'. subst db'.
  destruct (updateStatus_rows env id s db b Hstaff Hin Hid) as [Hnew Hall].
  split; [reflexivity |]. split; [exact Hnew | split; [exact Hall |]].
  cbn [updateStatus fst snd update_booking_status tbl_bookings].
  unfold bookings_select_policy, bookings_update_policy. rewrite Hstaff.
  - intros env'. split; [reflexivity |].
    rewrite !map_map. apply map_ext_in. intros b0 _. cbn [tbl_profiles].
    destruct (String.eqb_spec (bookings.id b0) id) as [E | Hne]; cbn [andb].
    + change (bookings.id (bookings.set_status s (pg_now env) b0)) with (bookings.id b0).
      rewrite E, String.eqb_refl. cbn [andb].
      now destruct (is_staff_or_admin _ (auth_uid env')).
    + destruct (String.eqb_spec (bookings.id b0) id) as [E | _]; [contradiction |].
      reflexivity.
Qed.

(** The first booking, cancelled by staff. *)
Definition db_cancelled : Db := fst (updateStatus staff_env "booking-1" cancelled db_one).

Example first_booking_cancelled :
  tbl_bookings db_cancelled = [bookings.set_status cancelled 2000 first_booking].
Proof. vm_compute. reflexivity. Qed.

Lemma updateStatus_sets_any_status_witness :
  map bookings.status (tbl_bookings db_cancelled) = [cancelled] /\
  snd (updateStatus staff_env "booking-1" pending db_cancelled) = StatusUpdated pending /\
  map bookings.status (tbl_bookings (fst (updateStatus staff_env "booking-1" pending db_cancelled)))
  = [pending].
Proof.
  split; [vm_compute; reflexivity |].
  destruct (updateStatus_sets_any_status staff_env "booking-1" pending db_cancelled
              (bookings.set_status cancelled 2000 first_booking))
    as (Htoast & _ & _ & _).
  - vm_compute. reflexivity.
  - rewrite first_booking_cancelled. now left.
  - reflexivity.
  - split; [exact Htoast | vm_compute; reflexivity].
Defined.

Lemma booking_status_of_label_label s : booking_status_of_label (label s) = Some s.
Proof. destruct s; reflexivity. Qed.

Lemma label_is_not_all s : String.eqb (label s) "all" = false.
Proof. destruct s; reflexivity. Qed.

Lemma fetchBookings_all user db :
  map fst (fetchBookings user "all" db) = order_by_created_at_desc (tbl_bookings db).
Proof.
  unfold fetchBookings. cbn [String.eqb Ascii.eqb Bool.eqb andb].
  rewrite map_map. cbn [fst]. rewrite map_id.
  f_equal. unfold bookings_select_policy. induction (tbl_bookings db); simpl; congruence.
Qed.

Lemma fetchBookings_status user s db :
  map fst (fetchBookings user (label s) db)
  = order_by_created_at_desc
      (filter (fun b => booking_status_eqb (bookings.status b) s) (tbl_bookings db)).
Proof.
  unfold fetchBookings. rewrite label_is_not_all, booking_status_of_label_label.
  rewrite map_map. cbn [fst]. rewrite map_id.
  do 2 f_equal. unfold bookings_select_policy. induction (tbl_bookings db); simpl; congruence.
Qed.

Lemma fetchBookings_sorted user f db :
  StronglySorted newer_or_same (map fst (fetchBookings user f db)).
Proof.
  unfold fetchBookings.
  destruct (String.eqb f "all"); [| destruct (booking_status_of_label f)];
    try (rewrite map_map; cbn [fst]; rewrite map_id; apply order_sorted).
  constructor.
Qed.

(** C8.  [fetchBookings] puts into the page exactly the stored bookings
    whose status is the chosen filter, and all stored bookings for the
    filter "all" (the initial one), none left out or repeated, each at least
    as recently created as every one after it.  Hence a pending booking that
    staff set to confirmed is listed under "confirmed" and no booking of its
    id is listed under "pending". *)
Theorem fetchBookings_filters_and_orders user db :
  Permutation (map fst (fetchBookings user "all" db)) (tbl_bookings db) /\
  (forall s,
      Permutation (map fst (fetchBookings user (label s) db))
        (filter (fun b => booking_status_eqb (bookings.status b) s) (tbl_bookings db))) /\
  (forall s b,
      In b (map fst (fetchBookings user (label s) db))
      <-> In b (tbl_bookings db) /\ bookings.status b = s) /\
  (forall f, StronglySorted newer_or_same (map fst (fetchBookings user f db))) /\
  (forall f b v, In (b, v) (fetchBookings user f db) -> v = embed_van_name_model db user b) /\
  (forall env id b,
      is_staff_or_admin db (auth_uid env) = true ->
      In b (tbl_bookings db) -> bookings.id b = id -> bookings.status b = pending ->
      let db' := fst (updateStatus env id confirmed db) in
      In (bookings.set_status confirmed (pg_now env) b)
         (map fst (fetchBookings user "confirmed" db')) /\
      (forall b', In b' (map fst (fetchBookings user "pending" db')) -> bookings.id b' <> id)).
Proof.
  assert (Hmem : forall d s b,
             In b (map fst (fetchBookings user (label s) d))
             <-> In b (tbl_bookings d) /\ bookings.status b = s).
  { intros d s b. rewrite fetchBookings_status.
    split.
    - intros H. apply (Permutation_in _ (order_perm _)) in H.
      apply filter_In in H as [Hin Hs]. now apply booking_status_eqb_eq in Hs.
    - intros [Hin Hs]. apply (Permutation_in _ (Permutation_sym (order_perm _))).
      apply filter_In. split; [assumption | now apply booking_status_eqb_eq]. }
  split; [| split; [| split; [| split; [| split]]]].
  - rewrite fetchBookings_all. apply order_perm.
  - intros s. rewrite fetchBookings_status. apply order_perm.
  - apply Hmem.
  - intros f. apply fetchBookings_sorted.
  - intros f b v H. unfold fetchBookings in H.
    destruct (String.eqb f "all"); [| destruct (booking_status_of_label f) as [s0 |]];
      try (apply in_map_iff in H as (x & [= <- <-] & _); reflexivity).
    simpl in H. contradiction.
  - intros env id b Hstaff Hin Hid Hpending db'.
    destruct (updateStatus_rows env id confirmed db b Hstaff Hin Hid) as [Hnew Hall].
    fold db' in Hnew, Hall. split.
    + apply (Hmem db' confirmed). split; [exact Hnew | reflexivity].
    + intros b' Hb' Hid'. apply (Hmem db' pending) in Hb' as [Hb' Hs].
      rewrite (Hall b' Hb' Hid') in Hs. discriminate.
Qed.

Lemma fetchBookings_filters_and_orders_witness :
  map (fun r => bookings.status (fst r)) (fetchBookings None "pending" db_one) = [pending] /\
  In (bookings.set_status confirmed 2000 first_booking)
     (map fst (fetchBookings None "confirmed"
                 (fst (updateStatus staff_env "booking-1" confirmed db_one)))) /\
  (forall b', In b' (map fst (fetchBookings None "pending"
                                (fst (updateStatus staff_env "booking-1" confirmed db_one)))) ->
              bookings.id b' <> "booking-1").
Proof.
  split; [vm_compute; reflexivity |].
  apply (proj2 (proj2 (proj2 (proj2 (proj2 (fetchBookings_filters_and_orders None db_one)))))
           staff_env "booking-1" first_booking).
  - vm_compute. reflexivity.
  - now left.
  - reflexivity.
  - reflexivity.
Defined.

(** ** What an update leaves alone *)

(** Two rows that agree on every column but [status] and [updated_at]. *)
Definition only_status_differs (b b' : bookings.Row) : Prop :=
  bookings.id b' = bookings.id b /\
  bookings.customer_name b' = bookings.customer_name b /\
  bookings.customer_phone b' = bookings.customer_phone b /\
  bookings.van_id b' = bookings.van_id b /\
  bookings.start_date b' = bookings.start_date b /\
  bookings.end_date b' = bookings.end_date b /\
  bookings.pickup_location b' = bookings.pickup_location b /\
  bookings.pickup_time b' = bookings.pickup_time b /\
  bookings.total_price b' = bookings.total_price b /\
  bookings.notes b' = bookings.notes b /\
  bookings.booking_code b' = bookings.booking_code b /\
  bookings.created_at b' = bookings.created_at b.

Lemma only_status_differs_refl b : only_status_differs b b.
Proof. repeat split. Qed.

Lemma only_status_differs_set_status s t b :
  only_status_differs b (bookings.set_status s t b).
Proof. repeat split. Qed.

Lemma Forall2_map_r {A} (R : A -> A -> Prop) (f : A -> A) l :
  (forall a, R a (f a)) -> Forall2 R l (map f l).
Proof. intros H. induction l; simpl; constructor; auto. Qed.

Lemma updateStatus_frame env id s db :
  Forall2 only_status_differs (tbl_bookings db)
          (tbl_bookings (fst (updateStatus env id s db))) /\
  Forall2 (fun b b' => bookings.id b <> id -> b' = b)
          (tbl_bookings db) (tbl_bookings (fst (updateStatus env id s db))).
Proof.
  cbn [updateStatus fst update_booking_status tbl_bookings]. split.
  - apply Forall2_map_r. intros b.
    destruct (_ && _); [apply only_status_differs_set_status | apply only_status_differs_refl].
  - apply Forall2_map_r. intros b Hne.
    destruct (String.eqb_spec (bookings.id b) id) as [E | _]; [contradiction | reflexivity].
Qed.

(** C9.  [updateStatus] changes, in the rows of the given id, the status
    and the last-update timestamp and nothing else: total price, booking
    code, dates, customer fields, pickup fields, notes, van reference, id and
    creation time of every booking stay as they were, rows of other ids stay
    untouched, and so do the vans and profiles.  Saving a van, its daily
    rate included, leaves the bookings table as it was; along any operation
    of the application every stored booking keeps its total price and all
    these columns, new bookings being added after them. *)
Theorem updateStatus_changes_status_only env id s db :
  let db' := fst (updateStatus env id s db) in
  Forall2 only_status_differs (tbl_bookings db) (tbl_bookings db') /\
  Forall2 (fun b b' => bookings.id b <> id -> b' = b) (tbl_bookings db) (tbl_bookings db') /\
  tbl_vans db' = tbl_vans db /\ tbl_profiles db' = tbl_profiles db /\
  (forall env' editingVan p db1,
      handleSave env' editingVan p db = inr db1 -> tbl_bookings db1 = tbl_bookings db) /\
  (forall db2,
      step db db2 ->
      exists kept added,
        tbl_bookings db2 = (kept ++ added)%list /\
        Forall2 only_status_differs (tbl_bookings db) kept).
Proof.
  intros db'. subst db'.
  destruct (updateStatus_frame env id s db) as [H1 H2].
  split; [exact H1 | split; [exact H2 | split; [reflexivity | split; [reflexivity | split]]]].
  - intros env' ev p db1. apply handleSave_bookings.
  - intros db2 Hstep.
    destruct Hstep as [env' st | env' id' s' | env' ev p db2 Hsave | env' van].
    + destruct (handleSubmit env' st db) as [db3 r] eqn:E. cbn [fst].
      destruct (handleSubmit_inv _ _ _ _ _ E)
        as [[-> _] | (van & sd & ed & row & _ & _ & _ & _ & _ & _ & Hins)].
      * exists (tbl_bookings db), []. rewrite app_nil_r. split; [reflexivity |].
        rewrite <- (map_id (tbl_bookings db)) at 2.
        apply Forall2_map_r, only_status_differs_refl.
      * destruct (insert_booking_inv _ _ _ _ _ Hins) as (c & _ & _ & _ & _ & _ & _ & ->).
        exists (tbl_bookings db), [row]. split; [reflexivity |].
        rewrite <- (map_id (tbl_bookings db)) at 2.
        apply Forall2_map_r, only_status_differs_refl.
    + exists (tbl_bookings (fst (updateStatus env' id' s' db))), [].
      rewrite app_nil_r. split; [reflexivity | apply updateStatus_frame].
    + exists (tbl_bookings db), []. rewrite app_nil_r.
      split; [now apply handleSave_bookings in Hsave |].
      rewrite <- (map_id (tbl_bookings db)) at 2.
      apply Forall2_map_r, only_status_differs_refl.
    + exists (tbl_bookings db), []. rewrite app_nil_r. split; [reflexivity |].
      rewrite <- (map_id (tbl_bookings db)) at 2.
      apply Forall2_map_r, only_status_differs_refl.
Qed.

(** The daily rate of the van is doubled after the first booking. *)
Definition doubled_rate : fleet.Payload :=
  fleet.mkPayload "City Cruiser" "Hyundai H-1 Premium 2023" 9 (baht 3600) "" ""
    (vans.mkFeatures false true false) available None.

Lemma updateStatus_changes_status_only_witness :
  exists db1,
    handleSave staff_env (Some city_cruiser) doubled_rate db_one = inr db1 /\
    map vans.price_per_day (tbl_vans db1) = [baht 3600] /\
    tbl_bookings db1 = tbl_bookings db_one /\
    map bookings.total_price (tbl_bookings (fst (updateStatus staff_env "booking-1" confirmed db1)))
    = [baht 5400].
Proof.
  eexists. split; [vm_compute; reflexivity |].
  split; [vm_compute; reflexivity |].
  split.
  - apply (proj1 (proj2 (proj2 (proj2 (proj2
             (updateStatus_changes_status_only staff_env "booking-1" confirmed db_one)))))
             staff_env (Some city_cruiser) doubled_rate).
    vm_compute. reflexivity.
  - vm_compute. reflexivity.
Defined.

(** * Further properties of the store *)

(** ** Keys *)

Definition booking_ids (db : Db) : list string := map bookings.id (tbl_bookings db).

Definition van_ids (db : Db) : list string := map vans.id (tbl_vans db).

(** The foreign key [bookings_van_id_fkey]: the van of every booking exists. *)
Definition van_exists (db : Db) (vid : string) : bool :=
  existsb (fun v => String.eqb (vans.id v) vid) (tbl_vans db).

Definition references_ok (db : Db) : Prop :=
  Forall (fun b => van_exists db (bookings.van_id b) = true) (tbl_bookings db).

Lemma existsb_on_map {A B} (f : A -> B) (g : B -> bool) l :
  existsb (fun a => g (f a)) l = existsb g (map f l).
Proof. induction l as [| a r IH]; simpl; congruence. Qed.

Lemma van_exists_by_ids db db' vid :
  van_ids db' = van_ids db -> van_exists db' vid = van_exists db vid.
Proof.
  unfold van_exists, van_ids. intros H.
  rewrite !(existsb_on_map vans.id (fun i => String.eqb i vid)). now rewrite H.
Qed.

Lemma update_vans_ids env id f db :
  (forall v, vans.id (f v) = vans.id v) ->
  van_ids (update_vans env id f db) = van_ids db.
Proof.
  intros Hf. unfold van_ids, update_vans. cbn [tbl_vans]. rewrite map_map.
  apply map_ext. intros v. destruct (_ && _); [apply Hf | reflexivity].
Qed.

Lemma id_not_in_iff rows i :
  existsb (fun b => String.eqb (bookings.id b) i) rows = false
  <-> ~ In i (map bookings.id rows).
Proof.
  induction rows as [| b r IH]; simpl; [tauto |].
  rewrite orb_false_iff, IH.
  destruct (String.eqb_spec (bookings.id b) i) as [E | Hne].
  - split; [intros [H _]; discriminate | intros H; exfalso; apply H; now left].
  - split; [intros [_ H] [E | E]; [contradiction | tauto] | intros H; split; tauto].
Qed.

Lemma handleSave_van_ids env editingVan p db db' :
  handleSave env editingVan p db = inr db' ->
  exists added, van_ids db' = (van_ids db ++ added)%list.
Proof.
  unfold handleSave. destruct (negb (numeric_10_2_fits _)); [discriminate |].
  destruct editingVan as [van |].
  - intros [= <-]. exists []. rewrite app_nil_r. now apply update_vans_ids.
  - destruct (negb (vans_insert_policy _ _ _)); [discriminate |].
    destruct (existsb _ _); [discriminate |]. intros [= <-].
    eexists. unfold van_ids. cbn [tbl_vans]. now rewrite map_app.
Qed.

Lemma van_exists_more db db' vid added :
  van_ids db' = (van_ids db ++ added)%list ->
  van_exists db vid = true -> van_exists db' vid = true.
Proof.
  unfold van_exists, van_ids. intros H.
  rewrite !(existsb_on_map vans.id (fun i => String.eqb i vid)), H, existsb_app.
  intros ->. reflexivity.
Qed.

(** X1.  The primary key of [bookings] is kept by every operation: if the
    ids of the stored bookings are distinct they stay distinct; a stored
    submission carries the request's fresh uuid, which no earlier booking
    has; and a submission whose uuid is already taken is never stored. *)
Theorem booking_ids_stay_distinct db :
  NoDup (booking_ids db) ->
  (forall db', step db db' -> NoDup (booking_ids db')) /\
  (forall env st db' row,
      handleSubmit env st db = (db', Booked row) ->
      bookings.id row = gen_random_uuid env /\ ~ In (bookings.id row) (booking_ids db)) /\
  (forall env st,
      In (gen_random_uuid env) (booking_ids db) ->
      fst (handleSubmit env st db) = db /\
      forall row, snd (handleSubmit env st db) <> Booked row).
Proof.
  intros Hnd.
  assert (Hfresh : forall env st db' row,
             handleSubmit env st db = (db', Booked row) ->
             bookings.id row = gen_random_uuid env /\
             ~ In (bookings.id row) (booking_ids db) /\
             db' = with_booking db row).
  { intros env st db' row H.
    destruct (handleSubmit_inv _ _ _ _ _ H)
      as [[_ Hno] | (van & sd & ed & row' & _ & _ & _ & _ & _ & Hr & Hins)];
      [exfalso; now apply (Hno row) |].
    injection Hr as <-.
    destruct (insert_booking_inv _ _ _ _ _ Hins) as (c & _ & _ & _ & Hpk & _ & Hrow & Hdb).
    assert (Hid : bookings.id row = gen_random_uuid env) by now rewrite Hrow.
    split; [exact Hid | split; [| now rewrite Hdb]].
    rewrite Hid. now apply id_not_in_iff. }
  split; [| split].
  - intros db' Hstep. destruct Hstep as [env st | env id s | env ev p db' Hsave | env van].
    + destruct (handleSubmit env st db) as [db1 r] eqn:E. cbn [fst].
      destruct r as [| | | e | row];
        try (destruct (handleSubmit_inv _ _ _ _ _ E) as [[-> _] | (? & ? & ? & ? & _ & _ & _ & _ & _ & Hr & _)];
             [exact Hnd | discriminate Hr]).
      destruct (Hfresh _ _ _ _ E) as (_ & Hnot & ->).
      unfold booking_ids, with_booking in *. cbn [tbl_bookings]. rewrite map_app.
      apply NoDup_app; [exact Hnd | repeat constructor; simpl; tauto |].
      intros x Hx [<- | []]. contradiction.
    + unfold booking_ids in *. cbn [updateStatus fst update_booking_status tbl_bookings].
      rewrite map_map. erewrite map_ext; [exact Hnd |].
      intros b. now destruct (_ && _).
    + unfold booking_ids in *. now rewrite (handleSave_bookings _ _ _ _ _ Hsave).
    + exact Hnd.
  - intros env st db' row H. destruct (Hfresh _ _ _ _ H) as (H1 & H2 & _). now split.
  - intros env st Htaken.
    destruct (handleSubmit env st db) as [db1 r] eqn:E. cbn [fst snd].
    destruct (handleSubmit_inv _ _ _ _ _ E)
      as [[-> Hno] | (van & sd & ed & row & _ & _ & _ & _ & _ & -> & _)];
      [now split |].
    destruct (Hfresh _ _ _ _ E) as (Hid & Hnot & _). rewrite Hid in Hnot. contradiction.
Qed.

Lemma booking_ids_stay_distinct_witness :
  NoDup (booking_ids db_one) /\
  bookings.id first_booking = gen_random_uuid customer_env /\
  ~ In (bookings.id first_booking) (booking_ids db_fresh).
Proof.
  assert (H1 : NoDup (booking_ids db_one)) by (repeat constructor; simpl; tauto).
  split; [exact H1 |].
  exact (proj1 (proj2 (booking_ids_stay_distinct db_fresh (NoDup_nil _)))
           customer_env three_days _ first_booking first_submission).
Defined.

(** X2.  Referential integrity is kept by every operation: if the van of
    every stored booking exists, this still holds after any submission,
    status update, van save or visibility toggle; and a submission for a van
    that is not in the table is never stored. *)
Theorem van_references_stay_valid db :
  references_ok db ->
  (forall db', step db db' -> references_ok db') /\
  (forall env van sd ed f,
      van_exists db (vans.id van) = false ->
      fst (handleSubmit env (mkIndexState (Some van) (Some sd) (Some ed) f) db) = db /\
      forall row,
        snd (handleSubmit env (mkIndexState (Some van) (Some sd) (Some ed) f) db) <> Booked row).
Proof.
  intros Hok. split.
  - intros db' Hstep. unfold references_ok in *.
    destruct Hstep as [env st | env id s | env ev p db' Hsave | env van].
    + destruct (handleSubmit env st db) as [db1 r] eqn:E. cbn [fst].
      destruct (handleSubmit_inv _ _ _ _ _ E)
        as [[-> _] | (van & sd & ed & row & _ & _ & _ & _ & _ & _ & Hins)]; [exact Hok |].
      destruct (insert_booking_inv _ _ _ _ _ Hins) as (c & _ & _ & _ & _ & Hfk & Hrow & ->).
      cbn [tbl_bookings]. apply Forall_app. split; [exact Hok |].
      constructor; [| constructor]. rewrite Hrow. exact Hfk.
    + cbn [updateStatus fst update_booking_status tbl_bookings].
      apply Forall_map. eapply Forall_impl; [| exact Hok].
      intros b Hb. now destruct (_ && _).
    + rewrite (handleSave_bookings _ _ _ _ _ Hsave).
      destruct (handleSave_van_ids _ _ _ _ _ Hsave) as [added Hids].
      eapply Forall_impl; [| exact Hok]. intros b. now apply (van_exists_more db db' _ added).
    + cbn [toggleStatus update_vans tbl_bookings].
      eapply Forall_impl; [| exact Hok]. intros b Hb.
      rewrite <- Hb. apply van_exists_by_ids. now apply update_vans_ids.
  - intros env van sd ed f Hmissing.
    destruct (handleSubmit env _ db) as [db1 r] eqn:E. cbn [fst snd].
    destruct (handleSubmit_inv _ _ _ _ _ E)
      as [[-> Hno] | (van' & sd' & ed' & row & Ev & _ & _ & _ & _ & _ & Hins)];
      [now split |].
    cbn [selectedVan] in Ev. injection Ev as <-.
    destruct (insert_booking_inv _ _ _ _ _ Hins) as (c & _ & _ & _ & _ & Hfk & _).
    cbn [bookings.i_van_id] in Hfk. unfold van_exists in Hmissing. congruence.
Qed.

Definition withdrawn_van : vans.Row :=
  vans.mkRow "van-9" "Old Shuttle" "Toyota Commuter 2015" 12 (baht 1500) None None
    (vans.mkFeatures false true false) hidden None 0 0.

Lemma van_references_stay_valid_witness :
  references_ok db_one /\
  fst (handleSubmit customer_env
         (mkIndexState (Some withdrawn_van) (Some (ymd 2025 6 10)) (Some (ymd 2025 6 13))
            (form three_days)) db_one) = db_one.
Proof.
  assert (H : references_ok db_one) by (repeat constructor).
  split; [exact H |].
  apply (proj2 (van_references_stay_valid db_one H)). reflexivity.
Defined.

(** ** Looking up what was stored *)

Lemma well_formed_code_normal c :
  well_formed_code c -> toUpperCase (trim c) = c /\ trim c <> EmptyString.
Proof.
  intros [Hlen Hchars].
  destruct (code_points_of_code c Hchars) as (Hd & He & Hall).
  assert (Hup : CodePoints.toUpperCase (codes c) = UTF8.decode c).
  { rewrite Hd. apply flat_map_fixed. intros x Hx. apply toUppercase_code.
    rewrite Forall_forall in Hall. now apply Hall. }
  destruct (normalize_padded [] (codes c) [] c Hchars eq_refl eq_refl Hup) as [Htrim Hnorm].
  cbn [app] in Htrim. rewrite app_nil_r, He in Htrim. rewrite He in Hnorm.
  rewrite Htrim. split; [exact Hnorm |]. intros ->. discriminate Hlen.
Qed.

(** The row a lookup shows when exactly one booking holds the normalized
    input as its code. *)
Lemma handleLookup_unique user s db b c :
  NoDup (map bookings.booking_code (tbl_bookings db)) ->
  In b (tbl_bookings db) -> bookings.booking_code b = Some c ->
  c <> EmptyString -> toUpperCase (trim s) = c ->
  handleLookup user s db = Found b (embed_van db user b).
Proof.
  intros Hnd Hin Hc Hne Hs. rewrite handleLookup_select.
  - now rewrite Hs, (filter_unique_code _ b c Hnd Hin Hc).
  - intros E. apply Hne. rewrite <- Hs, E. reflexivity.
Qed.

Lemma embed_van_staff db user b :
  is_staff_or_admin db user = true -> van_exists db (bookings.van_id b) = true ->
  exists v, embed_van db user b = Some v.
Proof.
  intros Hstaff Hex. unfold embed_van, van_exists in *.
  assert (Hsee : forall v, vans_select_policy db user v = true).
  { intros v. unfold vans_select_policy. now rewrite Hstaff, orb_true_r. }
  revert Hsee Hex. generalize (vans_select_policy db user) as p.
  induction (tbl_vans db) as [| v r IH]; simpl; intros p Hsee Hex; [discriminate |].
  rewrite Hsee, andb_true_r.
  destruct (String.eqb (vans.id v) (bookings.van_id b)); [eauto | now apply IH].
Qed.

(** X3.  The lookup does not depend on how the code was typed: an input, the
    same input upper-cased (as the input field does while typing) and its
    trimmed, upper-cased form all lead to the same outcome. *)
Theorem lookup_ignores_case_and_padding user s db :
  handleLookup user s db = handleLookup user (toUpperCase (trim s)) db /\
  handleLookup user (toUpperCase s) db = handleLookup user s db /\
  handleLookup user (trim s) db = handleLookup user s db.
Proof.
  assert (Hnorm : forall t, toUpperCase (trim t) = toUpperCase (trim s) ->
                            handleLookup user t db = handleLookup user s db).
  { intros t Ht. unfold handleLookup. rewrite Ht.
    destruct (String.eqb_spec (trim t) EmptyString) as [E | Hne];
      destruct (String.eqb_spec (trim s) EmptyString) as [E' | Hne']; try reflexivity.
    - exfalso. apply Hne'. apply toUpperCase_empty. rewrite <- Ht, E. reflexivity.
    - exfalso. apply Hne. apply toUpperCase_empty. rewrite Ht, E'. reflexivity. }
  split; [| split].
  - symmetry. apply Hnorm.
    now rewrite trim_toUpperCase, trim_idempotent, toUpperCase_idempotent.
  - apply Hnorm. now rewrite trim_toUpperCase, toUpperCase_idempotent.
  - apply Hnorm. now rewrite trim_idempotent.
Qed.

(** X4.  Submission and lookup round trip: in a store whose codes are well
    formed and unique, the code of a booking just stored was unknown before
    (the lookup answered "not found") and afterwards every input that
    normalizes to it shows exactly the stored row; staff also see its van. *)
Theorem submitted_booking_is_found env st db db' row :
  codes_ok (tbl_bookings db) ->
  handleSubmit env st db = (db', Booked row) ->
  exists c,
    bookings.booking_code row = Some c /\
    (forall user, handleLookup user c db = NotFound) /\
    (forall user s, toUpperCase (trim s) = c ->
                    handleLookup user s db' = Found row (embed_van db' user row)) /\
    (forall user, is_staff_or_admin db user = true ->
                  exists v, embed_van db' user row = Some v).
Proof.
  intros Hok H.
  destruct (handleSubmit_booked _ _ _ _ _ H) as (van & sd & ed & c & Hst & _ & _ & Hgen & Hrow & Hdb).
  destruct (generate_returns_first_free _ _ _ Hgen) as (_ & draw & _ & _ & _ & Hdraw & Hfree).
  assert (Hwf : well_formed_code c) by (rewrite Hdraw; apply candidate_well_formed).
  destruct (well_formed_code_normal c Hwf) as [Hnorm Hne].
  assert (Hcode : bookings.booking_code row = Some c) by now rewrite Hrow.
  assert (Hok' : codes_ok (tbl_bookings db')).
  { rewrite Hdb. cbn [with_booking tbl_bookings]. now apply (codes_ok_snoc _ _ c). }
  exists c. split; [exact Hcode | split; [| split]].
  - intros user. rewrite handleLookup_select by exact Hne. rewrite Hnorm.
    rewrite filter_none; [reflexivity |].
    intros b Hb. destruct (option_string_eqb _ c) eqn:E; [| reflexivity].
    apply option_string_eqb_true in E. apply code_exists_false_iff in Hfree.
    exfalso. apply Hfree. rewrite <- E. now apply in_map.
  - intros user s Hs. apply (handleLookup_unique user s db' row c); try assumption.
    + apply Hok'.
    + rewrite Hdb. cbn [with_booking tbl_bookings]. apply in_or_app. right. now left.
    + intros ->. now apply Hne.
  - intros user Hstaff.
    destruct (handleSubmit_inv _ _ _ _ _ H)
      as [[_ Hno] | (van' & sd' & ed' & row' & _ & _ & _ & _ & _ & Hr & Hins)];
      [exfalso; now apply (Hno row) |].
    injection Hr as <-.
    destruct (insert_booking_inv _ _ _ _ _ Hins) as (c' & _ & _ & _ & _ & Hfk & Hrow' & Hdb').
    apply embed_van_staff.
    + rewrite Hdb'. exact Hstaff.
    + rewrite Hdb', Hrow'. exact Hfk.
Qed.

Lemma submitted_booking_is_found_witness :
  exists c,
    bookings.booking_code first_booking = Some c /\
    (forall user, handleLookup user c db_fresh = NotFound) /\
    (forall user s, toUpperCase (trim s) = c ->
                    handleLookup user s db_one
                    = Found first_booking (embed_van db_one user first_booking)) /\
    (forall user, is_staff_or_admin db_fresh user = true ->
                  exists v, embed_van db_one user first_booking = Some v).
Proof.
  apply (submitted_booking_is_found customer_env three_days db_fresh).
  - split; constructor.
  - exact first_submission.
Defined.

(** X5.  A committed status change is what the customer sees: after staff
    set the status of a booking, looking up its code shows that booking with
    the new status, all its other columns and the same van details. *)
Theorem status_change_is_visible_to_lookup env s db b c :
  codes_ok (tbl_bookings db) ->
  is_staff_or_admin db (auth_uid env) = true ->
  In b (tbl_bookings db) -> bookings.booking_code b = Some c ->
  forall user,
    handleLookup user c (fst (updateStatus env (bookings.id b) s db))
    = Found (bookings.set_status s (pg_now env) b) (embed_van db user b).
Proof.
  intros Hok Hstaff Hin Hc user.
  assert (Hwf : well_formed_code c).
  { destruct Hok as [Hall _]. rewrite Forall_forall in Hall.
    destruct (Hall b Hin) as (c' & Hc' & Hs). congruence. }
  destruct (well_formed_code_normal c Hwf) as [Hnorm Hne].
  destruct (updateStatus_rows env (bookings.id b) s db b Hstaff Hin eq_refl) as [Hnew _].
  rewrite (handleLookup_unique user c _ (bookings.set_status s (pg_now env) b) c).
  - reflexivity.
  - cbn [updateStatus fst update_booking_status tbl_bookings].
    apply codes_ok_map; [| exact Hok]. intros x. now destruct (_ && _).
  - exact Hnew.
  - exact Hc.
  - intros ->. now apply Hne.
  - exact Hnorm.
Qed.

Lemma status_change_is_visible_to_lookup_witness :
  handleLookup None "D310CB" (fst (updateStatus staff_env "booking-1" confirmed db_one))
  = Found (bookings.set_status confirmed 2000 first_booking)
          (embed_van db_one None first_booking).
Proof.
  apply (status_change_is_visible_to_lookup staff_env confirmed db_one first_booking "D310CB").
  - exact (reachable_codes_ok _ db_one_reachable).
  - vm_compute. reflexivity.
  - now left.
  - reflexivity.
Defined.

(** ** The language of the phone pattern *)

Lemma string_split_at n s :
  (n <= String.length s)%nat ->
  exists pre r, s = (pre ++ r)%string /\ String.length pre = n.
Proof.
  revert s. induction n as [| n IH]; intros s Hn.
  - exists EmptyString, s. split; reflexivity.
  - destruct s as [| c s']; [simpl in Hn; lia |].
    destruct (IH s') as (pre & r & -> & Hlen); [simpl in Hn; lia |].
    exists (String c pre), r. split; [reflexivity | simpl; now rewrite Hlen].
Qed.

Lemma string_length_app a b : String.length (a ++ b) = (String.length a + String.length b)%nat.
Proof. induction a as [| c r IH]; simpl; congruence. Qed.

Lemma m_times_class n p s k :
  m_times n (m_class p) s k = true <->
  exists pre r, s = (pre ++ r)%string /\ String.length pre = n /\
                string_forallb p pre = true /\ k r = true.
Proof.
  revert s. induction n as [| n IH]; intros s; cbn [m_times].
  - unfold m_empty. split.
    + intros H. exists EmptyString, s. auto.
    + intros (pre & r & -> & Hlen & _ & Hk). destruct pre; [exact Hk | discriminate].
  - unfold m_seq, m_class. destruct s as [| c s'].
    + split; [discriminate |].
      intros (pre & r & E & Hlen & _). destruct pre; discriminate.
    + rewrite andb_true_iff, IH. split.
      * intros (Hc & pre & r & -> & Hlen & Hall & Hk).
        exists (String c pre), r. simpl. rewrite Hc, Hall, Hlen. auto.
      * intros (pre & r & E & Hlen & Hall & Hk).
        destruct pre as [| d pre']; [discriminate |].
        simpl in E, Hlen, Hall. injection E as <- ->.
        apply andb_true_iff in Hall as [Hc Hall].
        split; [exact Hc |]. exists pre', r. auto.
Qed.

Lemma m_optional_class p s k :
  m_upto 1 (m_class p) s k = true <->
  k s = true \/ exists c r, s = String c r /\ p c = true /\ k r = true.
Proof.
  cbn [m_upto]. unfold m_alt, m_seq, m_empty, m_class. rewrite orb_true_iff.
  destruct s as [| c r].
  - split; [intros [H | H]; [discriminate | now left] | intros [H | (c & r & E & _)]; [now right | discriminate]].
  - rewrite andb_true_iff. split.
    + intros [[Hc Hk] | Hk]; [right; eauto | now left].
    + intros [Hk | (c' & r' & [= <- <-] & Hc & Hk)]; [now right | now left].
Qed.

Lemma mobile_prefix_is_area_prefix c : one_of "689" c = true -> in_range "2" "9" c = true.
Proof. by_ascii_cases c. Qed.

Lemma one_of_zero c : one_of "0" c = true <-> c = "0"%char.
Proof.
  destruct c as [[] [] [] [] [] [] [] []]; vm_compute; split; congruence.
Qed.

(** X6.  The phone pattern accepts exactly the strings made of a 0, a digit
    from 2 to 9 and seven or eight further digits; the first alternative of
    the pattern (ten digits beginning 06, 08 or 09) accepts nothing that the
    second does not. *)
Theorem phoneRegex_language s :
  phoneRegex_test s = true <->
  exists c rest,
    s = String "0" (String c rest) /\ in_range "2" "9" c = true /\
    string_forallb is_digit rest = true /\
    (String.length rest = 7%nat \/ String.length rest = 8%nat).
Proof.
  unfold phoneRegex_test, test_anchored, phoneRegex, m_between, m_alt. split.
  - intros H. apply orb_true_iff in H as [H | H];
      unfold m_seq at 1 2 in H; unfold m_class at 1 2 in H;
      destruct s as [| z s1]; try discriminate H;
      apply andb_true_iff in H as [Hz H]; apply one_of_zero in Hz; subst z;
      destruct s1 as [| c rest]; try discriminate H;
      apply andb_true_iff in H as [Hc H]; exists c, rest.
    + apply m_times_class in H as (pre & r & -> & Hlen & Hall & Hr).
      apply String.eqb_eq in Hr. subst r. rewrite string_app_nil.
      split; [reflexivity | split; [now apply mobile_prefix_is_area_prefix |]].
      split; [exact Hall | right; exact Hlen].
    + unfold m_seq in H. apply m_times_class in H as (pre & r & -> & Hlen & Hall & Hr).
      change (8 - 7)%nat with 1%nat in Hr.
      apply m_optional_class in Hr as [Hr | (d & r' & -> & Hd & Hr)];
        apply String.eqb_eq in Hr; subst.
      * rewrite string_app_nil. auto.
      * split; [reflexivity | split; [exact Hc |]].
        rewrite string_forallb_app, string_length_app, Hall, Hlen. simpl. rewrite Hd. auto.
  - intros (c & rest & -> & Hc & Hall & Hlen).
    apply orb_true_iff. right.
    unfold m_seq at 1 2. unfold m_class at 1 2.
    rewrite (proj2 (one_of_zero "0") eq_refl), Hc. cbn [andb].
    unfold m_seq. apply m_times_class.
    destruct (string_split_at 7 rest) as (pre & r & -> & Hpre); [lia |].
    rewrite string_forallb_app in Hall. apply andb_true_iff in Hall as [Hall1 Hall2].
    rewrite string_length_app, Hpre in Hlen.
    exists pre, r. split; [reflexivity | split; [exact Hpre | split; [exact Hall1 |]]].
    change (8 - 7)%nat with 1%nat. apply m_optional_class.
    destruct r as [| d [| e r']]; simpl in Hlen; try lia.
    + now left.
    + right. exists d, EmptyString. simpl in Hall2. rewrite andb_true_r in Hall2. auto.
Qed.

Lemma phoneRegex_language_witness :
  phoneRegex_test "021234567" = true /\ phoneRegex_test "0112345678" = false.
Proof.
  split.
  - apply (proj2 (phoneRegex_language "021234567")).
    exists "2"%char, "1234567". repeat split. now left.
  - destruct (phoneRegex_test "0112345678") eqn:E; [| reflexivity].
    apply (proj1 (phoneRegex_language "0112345678")) in E
      as (c & rest & [= <- <-] & Hc & _). discriminate Hc.
Defined.

(** ** Submissions *)

(** X7.  Separators in the phone never matter: a submission with the phone
    as typed and the same submission with hyphens and whitespace already
    removed have the same outcome and leave the same store. *)
Theorem submission_ignores_phone_separators env van sd ed n p pk t o db :
  handleSubmit env (mkIndexState van sd ed (mkForm n p pk t o)) db
  = handleSubmit env (mkIndexState van sd ed (mkForm n (strip_separators p) pk t o)) db.
Proof.
  unfold handleSubmit, days, totalPrice.
  cbn [selectedVan startDate endDate form phone name pickup pickupTime notes].
  now rewrite strip_separators_idempotent.
Qed.

(** X8.  A submission with a van and both dates chosen is stored exactly
    when the phone, stripped of every hyphen and every whitespace character
    (the no-break space and the other space separators included), matches
    the pattern, the dates are at least one day apart, the total fits the
    price column, some draw yields a free code, the row id is fresh and the
    van exists.  The stored row is then
    the only change: it is pending, stamped with the time of the request,
    holds the first free candidate as its code, and has NULL for an empty
    pickup time or empty notes; in every other case the store is left as it
    was. *)
Theorem submission_is_stored_exactly_when env van sd ed f db :
  let st := mkIndexState (Some van) (Some sd) (Some ed) f in
  ((exists row, snd (handleSubmit env st db) = Booked row) <->
   phoneRegex_test (strip_separators (phone f)) = true /\
   1 <= differenceInDays ed sd /\
   numeric_10_2_fits (differenceInDays ed sd * vans.price_per_day van) = true /\
   Exists (fun r => code_exists (tbl_bookings db) (candidate r) = false) (random_text env) /\
   ~ In (gen_random_uuid env) (booking_ids db) /\
   van_exists db (vans.id van) = true) /\
  (forall row,
      snd (handleSubmit env st db) = Booked row ->
      fst (handleSubmit env st db) = with_booking db row /\
      bookings.status row = pending /\ bookings.van_id row = vans.id van /\
      bookings.created_at row = pg_now env /\ bookings.updated_at row = pg_now env /\
      bookings.pickup_time row = or_null (pickupTime f) /\
      bookings.notes row = or_null (notes f) /\
      generate_booking_code (random_text env) (tbl_bookings db) = bookings.booking_code row) /\
  ((forall row, snd (handleSubmit env st db) <> Booked row) ->
   fst (handleSubmit env st db) = db).
Proof.
  intros st.
  destruct (handleSubmit env st db) as [db1 r] eqn:E. cbn [fst snd].
  split; [split | split].
  - intros [row ->].
    destruct (handleSubmit_inv _ _ _ _ _ E)
      as [[_ Hno] | (van' & sd' & ed' & row' & Ev & Es & Ee & Hphone & Hdays & Hr & Hins)];
      [exfalso; now apply (Hno row) |].
    cbn [st selectedVan startDate endDate] in Ev, Es, Ee.
    injection Ev as <-. injection Es as <-. injection Ee as <-.
    destruct (insert_booking_inv _ _ _ _ _ Hins) as (c & Hgen & _ & Hfit & Hpk & Hfk & _ & _).
    destruct (generate_returns_first_free _ _ _ Hgen) as (pre & d & post & Hrs & _ & Hd & Hfree).
    cbn [form phone] in Hphone. unfold days in Hdays. cbn [st startDate endDate] in Hdays.
    unfold totalPrice, days in Hfit.
    cbn [st selectedVan startDate endDate bookings.i_total_price] in Hfit.
    repeat split; try assumption.
    + rewrite Hrs. apply Exists_app. right. constructor. now rewrite <- Hd.
    + now apply id_not_in_iff.
  - intros (Hphone & Hdays & Hfit & Hfree & Hpk & Hfk).
    destruct (generate_exits _ _ Hfree) as [c Hgen].
    apply id_not_in_iff in Hpk.
    pose proof (handleSubmit_books env van sd ed f db c Hphone Hdays Hfit Hgen Hpk Hfk) as H.
    cbn zeta in H. fold st in H. rewrite E in H. injection H as _ ->. eauto.
  - intros row ->.
    destruct (handleSubmit_booked _ _ _ _ _ E) as (van' & sd' & ed' & c & Hst & _ & _ & Hgen & Hrow & ->).
    cbn [st form] in Hst. injection Hst as <- <- <-.
    rewrite Hrow, Hgen. repeat split.
  - intros Hno.
    destruct (handleSubmit_inv _ _ _ _ _ E)
      as [[-> _] | (? & ? & ? & row & _ & _ & _ & _ & _ & -> & _)]; [reflexivity |].
    exfalso. now apply (Hno row).
Qed.

Lemma submission_is_stored_exactly_when_witness :
  exists row,
    snd (handleSubmit customer_env spaced_submission db_fresh) = Booked row.
Proof.
  apply (proj2 (proj1 (submission_is_stored_exactly_when customer_env city_cruiser
                         (ymd 2025 6 10) (ymd 2025 6 13) (form spaced_submission) db_fresh))).
  repeat split; try (vm_compute; reflexivity).
  - vm_compute. discriminate.
  - constructor. vm_compute. reflexivity.
  - simpl. tauto.
Defined.

(** ** Status updates *)

Lemma map_fixed {A} (f : A -> A) l : (forall a, In a l -> f a = a) -> map f l = l.
Proof.
  intros H. induction l as [| a r IH]; simpl; [reflexivity |].
  rewrite (H a) by now left. f_equal. apply IH. intros x Hx. apply H. now right.
Qed.

(** X9.  A caller whom the update policy does not admit changes nothing in
    the store, whatever booking and status the request names; and when it
    names a stored booking the request is still answered without an error,
    so that the page shows the "Status Updated" toast although the booking
    is as it was. *)
Theorem updateStatus_without_effect env s db :
  is_staff_or_admin db (auth_uid env) = false ->
  (forall id, fst (updateStatus env id s db) = db) /\
  (forall b, In b (tbl_bookings db) ->
             updateStatus env (bookings.id b) s db = (db, StatusUpdated s) /\
             In b (tbl_bookings (fst (updateStatus env (bookings.id b) s db)))).
Proof.
  intros Hroles.
  assert (Hsame : forall id, update_booking_status env id s db = db).
  { intros id. unfold update_booking_status.
    destruct db as [ps vs bs]. cbn [tbl_profiles tbl_vans tbl_bookings]. f_equal.
    apply map_fixed. intros b Hb. unfold bookings_update_policy, bookings_select_policy.
    rewrite Hroles. now rewrite andb_false_r. }
  split.
  - intros id. unfold updateStatus. cbn [fst]. apply Hsame.
  - intros b Hb. unfold updateStatus. cbn [fst]. rewrite Hsame. now split.
Qed.

Lemma updateStatus_without_effect_witness :
  is_staff_or_admin db_one (auth_uid customer_env) = false /\
  updateStatus customer_env (bookings.id first_booking) cancelled db_one
  = (db_one, StatusUpdated cancelled).
Proof.
  split; [reflexivity |].
  apply (proj2 (updateStatus_without_effect customer_env cancelled db_one eq_refl) first_booking).
  now left.
Defined.

(** What an update does to one row, given whether the policy admits the
    caller. *)
Definition touch (admitted : bool) (id : string) (s : booking_status) (t : Z)
  (b : bookings.Row) : bookings.Row :=
  if String.eqb (bookings.id b) id && true && admitted
  then bookings.set_status s t b else b.

Lemma update_booking_status_rows env id s db :
  tbl_bookings (update_booking_status env id s db)
  = map (touch (is_staff_or_admin db (auth_uid env)) id s (pg_now env)) (tbl_bookings db).
Proof. reflexivity. Qed.

Lemma touch_commute g1 g2 id1 id2 s1 s2 t1 t2 b :
  id1 <> id2 ->
  touch g2 id2 s2 t2 (touch g1 id1 s1 t1 b) = touch g1 id1 s1 t1 (touch g2 id2 s2 t2 b).
Proof.
  intros Hne. unfold touch.
  destruct (String.eqb (bookings.id b) id1) eqn:E1;
    destruct (String.eqb (bookings.id b) id2) eqn:E2;
    destruct g1, g2; cbn [andb]; cbn [bookings.id bookings.set_status];
    rewrite ?E1, ?E2; cbn [andb]; try reflexivity;
    apply String.eqb_eq in E1, E2; congruence.
Qed.

Lemma touch_overrides g1 id s1 s2 t1 t2 b :
  touch true id s2 t2 (touch g1 id s1 t1 b) = touch true id s2 t2 b.
Proof.
  unfold touch.
  destruct (String.eqb (bookings.id b) id) eqn:E; destruct g1; cbn [andb];
    cbn [bookings.id bookings.set_status]; rewrite ?E; reflexivity.
Qed.

(** X10.  Updates of two different bookings commute, and of two updates of
    the same booking the later one, from an admitted caller, decides alone:
    the store is as if the earlier update had never happened. *)
Theorem updateStatus_last_writer_wins env1 env2 id1 id2 s1 s2 db :
  (id1 <> id2 ->
   fst (updateStatus env2 id2 s2 (fst (updateStatus env1 id1 s1 db)))
   = fst (updateStatus env1 id1 s1 (fst (updateStatus env2 id2 s2 db)))) /\
  (is_staff_or_admin db (auth_uid env2) = true ->
   fst (updateStatus env2 id1 s2 (fst (updateStatus env1 id1 s1 db)))
   = fst (updateStatus env2 id1 s2 db)).
Proof.
  cbn [updateStatus fst].
  assert (Hshape : forall env id s d,
             update_booking_status env id s d
             = mkDb (tbl_profiles d) (tbl_vans d)
                 (map (touch (is_staff_or_admin d (auth_uid env)) id s (pg_now env))
                      (tbl_bookings d))) by reflexivity.
  assert (Hroles : forall env id s d u,
             is_staff_or_admin (update_booking_status env id s d) u = is_staff_or_admin d u)
    by reflexivity.
  split.
  - intros Hne. rewrite (Hshape env2 id2 s2 (update_booking_status env1 id1 s1 db)).
    rewrite (Hshape env1 id1 s1 (update_booking_status env2 id2 s2 db)).
    rewrite !Hroles, !update_booking_status_rows, !map_map.
    f_equal. apply map_ext. intros b. now apply touch_commute.
  - intros Hstaff. rewrite (Hshape env2 id1 s2 (update_booking_status env1 id1 s1 db)).
    rewrite (Hshape env2 id1 s2 db).
    rewrite !Hroles, !update_booking_status_rows, !map_map, Hstaff.
    f_equal. apply map_ext. intros b. apply touch_overrides.
Qed.

Lemma updateStatus_last_writer_wins_witness :
  map bookings.status
    (tbl_bookings (fst (updateStatus staff_env "booking-1" completed
                          (fst (updateStatus staff_env "booking-1" confirmed db_one)))))
  = [completed].
Proof.
  rewrite (proj2 (updateStatus_last_writer_wins staff_env staff_env "booking-1" "booking-1"
                    confirmed completed db_one)); vm_compute; reflexivity.
Defined.

(** ** The buttons of the bookings page *)

(** The actions a row offers in the desktop table: "Confirm" and "Cancel"
    for a pending booking, "Complete" for a confirmed one; each calls
    [updateStatus] with the status listed. *)
Definition desktop_actions (s : booking_status) : list booking_status :=
  ((if booking_status_eqb s pending then [confirmed; cancelled] else [])
   ++ (if booking_status_eqb s confirmed then [completed] else []))%list.

(** The actions of a card in the mobile view. *)
Definition mobile_actions (s : booking_status) : list booking_status :=
  if booking_status_eqb s pending then [confirmed; cancelled] else [].

(** A run of button presses, each on the freshly fetched row. *)
Inductive presses (actions : booking_status -> list booking_status)
  : booking_status -> list booking_status -> booking_status -> Prop :=
| presses_none s : presses actions s [] s
| presses_more s t path u :
    In t (actions s) -> presses actions t path u -> presses actions s (t :: path) u.

Lemma presses_from_final a p b :
  presses desktop_actions a p b -> a = completed \/ a = cancelled -> p = [] /\ b = a.
Proof.
  intros Hp Ha. inversion Hp as [| a' t p' b' Hin Hrest]; subst; [now split |].
  exfalso. destruct Ha; subst; simpl in Hin; exact Hin.
Qed.

Lemma presses_from_confirmed p b :
  presses desktop_actions confirmed p b ->
  (p = [] /\ b = confirmed) \/ (p = [completed] /\ b = completed).
Proof.
  intros Hp. inversion Hp as [| a' t p' b' Hin Hrest]; subst; [now left |].
  simpl in Hin. destruct Hin as [<- | []]. right.
  destruct (presses_from_final _ _ _ Hrest (or_introl eq_refl)) as [-> ->]. now split.
Qed.

(** X11.  Through the buttons of the bookings page a booking goes from
    pending to confirmed or cancelled and from confirmed to completed, and
    nowhere else: a run of presses has at most two steps, never sets a
    booking to pending or proceed, and a completed, cancelled or proceed
    booking offers no button.  The mobile cards offer only what the table
    offers and never "Complete". *)
Theorem page_buttons_follow_the_lifecycle :
  (forall s path u,
      presses desktop_actions s path u ->
      (List.length path <= 2)%nat /\
      (path <> [] -> u = confirmed \/ u = completed \/ u = cancelled) /\
      (s <> pending -> (List.length path <= 1)%nat)) /\
  (forall s, s = completed \/ s = cancelled \/ s = proceed -> desktop_actions s = []) /\
  (forall s t, In t (mobile_actions s) -> In t (desktop_actions s) /\ t <> completed) /\
  (forall s path u, presses mobile_actions s path u -> (List.length path <= 1)%nat).
Proof.
  split; [| split; [| split]].
  - intros s path u H.
    inversion H as [| s' t path' u' Hin Hrest]; subst.
    + split; [simpl; lia | split; [intros Hne; now contradiction Hne | simpl; lia]].
    + destruct s; simpl in Hin.
      * destruct Hin as [<- | [<- | []]].
        -- destruct (presses_from_confirmed _ _ Hrest) as [[-> ->] | [-> ->]];
             (split; [simpl; lia | split; [auto | intros Hne; now contradiction Hne]]).
        -- destruct (presses_from_final _ _ _ Hrest (or_intror eq_refl)) as [-> ->].
           split; [simpl; lia | split; [auto | intros Hne; now contradiction Hne]].
      * destruct Hin as [<- | []].
        destruct (presses_from_final _ _ _ Hrest (or_introl eq_refl)) as [-> ->].
        split; [simpl; lia | split; [auto | simpl; lia]].
      * contradiction.
      * contradiction.
      * contradiction.
  - intros s [-> | [-> | ->]]; reflexivity.
  - intros s t Hin. destruct s; simpl in Hin; try contradiction.
    destruct Hin as [<- | [<- | []]]; split; simpl; auto; discriminate.
  - intros s path u H. inversion H as [| s' t path' u' Hin Hrest]; subst; [simpl; lia |].
    destruct s; simpl in Hin; try contradiction.
    destruct Hin as [<- | [<- | []]];
      (inversion Hrest as [| ? ? ? ? Hin' _]; subst; [simpl; lia | simpl in Hin'; contradiction]).
Qed.

Lemma page_buttons_follow_the_lifecycle_witness :
  (List.length [confirmed; completed] <= 2)%nat /\
  ([confirmed; completed] <> [] -> completed = confirmed \/ completed = completed \/ completed = cancelled) /\
  (pending <> pending -> (List.length [confirmed; completed] <= 1)%nat).
Proof.
  apply (proj1 page_buttons_follow_the_lifecycle pending [confirmed; completed] completed).
  apply presses_more; [now left |].
  apply presses_more; [now left |]. apply presses_none.
Defined.

(** ** Filters of the bookings page *)

Definition with_status (s : booking_status) (rows : list bookings.Row) : list bookings.Row :=
  filter (fun b => booking_status_eqb (bookings.status b) s) rows.

Ltac move_to_its_place :=
  first [ apply Permutation_middle
        | etransitivity;
          [apply Permutation_middle | apply Permutation_app_head; move_to_its_place] ].

Lemma status_partition rows :
  Permutation rows
    (with_status pending rows ++ with_status confirmed rows ++ with_status proceed rows
     ++ with_status completed rows ++ with_status cancelled rows)%list.
Proof.
  unfold with_status. induction rows as [| b r IH]; [reflexivity |].
  cbn [filter]. destruct (bookings.status b); cbn [booking_status_eqb app];
    rewrite IH at 1; first [reflexivity | move_to_its_place].
Qed.

(** X12.  The status filters split the bookings: the list for "all" is, up
    to order, the lists for pending, confirmed, proceed, completed and
    cancelled put together, so every booking is listed under exactly one
    status; a filter value that is neither "all" nor a status gives an empty
    list. *)
Theorem status_filters_partition_the_list user db :
  Permutation (map fst (fetchBookings user "all" db))
    (map fst (fetchBookings user "pending" db) ++ map fst (fetchBookings user "confirmed" db)
     ++ map fst (fetchBookings user "proceed" db) ++ map fst (fetchBookings user "completed" db)
     ++ map fst (fetchBookings user "cancelled" db))%list /\
  (forall f, String.eqb f "all" = false -> booking_status_of_label f = None ->
             fetchBookings user f db = []).
Proof.
  split.
  - rewrite fetchBookings_all.
    rewrite (fetchBookings_status user pending), (fetchBookings_status user confirmed),
      (fetchBookings_status user proceed), (fetchBookings_status user completed),
      (fetchBookings_status user cancelled).
    rewrite !order_perm. apply status_partition.
  - intros f Hall Hnone. unfold fetchBookings. now rewrite Hall, Hnone.
Qed.

(** ** The dashboard *)

Record Stats := mkStats {
  todayBookings : nat;
  pendingApprovals : nat;
  activeRentals : nat;
  totalRevenue : Z
}.

(** [revenueRes.data.reduce((sum, b) => sum + Number(b.total_price), 0)]. *)
Definition revenue (rows : list bookings.Row) : Z :=
  fold_left (fun sum b => sum + bookings.total_price b) rows 0.

(** [fetchData] of the dashboard: the four figures and the recent bookings.
    [today_start] is the timestamp the page builds from its clock, the
    midnight (UTC) that began the current day. *)
Definition fetchData (today_start : Z) (user : option string) (db : Db)
  : Stats * list (bookings.Row * option string) :=
  let visible := filter (bookings_select_policy db user) (tbl_bookings db) in
  (mkStats
     (List.length (filter (fun b => today_start <=? bookings.created_at b) visible))
     (List.length (filter (fun b => booking_status_eqb (bookings.status b) pending) visible))
     (List.length (filter (fun b => booking_status_eqb (bookings.status b) confirmed) visible))
     (revenue (filter (fun b => booking_status_eqb (bookings.status b) completed) visible)),
   firstn 8 (map (fun b => (b, option_map vs_name (embed_van db user b)))
                 (order_by_created_at_desc visible))).

Lemma visible_bookings db user :
  filter (bookings_select_policy db user) (tbl_bookings db) = tbl_bookings db.
Proof.
  unfold bookings_select_policy. induction (tbl_bookings db); simpl; congruence.
Qed.

Lemma revenue_from a rows :
  fold_left (fun sum b => sum + bookings.total_price b) rows a = a + revenue rows.
Proof.
  unfold revenue. revert a. induction rows as [| b r IH]; intros a; cbn [fold_left]; [lia |].
  rewrite (IH (a + bookings.total_price b)), (IH (0 + bookings.total_price b)). lia.
Qed.

Lemma revenue_app l1 l2 : revenue (l1 ++ l2) = revenue l1 + revenue l2.
Proof. unfold revenue at 1. rewrite fold_left_app. fold (revenue l1). apply revenue_from. Qed.

Lemma revenue_cons b l : revenue (b :: l) = bookings.total_price b + revenue l.
Proof. unfold revenue at 1. simpl. apply revenue_from. Qed.

Definition indicator (c : bool) : nat := if c then 1%nat else 0%nat.

Lemma with_status_length_middle k l1 b l2 :
  List.length (with_status k (l1 ++ b :: l2))
  = (List.length (with_status k l1) + indicator (booking_status_eqb (bookings.status b) k)
     + List.length (with_status k l2))%nat.
Proof.
  unfold with_status. rewrite filter_app, length_app. cbn [filter].
  destruct (booking_status_eqb _ k); simpl; lia.
Qed.

Lemma with_status_revenue_middle k l1 b l2 :
  revenue (with_status k (l1 ++ b :: l2))
  = revenue (with_status k l1)
    + (if booking_status_eqb (bookings.status b) k then bookings.total_price b else 0)
    + revenue (with_status k l2).
Proof.
  unfold with_status. rewrite filter_app, revenue_app. cbn [filter].
  destruct (booking_status_eqb _ k); [rewrite revenue_cons |]; lia.
Qed.

(** With distinct ids, an admitted update rewrites one row in place. *)
Lemma updateStatus_in_place env s db b :
  NoDup (booking_ids db) -> is_staff_or_admin db (auth_uid env) = true ->
  In b (tbl_bookings db) ->
  exists l1 l2,
    tbl_bookings db = (l1 ++ b :: l2)%list /\
    tbl_bookings (fst (updateStatus env (bookings.id b) s db))
    = (l1 ++ bookings.set_status s (pg_now env) b :: l2)%list.
Proof.
  intros Hnd Hstaff Hin. destruct (in_split _ _ Hin) as (l1 & l2 & E).
  exists l1, l2. split; [exact E |].
  cbn [updateStatus fst]. rewrite update_booking_status_rows, Hstaff, E.
  unfold booking_ids in Hnd. rewrite E, map_app in Hnd. cbn [map] in Hnd.
  assert (Hother : forall x, In x l1 \/ In x l2 -> bookings.id x <> bookings.id b).
  { intros x Hx Hid. apply NoDup_remove_2 in Hnd. apply Hnd. rewrite <- Hid.
    apply in_or_app. destruct Hx; [left | right]; now apply in_map. }
  rewrite map_app. cbn [map]. f_equal; [| f_equal].
  - apply map_fixed. intros x Hx. unfold touch.
    destruct (String.eqb_spec (bookings.id x) (bookings.id b)) as [Hid | _]; [| reflexivity].
    exfalso. apply (Hother x); auto.
  - unfold touch. now rewrite String.eqb_refl.
  - apply map_fixed. intros x Hx. unfold touch.
    destruct (String.eqb_spec (bookings.id x) (bookings.id b)) as [Hid | _]; [| reflexivity].
    exfalso. apply (Hother x); auto.
Qed.

(** X13.  A stored submission shows on the dashboard as one more pending
    approval and, when it was made on or after the day's midnight, one more
    booking of today; active rentals and total revenue stay as they were. *)
Theorem dashboard_after_submission today user env st db db' row :
  handleSubmit env st db = (db', Booked row) ->
  let before := fst (fetchData today user db) in
  let after := fst (fetchData today user db') in
  pendingApprovals after = S (pendingApprovals before) /\
  activeRentals after = activeRentals before /\
  totalRevenue after = totalRevenue before /\
  todayBookings after
  = (todayBookings before + indicator (Z.leb today (pg_now env)))%nat.
Proof.
  intros H.
  destruct (handleSubmit_booked _ _ _ _ _ H) as (van & sd & ed & c & _ & _ & _ & _ & -> & ->).
  cbn zeta. unfold fetchData. cbn [fst pendingApprovals activeRentals totalRevenue todayBookings].
  rewrite !visible_bookings. cbn [with_booking tbl_bookings].
  rewrite !filter_app, !length_app, revenue_app.
  cbn [filter new_row submit_payload bookings.status bookings.i_status booking_status_eqb
       bookings.created_at List.length revenue fold_left].
  repeat split; try lia.
  destruct (today <=? pg_now env); simpl; lia.
Qed.

Lemma dashboard_after_submission_witness :
  pendingApprovals (fst (fetchData 0 None db_one))
  = S (pendingApprovals (fst (fetchData 0 None db_fresh))) /\
  activeRentals (fst (fetchData 0 None db_one)) = activeRentals (fst (fetchData 0 None db_fresh)) /\
  totalRevenue (fst (fetchData 0 None db_one)) = totalRevenue (fst (fetchData 0 None db_fresh)) /\
  todayBookings (fst (fetchData 0 None db_one))
  = (todayBookings (fst (fetchData 0 None db_fresh))
     + indicator (Z.leb 0 (pg_now customer_env)))%nat.
Proof.
  exact (dashboard_after_submission 0 None customer_env three_days db_fresh db_one
           first_booking first_submission).
Defined.

(** X14.  The dashboard figures follow a status change of a booking with
    a unique id: the count of its old status loses one and the count of the
    new status gains one (pending approvals count pending bookings, active
    rentals count confirmed ones), and total revenue loses the booking's
    total if it was completed and gains it if it now is; so completing a
    confirmed booking moves it from the active rentals into the revenue. *)
Theorem dashboard_after_status_change today user env s db b :
  NoDup (booking_ids db) -> is_staff_or_admin db (auth_uid env) = true ->
  In b (tbl_bookings db) ->
  let before := fst (fetchData today user db) in
  let after := fst (fetchData today user (fst (updateStatus env (bookings.id b) s db))) in
  (pendingApprovals after + indicator (booking_status_eqb (bookings.status b) pending)
   = pendingApprovals before + indicator (booking_status_eqb s pending))%nat /\
  (activeRentals after + indicator (booking_status_eqb (bookings.status b) confirmed)
   = activeRentals before + indicator (booking_status_eqb s confirmed))%nat /\
  totalRevenue after
  + (if booking_status_eqb (bookings.status b) completed then bookings.total_price b else 0)
  = totalRevenue before
    + (if booking_status_eqb s completed then bookings.total_price b else 0) /\
  todayBookings after = todayBookings before.
Proof.
  intros Hnd Hstaff Hin.
  destruct (updateStatus_in_place env s db b Hnd Hstaff Hin) as (l1 & l2 & E & E').
  cbn zeta. unfold fetchData. cbn [fst pendingApprovals activeRentals totalRevenue todayBookings].
  rewrite !visible_bookings, E, E'.
  fold (with_status pending (l1 ++ b :: l2)) (with_status confirmed (l1 ++ b :: l2))
       (with_status completed (l1 ++ b :: l2)).
  fold (with_status pending (l1 ++ bookings.set_status s (pg_now env) b :: l2))
       (with_status confirmed (l1 ++ bookings.set_status s (pg_now env) b :: l2))
       (with_status completed (l1 ++ bookings.set_status s (pg_now env) b :: l2)).
  rewrite !with_status_length_middle, !with_status_revenue_middle.
  cbn [bookings.status bookings.set_status bookings.total_price].
  split; [lia | split; [lia | split; [lia |]]].
  rewrite !filter_app, !length_app. cbn [filter].
  change (bookings.created_at (bookings.set_status s (pg_now env) b))
    with (bookings.created_at b).
  destruct (today <=? bookings.created_at b); reflexivity.
Qed.

Definition db_confirmed : Db := fst (updateStatus staff_env "booking-1" confirmed db_one).

Lemma dashboard_after_status_change_witness :
  let b := bookings.set_status confirmed 2000 first_booking in
  let before := fst (fetchData 0 None db_confirmed) in
  let after :=
    fst (fetchData 0 None (fst (updateStatus staff_env (bookings.id b) completed db_confirmed))) in
  (pendingApprovals after + indicator (booking_status_eqb (bookings.status b) pending)
   = pendingApprovals before + indicator (booking_status_eqb completed pending))%nat /\
  (activeRentals after + indicator (booking_status_eqb (bookings.status b) confirmed)
   = activeRentals before + indicator (booking_status_eqb completed confirmed))%nat /\
  totalRevenue after
  + (if booking_status_eqb (bookings.status b) completed then bookings.total_price b else 0)
  = totalRevenue before
    + (if booking_status_eqb completed completed then bookings.total_price b else 0) /\
  todayBookings after = todayBookings before.
Proof.
  apply (dashboard_after_status_change 0 None staff_env completed db_confirmed
           (bookings.set_status confirmed 2000 first_booking)).
  - repeat constructor. simpl. tauto.
  - vm_compute. reflexivity.
  - left. reflexivity.
Defined.

Lemma sorted_app_order {A} (R : A -> A -> Prop) l1 l2 :
  StronglySorted R (l1 ++ l2) -> forall a b, In a l1 -> In b l2 -> R a b.
Proof.
  induction l1 as [| x r IH]; simpl; intros Hs a b Ha Hb; [contradiction |].
  inversion Hs as [| ? ? Hrest Hall]; subst. destruct Ha as [<- | Ha].
  - rewrite Forall_forall in Hall. apply Hall. apply in_or_app. now right.
  - now apply IH.
Qed.

(** X15.  The "Recent Bookings" of the dashboard are the first eight rows
    of the bookings page under the filter "all": at most eight, all of them
    when there are fewer, and no booking left out was created later than one
    that is shown. *)
Theorem dashboard_shows_the_latest_eight today user db :
  let recent := map fst (snd (fetchData today user db)) in
  recent = firstn 8 (map fst (fetchBookings user "all" db)) /\
  List.length recent = Nat.min 8 (List.length (tbl_bookings db)) /\
  (forall b b', In b recent -> In b' (tbl_bookings db) -> ~ In b' recent ->
                bookings.created_at b' <= bookings.created_at b).
Proof.
  cbn zeta. unfold fetchData. cbn [snd]. rewrite visible_bookings.
  assert (Hrecent : map fst (firstn 8 (map (fun b => (b, option_map vs_name (embed_van db user b)))
                                          (order_by_created_at_desc (tbl_bookings db))))
                    = firstn 8 (order_by_created_at_desc (tbl_bookings db))).
  { rewrite <- firstn_map, map_map. cbn [fst]. now rewrite map_id. }
  rewrite Hrecent, fetchBookings_all. split; [reflexivity | split].
  - rewrite length_firstn. f_equal. apply Permutation_length, order_perm.
  - intros b b' Hb Hb' Hnot.
    pose proof (order_sorted (tbl_bookings db)) as Hs.
    rewrite <- (firstn_skipn 8 (order_by_created_at_desc (tbl_bookings db))) in Hs.
    apply (sorted_app_order _ _ _ Hs b b' Hb).
    apply (Permutation_in _ (Permutation_sym (order_perm _))) in Hb'.
    rewrite <- (firstn_skipn 8 (order_by_created_at_desc (tbl_bookings db))) in Hb'.
    apply in_app_or in Hb' as [Hb' | Hb']; [contradiction | exact Hb'].
Qed.

(** * The storefront gallery *)

Module van_images.

Record Row := mkRow {
  id : string;
  van_id : string;
  image_url : string;
  sort_order : Z;
  created_at : Z
}.

End van_images.

(** A van as the pages hold it: the row with its additional images. *)
Record Van := mkVan {
  van_row : vans.Row;
  images : list van_images.Row
}.

(** [[...(van.image_url ? [van.image_url] : []), ...van.images.map(img => img.image_url)]];
    an empty primary image counts as none. *)
Definition allImages (van : Van) : list string :=
  ((match vans.image_url (van_row van) with
    | Some u => if String.eqb u EmptyString then [] else [u]
    | None => []
    end) ++ map van_images.image_url (images van))%list.

(** The arrows of the carousel, on [n] images; [%] is the remainder that
    takes the sign of the dividend. *)
Definition carousel_previous (n c : Z) : Z := Z.rem (c - 1 + n) n.

Definition carousel_next (n c : Z) : Z := Z.rem (c + 1) n.

(** Everything the carousel lets a visitor do to the current index: the
    arrows and the dots are shown for more than one image only, and a dot
    sets the index of its image. *)
Inductive carousel_step (n : Z) : Z -> Z -> Prop :=
| carousel_left c : 1 < n -> carousel_step n c (carousel_previous n c)
| carousel_right c : 1 < n -> carousel_step n c (carousel_next n c)
| carousel_dot c i : 1 < n -> 0 <= i < n -> carousel_step n c i.

Inductive carousel_reaches (n : Z) : Z -> Prop :=
| carousel_start : carousel_reaches n 0
| carousel_then c c' : carousel_reaches n c -> carousel_step n c c' -> carousel_reaches n c'.

Lemma carousel_next_spec n c :
  0 <= c < n -> carousel_next n c = if c + 1 =? n then 0 else c + 1.
Proof.
  intros H. unfold carousel_next. rewrite Z.rem_mod_nonneg by lia.
  destruct (Z.eqb_spec (c + 1) n) as [-> | Hne].
  - apply Z_mod_same_full.
  - apply Z.mod_small. lia.
Qed.

Lemma carousel_previous_spec n c :
  0 <= c < n -> carousel_previous n c = if c =? 0 then n - 1 else c - 1.
Proof.
  intros H. unfold carousel_previous. rewrite Z.rem_mod_nonneg by lia.
  destruct (Z.eqb_spec c 0) as [-> | Hne].
  - replace (0 - 1 + n) with (n - 1) by lia. apply Z.mod_small. lia.
  - replace (c - 1 + n) with (c - 1 + 1 * n) by lia.
    rewrite Z_mod_plus_full. apply Z.mod_small. lia.
Qed.

(** X16.  The carousel always points at an existing image: with at least
    one image, whatever the visitor presses, the current index stays within
    the list, so [allImages[current]] is defined; the two arrows undo each
    other, and the right arrow on the last image returns to the first. *)
Theorem carousel_index_stays_valid (van : Van) :
  let n := Z.of_nat (List.length (allImages van)) in
  0 < n ->
  (forall c, carousel_reaches n c ->
             0 <= c < n /\ exists u, nth_error (allImages van) (Z.to_nat c) = Some u) /\
  (forall c, 0 <= c < n ->
             carousel_previous n (carousel_next n c) = c /\
             carousel_next n (carousel_previous n c) = c) /\
  carousel_next n (n - 1) = 0.
Proof.
  intros n Hn.
  assert (Hrange : forall c, carousel_reaches n c -> 0 <= c < n).
  { induction 1 as [| c c' _ IH Hstep]; [lia |].
    destruct Hstep as [c _ | c _ | c i _ Hi]; [| | exact Hi].
    - rewrite carousel_previous_spec by exact IH. destruct (c =? 0) eqn:E; lia.
    - rewrite carousel_next_spec by exact IH. destruct (c + 1 =? n) eqn:E; lia. }
  split; [| split].
  - intros c Hc. specialize (Hrange c Hc). split; [exact Hrange |].
    destruct (nth_error (allImages van) (Z.to_nat c)) as [u |] eqn:E; [eauto |].
    apply nth_error_None in E. subst n. lia.
  - intros c Hc. split.
    + rewrite carousel_next_spec by exact Hc.
      destruct (Z.eqb_spec (c + 1) n) as [E | Hne].
      * rewrite carousel_previous_spec by lia. simpl. lia.
      * rewrite carousel_previous_spec by lia.
        destruct (Z.eqb_spec (c + 1) 0); lia.
    + rewrite carousel_previous_spec by exact Hc.
      destruct (Z.eqb_spec c 0) as [E | Hne].
      * rewrite carousel_next_spec by lia.
        destruct (Z.eqb_spec (n - 1 + 1) n); lia.
      * rewrite carousel_next_spec by lia.
        destruct (Z.eqb_spec (c - 1 + 1) n); lia.
  - rewrite carousel_next_spec by lia. destruct (Z.eqb_spec (n - 1 + 1) n); lia.
Qed.

Definition two_image_van : Van :=
  mkVan city_cruiser [van_images.mkRow "img-1" "van-4" "https://example.org/side.jpg" 1 0].

Lemma carousel_index_stays_valid_witness :
  (0 <= 1 < 2 /\ exists u, nth_error (allImages two_image_van) (Z.to_nat 1) = Some u) /\
  carousel_next 2 (2 - 1) = 0.
Proof.
  destruct (carousel_index_stays_valid two_image_van) as (Hreach & _ & Hwrap); [reflexivity |].
  split; [| exact Hwrap].
  apply Hreach. apply (carousel_then _ 0 1); [apply carousel_start |].
  apply (carousel_right 2 0). reflexivity.
Defined.

(** ** Loading vans with their images *)

(** Policy "Anyone can view van images": [USING (true)]. *)
Definition van_images_select_policy (db : Db) (user : option string) (i : van_images.Row)
  : bool := true.

(** [ORDER BY sort_order], as an insertion sort. *)
Fixpoint insert_by_sort_order (i : van_images.Row) (l : list van_images.Row)
  : list van_images.Row :=
  match l with
  | [] => [i]
  | x :: r =>
      if van_images.sort_order i <=? van_images.sort_order x then i :: l
      else x :: insert_by_sort_order i r
  end.

Fixpoint order_by_sort_order (l : list van_images.Row) : list van_images.Row :=
  match l with
  | [] => []
  | i :: r => insert_by_sort_order i (order_by_sort_order r)
  end.

(** The object [imagesByVan]: each fetched image is pushed onto the array
    kept under its [van_id]; a key never written reads as no images
    ([imagesByVan[v.id] ?? []]). *)
Definition imagesByVan (imagesData : list van_images.Row) : string -> list van_images.Row :=
  fold_left (fun m img =>
               fun k => if String.eqb k (van_images.van_id img) then (m k ++ [img])%list
                        else m k)
            imagesData (fun _ => []).

(** The [load] effect of the storefront: the available vans, each with its
    images; the image query is skipped when there is no van. *)
Definition load (user : option string) (db : Db) (tbl_van_images : list van_images.Row)
  : list Van :=
  let vansRaw :=
    filter (fun v => van_status_eqb (vans.status v) available)
           (filter (vans_select_policy db user) (tbl_vans db)) in
  let vanIds := map vans.id vansRaw in
  match vanIds with
  | [] => map (fun v => mkVan v []) vansRaw
  | _ :: _ =>
      let imagesData :=
        order_by_sort_order
          (filter (fun i => existsb (String.eqb (van_images.van_id i)) vanIds)
                  (filter (van_images_select_policy db user) tbl_van_images)) in
      map (fun v => mkVan v (imagesByVan imagesData (vans.id v))) vansRaw
  end.

(** ** [fetchVans] of the fleet page: every van the caller may see, latest
    first, each with its images. *)

Fixpoint insert_van_desc (v : vans.Row) (l : list vans.Row) : list vans.Row :=
  match l with
  | [] => [v]
  | x :: r =>
      if vans.created_at x <=? vans.created_at v then v :: l
      else x :: insert_van_desc v r
  end.

Fixpoint vans_by_created_at_desc (l : list vans.Row) : list vans.Row :=
  match l with
  | [] => []
  | v :: r => insert_van_desc v (vans_by_created_at_desc r)
  end.

Definition fetchVans (user : option string) (db : Db) (tbl_van_images : list van_images.Row)
  : list Van :=
  let vansData := vans_by_created_at_desc (filter (vans_select_policy db user) (tbl_vans db)) in
  let imagesData :=
    order_by_sort_order (filter (van_images_select_policy db user) tbl_van_images) in
  map (fun v => mkVan v (imagesByVan imagesData (vans.id v))) vansData.

Definition by_sort_order (a b : van_images.Row) : Prop :=
  van_images.sort_order a <= van_images.sort_order b.

Lemma insert_by_sort_order_perm i l : Permutation (insert_by_sort_order i l) (i :: l).
Proof.
  induction l as [| x r IH]; simpl; [reflexivity |].
  destruct (_ <=? _); [reflexivity |]. rewrite IH. apply perm_swap.
Qed.

Lemma order_by_sort_order_perm l : Permutation (order_by_sort_order l) l.
Proof.
  induction l as [| i r IH]; simpl; [reflexivity |].
  rewrite insert_by_sort_order_perm. now constructor.
Qed.

Lemma insert_by_sort_order_sorted i l :
  Sorted by_sort_order l -> Sorted by_sort_order (insert_by_sort_order i l).
Proof.
  induction 1 as [| x r Hs IH Hhd]; simpl; [repeat constructor |].
  destruct (Z.leb_spec (van_images.sort_order i) (van_images.sort_order x)) as [Hle | Hgt].
  - constructor; [now constructor | constructor; exact Hle].
  - constructor; [exact IH |].
    destruct r as [| y r']; simpl.
    + constructor. unfold by_sort_order. lia.
    + destruct (_ <=? _); constructor; [unfold by_sort_order; lia |].
      now inversion Hhd.
Qed.

Lemma order_by_sort_order_sorted l : StronglySorted by_sort_order (order_by_sort_order l).
Proof.
  apply Sorted_StronglySorted.
  - intros a b c Hab Hbc. unfold by_sort_order in *. lia.
  - induction l as [| i r IH]; simpl; [constructor | now apply insert_by_sort_order_sorted].
Qed.

Lemma filter_sorted {A} (R : A -> A -> Prop) p l :
  StronglySorted R l -> StronglySorted R (filter p l).
Proof.
  induction 1 as [| a r Hs IH Hall]; simpl; [constructor |].
  destruct (p a); [| exact IH]. constructor; [exact IH |].
  rewrite Forall_forall in *. intros x Hx. apply filter_In in Hx as [Hx _]. now apply Hall.
Qed.

Lemma filter_permutation {A} (p : A -> bool) l l' :
  Permutation l l' -> Permutation (filter p l) (filter p l').
Proof.
  induction 1 as [| a l l' _ IH | a b l | l l' l'' _ IH1 _ IH2]; simpl.
  - constructor.
  - destruct (p a); [now constructor | exact IH].
  - destruct (p a), (p b); try reflexivity. apply perm_swap.
  - now transitivity (filter p l').
Qed.

(** What is read under a key is what was fetched for that van, in the order
    fetched. *)
Lemma imagesByVan_spec imagesData k :
  imagesByVan imagesData k
  = filter (fun i => String.eqb k (van_images.van_id i)) imagesData.
Proof.
  unfold imagesByVan.
  assert (H : forall l (m : string -> list van_images.Row),
             fold_left (fun m img =>
                          fun k => if String.eqb k (van_images.van_id img)
                                   then (m k ++ [img])%list else m k) l m k
             = (m k ++ filter (fun i => String.eqb k (van_images.van_id i)) l)%list).
  { induction l as [| i r IH]; intros m; simpl; [now rewrite app_nil_r |].
    rewrite IH. destruct (String.eqb k (van_images.van_id i)); [| reflexivity].
    now rewrite <- app_assoc. }
  now rewrite H.
Qed.

Lemma filter_all {A} (p : A -> bool) l : (forall a, p a = true) -> filter p l = l.
Proof.
  intros H. induction l as [| a r IH]; simpl; [reflexivity |]. now rewrite H, IH.
Qed.

Lemma filter_filter_implied {A} (p q : A -> bool) l :
  (forall a, p a = true -> q a = true) -> filter p (filter q l) = filter p l.
Proof.
  intros H. induction l as [| a r IH]; simpl; [reflexivity |].
  destruct (q a) eqn:Eq; simpl.
  - destruct (p a); [now f_equal | exact IH].
  - destruct (p a) eqn:Ep; [| exact IH]. apply H in Ep. congruence.
Qed.

Definition images_of (vid : string) (tbl_van_images : list van_images.Row)
  : list van_images.Row :=
  filter (fun i => String.eqb vid (van_images.van_id i)) tbl_van_images.

Definition newer_van_first (a b : vans.Row) : Prop := vans.created_at b <= vans.created_at a.

Lemma insert_van_desc_perm v l : Permutation (insert_van_desc v l) (v :: l).
Proof.
  induction l as [| x r IH]; simpl; [reflexivity |].
  destruct (_ <=? _); [reflexivity |]. rewrite IH. apply perm_swap.
Qed.

Lemma vans_by_created_at_desc_perm l : Permutation (vans_by_created_at_desc l) l.
Proof.
  induction l as [| v r IH]; simpl; [reflexivity |].
  rewrite insert_van_desc_perm. now constructor.
Qed.

Lemma insert_van_desc_sorted v l :
  Sorted newer_van_first l -> Sorted newer_van_first (insert_van_desc v l).
Proof.
  induction 1 as [| x r Hs IH Hhd]; simpl; [repeat constructor |].
  destruct (Z.leb_spec (vans.created_at x) (vans.created_at v)) as [Hle | Hgt].
  - constructor; [now constructor | constructor; exact Hle].
  - constructor; [exact IH |].
    destruct r as [| y r']; simpl.
    + constructor. unfold newer_van_first. lia.
    + destruct (_ <=? _); constructor; [unfold newer_van_first; lia |].
      now inversion Hhd.
Qed.

Lemma vans_by_created_at_desc_sorted l :
  StronglySorted newer_van_first (vans_by_created_at_desc l).
Proof.
  apply Sorted_StronglySorted.
  - intros a b c Hab Hbc. unfold newer_van_first in *. lia.
  - induction l as [| v r IH]; simpl; [constructor | now apply insert_van_desc_sorted].
Qed.

Lemma load_rows user db tbl_van_images :
  map van_row (load user db tbl_van_images)
  = filter (fun v => van_status_eqb (vans.status v) available)
           (filter (vans_select_policy db user) (tbl_vans db)).
Proof.
  unfold load. destruct (map vans.id _); rewrite map_map; cbn [van_row]; apply map_id.
Qed.

Lemma van_status_eqb_eq a b : van_status_eqb a b = true <-> a = b.
Proof. destruct a, b; simpl; split; congruence. Qed.

Lemma images_grouped vid imagesData tbl :
  Permutation imagesData tbl -> StronglySorted by_sort_order imagesData ->
  Permutation (imagesByVan imagesData vid) (images_of vid tbl) /\
  StronglySorted by_sort_order (imagesByVan imagesData vid).
Proof.
  intros Hperm Hsorted. rewrite imagesByVan_spec. split.
  - now apply filter_permutation.
  - now apply filter_sorted.
Qed.

(** X17.  The storefront lists exactly the available vans, for every
    caller, and the fleet page exactly the vans the caller may see, newest
    first; on both pages each van carries exactly the images stored for it,
    none of another van, in ascending sort order. *)
Theorem vans_are_loaded_with_their_images user db tbl_van_images :
  (forall v, In v (map van_row (load user db tbl_van_images))
             <-> In v (tbl_vans db) /\ vans.status v = available) /\
  (forall v, In v (map van_row (fetchVans user db tbl_van_images))
             <-> In v (tbl_vans db) /\ vans_select_policy db user v = true) /\
  StronglySorted newer_van_first (map van_row (fetchVans user db tbl_van_images)) /\
  (forall van,
      In van (load user db tbl_van_images) \/ In van (fetchVans user db tbl_van_images) ->
      Permutation (images van) (images_of (vans.id (van_row van)) tbl_van_images) /\
      StronglySorted by_sort_order (images van)).
Proof.
  assert (Hfleet : map van_row (fetchVans user db tbl_van_images)
                   = vans_by_created_at_desc (filter (vans_select_policy db user) (tbl_vans db))).
  { unfold fetchVans. rewrite map_map. cbn [van_row]. apply map_id. }
  split; [| split; [| split]].
  - intros v. rewrite load_rows, !filter_In, van_status_eqb_eq. split.
    + intros [[Hin _] Hs]. now split.
    + intros [Hin Hs]. repeat split; try assumption.
      unfold vans_select_policy. now rewrite Hs.
  - intros v. rewrite Hfleet. split.
    + intros H. apply (Permutation_in _ (vans_by_created_at_desc_perm _)) in H.
      now apply filter_In in H.
    + intros H. apply (Permutation_in _ (Permutation_sym (vans_by_created_at_desc_perm _))).
      now apply filter_In.
  - rewrite Hfleet. apply vans_by_created_at_desc_sorted.
  - intros van [Hin | Hin].
    + unfold load in Hin.
      set (vansRaw := filter _ (filter _ (tbl_vans db))) in *.
      destruct (map vans.id vansRaw) as [| i0 ids] eqn:Eids.
      * destruct vansRaw; [destruct Hin | discriminate Eids].
      * apply in_map_iff in Hin as (v & <- & Hv). cbn [images van_row].
        set (wanted := fun i => existsb (String.eqb (van_images.van_id i)) (i0 :: ids)).
        rewrite imagesByVan_spec. split.
        -- rewrite (filter_permutation _ _ _ (order_by_sort_order_perm _)).
           unfold images_of, van_images_select_policy.
           rewrite filter_filter_implied.
           ++ rewrite (filter_all (fun _ : van_images.Row => true)) by reflexivity.
              reflexivity.
           ++ intros a Ha. apply String.eqb_eq in Ha. apply existsb_exists.
              exists (vans.id v). split; [| rewrite Ha; apply String.eqb_refl].
              rewrite <- Eids. now apply in_map.
        -- apply filter_sorted, order_by_sort_order_sorted.
    + unfold fetchVans in Hin. apply in_map_iff in Hin as (v & <- & _). cbn [images van_row].
      apply images_grouped; [| apply order_by_sort_order_sorted].
      rewrite order_by_sort_order_perm. unfold van_images_select_policy.
      rewrite (filter_all (fun _ : van_images.Row => true)) by reflexivity.
      reflexivity.
Qed.

(** * Fleet visibility *)

Definition toggled (van : vans.Row) : van_status :=
  if van_status_eqb (vans.status van) available then hidden else available.

(** What the toggle does to one van, for an admitted caller. *)
Definition toggle_row (env : Env) (van : vans.Row) (v : vans.Row) : vans.Row :=
  if String.eqb (vans.id v) (vans.id van)
  then vans.mkRow (vans.id v) (vans.name v) (vans.model v) (vans.seats v)
         (vans.price_per_day v) (vans.image_url v) (vans.description v)
         (vans.features v) (toggled van) (vans.co2_per_km v)
         (vans.created_at v) (pg_now env)
  else v.

Lemma toggleStatus_shape env van db :
  is_staff_or_admin db (auth_uid env) = true ->
  toggleStatus env van db
  = mkDb (tbl_profiles db) (map (toggle_row env van) (tbl_vans db)) (tbl_bookings db).
Proof.
  intros Hstaff. unfold toggleStatus, update_vans. f_equal.
  apply map_ext. intros v. unfold vans_select_policy, vans_update_policy, toggle_row.
  rewrite Hstaff, orb_true_r, !andb_true_r. reflexivity.
Qed.

Lemma toggleStatus_rows env van db :
  is_staff_or_admin db (auth_uid env) = true ->
  tbl_vans (toggleStatus env van db) = map (toggle_row env van) (tbl_vans db).
Proof. intros Hstaff. now rewrite toggleStatus_shape. Qed.

(** A van row with its update time moved on. *)
Definition stamped (t : Z) (v : vans.Row) : vans.Row :=
  vans.mkRow (vans.id v) (vans.name v) (vans.model v) (vans.seats v)
    (vans.price_per_day v) (vans.image_url v) (vans.description v)
    (vans.features v) (vans.status v) (vans.co2_per_km v) (vans.created_at v) t.

(** The toggle on a store in which the van already has the status that the
    page's copy asks for: only the update time moves. *)
Lemma toggleStatus_again env van db :
  (forall v, In v (tbl_vans db) -> vans.id v = vans.id van -> vans.status v = toggled van) ->
  tbl_vans (toggleStatus env van db)
  = map (fun v => if String.eqb (vans.id v) (vans.id van) && is_staff_or_admin db (auth_uid env)
                  then stamped (pg_now env) v else v) (tbl_vans db).
Proof.
  intros Hset. unfold toggleStatus, update_vans. cbn [tbl_vans].
  apply map_ext_in. intros v Hv. unfold vans_select_policy, vans_update_policy.
  destruct (String.eqb_spec (vans.id v) (vans.id van)) as [E | _]; [| reflexivity].
  destruct (is_staff_or_admin db (auth_uid env)); cbn [andb orb];
    [| now rewrite andb_false_r].
  rewrite orb_true_r. cbn [andb vans.id vans.name vans.model vans.seats vans.price_per_day
    vans.image_url vans.description vans.features vans.status vans.co2_per_km vans.created_at].
  unfold stamped. rewrite (Hset v Hv E). reflexivity.
Qed.

(** X18.  The visibility button of the fleet page, pressed by staff on the
    page's copy of a van: every row of that id becomes hidden if the copy
    was available and available otherwise (so a van under maintenance
    becomes available), other vans and all bookings stay as they were, and
    after hiding the storefront no longer lists the van.  Pressing again on
    the same, unrefreshed copy, at any later time and by any caller, changes
    no status: for an admitted caller it only moves the update time of the
    van's rows to the time of the second press, for any other caller it
    changes nothing. *)
Theorem toggleStatus_effect env van db :
  is_staff_or_admin db (auth_uid env) = true ->
  let db' := toggleStatus env van db in
  (forall v, In v (tbl_vans db') -> vans.id v = vans.id van -> vans.status v = toggled van) /\
  (forall v, In v (tbl_vans db) -> vans.id v <> vans.id van -> In v (tbl_vans db')) /\
  tbl_bookings db' = tbl_bookings db /\
  (forall env',
      tbl_vans (toggleStatus env' van db')
      = map (fun v => if String.eqb (vans.id v) (vans.id van)
                         && is_staff_or_admin db (auth_uid env')
                      then stamped (pg_now env') v else v) (tbl_vans db') /\
      map vans.status (tbl_vans (toggleStatus env' van db')) = map vans.status (tbl_vans db') /\
      tbl_bookings (toggleStatus env' van db') = tbl_bookings db) /\
  (vans.status van = maintenance -> toggled van = available) /\
  (vans.status van = available ->
   forall user imgs v, In v (map van_row (load user db' imgs)) -> vans.id v <> vans.id van).
Proof.
  intros Hstaff db'.
  assert (Hrows := toggleStatus_rows env van db Hstaff). fold db' in Hrows.
  assert (Hset : forall v, In v (tbl_vans db') -> vans.id v = vans.id van ->
                           vans.status v = toggled van).
  { intros v Hv Hid. rewrite Hrows in Hv. apply in_map_iff in Hv as (v0 & <- & _).
    unfold toggle_row in *.
    destruct (String.eqb_spec (vans.id v0) (vans.id van)) as [E | Hne]; [reflexivity |].
    contradiction. }
  split; [exact Hset | split; [| split; [reflexivity | split; [| split]]]].
  - intros v Hv Hne. rewrite Hrows. apply in_map_iff. exists v. split; [| exact Hv].
    unfold toggle_row.
    destruct (String.eqb_spec (vans.id v) (vans.id van)); [contradiction | reflexivity].
  - intros env'.
    assert (Hagain := toggleStatus_again env' van db' Hset).
    change (is_staff_or_admin db' (auth_uid env')) with (is_staff_or_admin db (auth_uid env'))
      in Hagain.
    split; [exact Hagain | split; [| reflexivity]].
    rewrite Hagain, map_map. apply map_ext. intros v.
    now destruct (String.eqb (vans.id v) (vans.id van) && is_staff_or_admin db (auth_uid env')).
  - unfold toggled. now intros ->.
  - intros Havail user imgs v Hv Hid. rewrite load_rows in Hv.
    apply filter_In in Hv as [Hv Hs]. apply filter_In in Hv as [Hv _].
    rewrite (Hset v Hv Hid) in Hs. unfold toggled in Hs. rewrite Havail in Hs. discriminate Hs.
Qed.

(** Staff at a later time. *)
Definition later_staff_env : Env := mkEnv (Some "user-1") 3000 "unused" [].

Lemma toggleStatus_effect_witness :
  let db' := toggleStatus staff_env city_cruiser db_one in
  map vans.status (tbl_vans db') = [hidden] /\
  map vans.updated_at (tbl_vans db') = [2000] /\
  map vans.status (tbl_vans (toggleStatus later_staff_env city_cruiser db')) = [hidden] /\
  map vans.updated_at (tbl_vans (toggleStatus later_staff_env city_cruiser db')) = [3000] /\
  forall user imgs v, In v (map van_row (load user db' imgs)) -> vans.id v <> vans.id city_cruiser.
Proof.
  cbn zeta. repeat (split; [vm_compute; reflexivity |]).
  apply (toggleStatus_effect staff_env city_cruiser db_one); [vm_compute |]; reflexivity.
Defined.

Lemma find_nothing {A} (f : A -> bool) l :
  (forall x, In x l -> f x = false) -> find f l = None.
Proof.
  induction l as [| a r IH]; simpl; intros H; [reflexivity |].
  rewrite (H a) by now left. apply IH. intros x Hx. apply H. now right.
Qed.

Lemma find_none_by_id (p : vans.Row -> bool) vs v vid :
  NoDup (map vans.id vs) -> In v vs -> vans.id v = vid -> p v = false ->
  find (fun x => String.eqb (vans.id x) vid && p x) vs = None.
Proof.
  intros Hnd Hin Hid Hp. apply find_nothing. intros x Hx.
  destruct (String.eqb_spec (vans.id x) vid) as [E | _]; [| reflexivity].
  assert (x = v); [| subst; now rewrite Hp].
  clear Hp. induction vs as [| a r IH]; [destruct Hin |].
  inversion Hnd as [| ? ? Hnot Hnd']; subst. simpl in Hin, Hx.
  destruct Hin as [-> | Hin], Hx as [-> | Hx]; try reflexivity.
  - exfalso. apply Hnot. rewrite <- E. now apply in_map.
  - exfalso. apply Hnot. rewrite E. now apply in_map.
  - now apply IH.
Qed.

(** X19.  A van that is hidden or under maintenance is withheld from
    customers also in the lookup: looking up a booking of such a van shows
    the booking without van name, model and image to a caller who is not
    staff, and with them to staff. *)
Theorem lookup_withholds_hidden_van user db b c v :
  codes_ok (tbl_bookings db) -> NoDup (van_ids db) ->
  In b (tbl_bookings db) -> bookings.booking_code b = Some c ->
  In v (tbl_vans db) -> vans.id v = bookings.van_id b -> vans.status v <> available ->
  handleLookup user c db
  = Found b (if is_staff_or_admin db user then Some (van_summary v) else None).
Proof.
  intros Hok Hvans Hin Hc Hv Hid Hstatus.
  assert (Hwf : well_formed_code c).
  { destruct Hok as [Hall _]. rewrite Forall_forall in Hall.
    destruct (Hall b Hin) as (c' & Hc' & Hs). congruence. }
  destruct (well_formed_code_normal c Hwf) as [Hnorm Hne].
  rewrite (handleLookup_unique user c db b c); try assumption;
    [| apply Hok | intros ->; now apply Hne].
  f_equal. destruct (is_staff_or_admin db user) eqn:Hstaff.
  - apply embed_van_visible; try assumption.
    unfold vans_select_policy. now rewrite Hstaff, orb_true_r.
  - unfold embed_van.
    rewrite (find_none_by_id (vans_select_policy db user) (tbl_vans db) v (bookings.van_id b));
      try assumption; [reflexivity |].
    unfold vans_select_policy. rewrite Hstaff, orb_false_r.
    destruct (vans.status v); try reflexivity. now contradiction Hstatus.
Qed.

Definition db_hidden : Db := toggleStatus staff_env city_cruiser db_one.

Lemma lookup_withholds_hidden_van_witness :
  handleLookup None "D310CB" db_hidden = Found first_booking None.
Proof.
  assert (Hvans : tbl_vans db_hidden
                  = [vans.mkRow "van-4" "City Cruiser" "Hyundai H-1 Premium 2023" 9 (baht 1800)
                       (vans.image_url city_cruiser) (vans.description city_cruiser)
                       (vans.mkFeatures false true false) hidden None 0 2000])
    by (vm_compute; reflexivity).
  apply (lookup_withholds_hidden_van None db_hidden first_booking "D310CB"
           (vans.mkRow "van-4" "City Cruiser" "Hyundai H-1 Premium 2023" 9 (baht 1800)
              (vans.image_url city_cruiser) (vans.description city_cruiser)
              (vans.mkFeatures false true false) hidden None 0 2000)).
  - exact (reachable_codes_ok _ db_one_reachable).
  - unfold van_ids. rewrite Hvans. repeat constructor. simpl. tauto.
  - now left.
  - reflexivity.
  - rewrite Hvans. now left.
  - reflexivity.
  - discriminate.
Defined.

(** * Roles *)

(** [public.has_role(_user_id, _role)]. *)
Definition has_role (db : Db) (user : option string) (r : app_role) : bool :=
  match user with
  | None => false
  | Some u =>
      existsb (fun p => String.eqb (profiles.id p) u && app_role_eqb (profiles.role p) r)
              (tbl_profiles db)
  end.

(** Policy "Staff can delete vans": [USING (public.has_role(auth.uid(), 'admin'))]. *)
Definition vans_delete_policy (db : Db) (user : option string) (v : vans.Row) : bool :=
  has_role db user admin.

(** The trigger [on_auth_user_created] running [handle_new_user] for a new
    account: a profile with the role [staff], under the primary key of
    [profiles]. *)
Definition handle_new_user (new_id : string) (full_name : option string) (db : Db)
  : PgError + Db :=
  if existsb (fun p => String.eqb (profiles.id p) new_id) (tbl_profiles db)
  then inl (unique_violation "profiles_pkey")
  else inr (mkDb (tbl_profiles db ++ [profiles.mkRow new_id full_name staff])
                 (tbl_vans db) (tbl_bookings db)).

Lemma staff_or_admin_by_role db user :
  is_staff_or_admin db user = has_role db user admin || has_role db user staff.
Proof.
  destruct user as [u |]; [| reflexivity]. simpl.
  induction (tbl_profiles db) as [| p r IH]; simpl; [reflexivity |].
  rewrite IH. destruct (String.eqb (profiles.id p) u), (profiles.role p); simpl;
    repeat (rewrite ?orb_true_r, ?orb_false_r; simpl); try reflexivity;
    destruct (existsb _ r); reflexivity.
Qed.

(** X20.  Every new account is staff: after sign-up the user passes
    [is_staff_or_admin], so the update policies for bookings and vans admit
    them, while [has_role(.., 'admin')], and with it the delete policy for
    vans, does not; nobody else's rights change, and vans and bookings are
    untouched.  The staff-or-admin test is the disjunction of the role tests. *)
Theorem new_account_is_staff new_id full_name db db' :
  handle_new_user new_id full_name db = inr db' ->
  is_staff_or_admin db' (Some new_id) = true /\
  (forall b, bookings_update_policy db' (Some new_id) b = true) /\
  (forall v, vans_update_policy db' (Some new_id) v = true /\
             vans_delete_policy db' (Some new_id) v = false) /\
  (forall u r, u <> Some new_id -> has_role db' u r = has_role db u r) /\
  (forall u, is_staff_or_admin db' u = has_role db' u admin || has_role db' u staff) /\
  tbl_vans db' = tbl_vans db /\ tbl_bookings db' = tbl_bookings db.
Proof.
  unfold handle_new_user.
  destruct (existsb _ (tbl_profiles db)) eqn:Enew; [discriminate |]. intros [= <-].
  assert (Hnone : forall r, existsb (fun p => String.eqb (profiles.id p) new_id
                                              && app_role_eqb (profiles.role p) r)
                                    (tbl_profiles db) = false).
  { intros r. induction (tbl_profiles db) as [| p l IH]; simpl in *; [reflexivity |].
    apply orb_false_iff in Enew as [E1 E2]. now rewrite E1, IH. }
  assert (Hstaff : is_staff_or_admin
                     (mkDb (tbl_profiles db ++ [profiles.mkRow new_id full_name staff])
                        (tbl_vans db) (tbl_bookings db)) (Some new_id) = true).
  { cbn [is_staff_or_admin tbl_profiles]. rewrite existsb_app. cbn [existsb profiles.id profiles.role].
    rewrite String.eqb_refl. cbn. now rewrite orb_true_r. }
  split; [exact Hstaff | split; [| split; [| split; [| split; [| split]]]]];
    try reflexivity.
  - intros b. exact Hstaff.
  - intros v. split; [exact Hstaff |].
    unfold vans_delete_policy, has_role. cbn [tbl_profiles]. rewrite existsb_app, Hnone.
    cbn. now rewrite String.eqb_refl.
  - intros u r Hu. destruct u as [u |]; [| reflexivity].
    unfold has_role. cbn [tbl_profiles]. rewrite existsb_app. cbn [existsb profiles.id].
    destruct (String.eqb_spec new_id u) as [E | _]; [exfalso; apply Hu; now rewrite E |].
    cbn. now rewrite orb_false_r.
  - intros u. apply staff_or_admin_by_role.
Qed.

Lemma new_account_is_staff_witness :
  exists db',
    handle_new_user "user-2" None db_one = inr db' /\
    is_staff_or_admin db' (Some "user-2") = true /\
    has_role db' (Some "user-2") admin = false.
Proof.
  eexists. split; [reflexivity |].
  destruct (new_account_is_staff "user-2" None db_one _ eq_refl) as (H1 & _ & H2 & _).
  split; [exact H1 | exact (proj2 (H2 city_cruiser))].
Defined.

(** ** The route guard of the administration pages *)

Inductive RouteView := ShowSpinner | NavigateToLogin | ShowChildren.

(** The text of a role, as the profile object carries it. *)
Definition role_label (r : app_role) : string :=
  match r with
  | admin => "admin"
  | staff => "staff"
  end.

(** [ProtectedRoute], given what the authentication context reports: whether
    it is still loading, the signed-in user, and the role of the profile it
    loaded. *)
Definition ProtectedRoute (loading : bool) (user : option string) (profile_role : option string)
  : RouteView :=
  if loading then ShowSpinner
  else
    match user, profile_role with
    | Some _, Some r =>
        if existsb (String.eqb r) ["admin"; "staff"] then ShowChildren else NavigateToLogin
    | _, _ => NavigateToLogin
    end.

(** X21.  The route guard and the store agree: a signed-in user whose
    profile is their row of the profiles table is shown the administration
    pages, whatever the role in that row, and is a caller the update policy
    for bookings admits; without a user or without a profile the guard sends
    to the login page. *)
Theorem route_guard_agrees_with_policy db u p :
  In p (tbl_profiles db) -> profiles.id p = u ->
  ProtectedRoute false (Some u) (Some (role_label (profiles.role p))) = ShowChildren /\
  is_staff_or_admin db (Some u) = true /\
  (forall b, bookings_update_policy db (Some u) b = true) /\
  (forall role, ProtectedRoute false None role = NavigateToLogin) /\
  (forall user, ProtectedRoute false user None = NavigateToLogin).
Proof.
  intros Hin Hid.
  assert (Hstaff : is_staff_or_admin db (Some u) = true).
  { cbn [is_staff_or_admin]. apply existsb_exists. exists p. split; [exact Hin |].
    rewrite Hid, String.eqb_refl. now destruct (profiles.role p). }
  split; [now destruct (profiles.role p) | split; [exact Hstaff | split; [| split]]].
  - intros b. exact Hstaff.
  - reflexivity.
  - intros [x |]; reflexivity.
Qed.

Lemma route_guard_agrees_with_policy_witness :
  ProtectedRoute false (Some "user-1") (Some "staff") = ShowChildren /\
  is_staff_or_admin db_one (Some "user-1") = true.
Proof.
  destruct (route_guard_agrees_with_policy db_one "user-1"
              (profiles.mkRow "user-1" (Some "Fleet Manager") staff))
    as (H1 & H2 & _); [now left | reflexivity |].
  split; [exact H1 | exact H2].
Defined.

(** * Adding images to a van *)

(** [additionalImages.reduce((max, img) => Math.max(max, img.sort_order), 0)]. *)
Definition maxOrder (additionalImages : list van_images.Row) : Z :=
  fold_left (fun max img => Z.max max (van_images.sort_order img)) additionalImages 0.

(** The loop of [handleSave] over the newly chosen files, from index [i] on:
    file [i] is stored with sort order [maxOrder + i + 1].  An upload is
    given by the id and time the store assigns to its row and by its public
    URL. *)
Fixpoint insert_new_images (vanId : string) (max_order : Z) (i : Z)
  (uploads : list (string * Z * string)) : list van_images.Row :=
  match uploads with
  | [] => []
  | (id, t, url) :: rest =>
      van_images.mkRow id vanId url (max_order + i + 1) t
      :: insert_new_images vanId max_order (i + 1) rest
  end.

Definition new_images (vanId : string) (additionalImages : list van_images.Row)
  (uploads : list (string * Z * string)) : list van_images.Row :=
  insert_new_images vanId (maxOrder additionalImages) 0 uploads.

Lemma maxOrder_from a l :
  a <= fold_left (fun max img => Z.max max (van_images.sort_order img)) l a /\
  Forall (fun e => van_images.sort_order e
                   <= fold_left (fun max img => Z.max max (van_images.sort_order img)) l a) l.
Proof.
  revert a. induction l as [| e r IH]; intros a; simpl; [split; [lia | constructor] |].
  destruct (IH (Z.max a (van_images.sort_order e))) as [H1 H2].
  split; [lia |]. constructor; [lia | exact H2].
Qed.

Lemma insert_new_images_orders vanId m i uploads :
  Forall (fun n => m + i + 1 <= van_images.sort_order n /\ van_images.van_id n = vanId)
         (insert_new_images vanId m i uploads) /\
  StronglySorted (fun a b => van_images.sort_order a < van_images.sort_order b)
                 (insert_new_images vanId m i uploads).
Proof.
  revert i. induction uploads as [| [[id t] url] rest IH]; intros i; simpl;
    [split; constructor |].
  destruct (IH (i + 1)) as [Hall Hsorted]. split.
  - constructor; [simpl; split; [lia | reflexivity] |].
    eapply Forall_impl; [| exact Hall]. intros n [Hn Hv]. split; [lia | exact Hv].
  - constructor; [exact Hsorted |].
    eapply Forall_impl; [| exact Hall]. intros n [Hn _]. simpl. lia.
Qed.

Lemma order_of_sorted l : Sorted by_sort_order l -> order_by_sort_order l = l.
Proof.
  induction 1 as [| a r Hs IH Hhd]; simpl; [reflexivity |].
  rewrite IH. destruct Hhd as [| x r' Hax]; simpl; [reflexivity |].
  unfold by_sort_order in Hax.
  destruct (Z.leb_spec (van_images.sort_order a) (van_images.sort_order x)); [reflexivity | lia].
Qed.

Lemma insert_before_later a s later :
  Forall (fun n => van_images.sort_order a <= van_images.sort_order n) later ->
  insert_by_sort_order a (s ++ later) = (insert_by_sort_order a s ++ later)%list.
Proof.
  intros Hlater. induction s as [| x r IH]; simpl.
  - destruct Hlater as [| n later' Hn _]; simpl; [reflexivity |].
    destruct (Z.leb_spec (van_images.sort_order a) (van_images.sort_order n)); [reflexivity | lia].
  - destruct (_ <=? _); [reflexivity |]. now rewrite IH.
Qed.

Lemma order_before_later l later :
  Sorted by_sort_order later ->
  (forall a n, In a l -> In n later -> van_images.sort_order a <= van_images.sort_order n) ->
  order_by_sort_order (l ++ later) = (order_by_sort_order l ++ later)%list.
Proof.
  intros Hs Hle. induction l as [| a r IH]; simpl; [now apply order_of_sorted |].
  rewrite IH by (intros x n Hx Hn; apply Hle; [now right | exact Hn]).
  apply insert_before_later. apply Forall_forall. intros n Hn. apply Hle; [now left | exact Hn].
Qed.

Lemma insert_new_images_urls vanId m i uploads :
  List.length (insert_new_images vanId m i uploads) = List.length uploads /\
  map van_images.image_url (insert_new_images vanId m i uploads) = map snd uploads.
Proof.
  revert i. induction uploads as [| [[id t] url] rest IH]; intros i; simpl;
    [split; reflexivity |].
  destruct (IH (i + 1)) as [-> ->]. split; reflexivity.
Qed.

Lemma strictly_rising_is_sorted l :
  StronglySorted (fun a b => van_images.sort_order a < van_images.sort_order b) l ->
  StronglySorted by_sort_order l.
Proof.
  induction 1 as [| a r _ IH Hlt]; constructor; [exact IH |].
  eapply Forall_impl; [| exact Hlt]. intros b Hb. unfold by_sort_order. cbv beta in Hb. lia.
Qed.

(** X22.  Images added to a van come last: each new image gets a sort
    order above that of every image the dialog shows and at least 1, in
    strictly rising order of the files chosen, one row per file for that
    van; ordered by sort order, the gallery is therefore the old gallery
    followed by the new images in the order chosen. *)
Theorem new_images_come_last vanId additionalImages uploads :
  let added := new_images vanId additionalImages uploads in
  List.length added = List.length uploads /\
  map van_images.image_url added = map snd uploads /\
  Forall (fun n => van_images.van_id n = vanId /\ 1 <= van_images.sort_order n /\
                   forall e, In e additionalImages ->
                             van_images.sort_order e < van_images.sort_order n) added /\
  StronglySorted (fun a b => van_images.sort_order a < van_images.sort_order b) added /\
  order_by_sort_order (additionalImages ++ added)
  = (order_by_sort_order additionalImages ++ added)%list.
Proof.
  cbn zeta. unfold new_images.
  destruct (maxOrder_from 0 additionalImages) as [Hzero Hmax]. fold (maxOrder additionalImages) in *.
  destruct (insert_new_images_orders vanId (maxOrder additionalImages) 0 uploads)
    as [Hall Hsorted].
  assert (Habove : Forall (fun n => van_images.van_id n = vanId /\ 1 <= van_images.sort_order n /\
                             forall e, In e additionalImages ->
                                       van_images.sort_order e < van_images.sort_order n)
                     (insert_new_images vanId (maxOrder additionalImages) 0 uploads)).
  { eapply Forall_impl; [| exact Hall]. intros n [Hn Hv].
    split; [exact Hv | split; [lia |]]. intros e He.
    rewrite Forall_forall in Hmax. specialize (Hmax e He). lia. }
  split; [| split; [| split; [exact Habove | split; [exact Hsorted |]]]].
  - apply insert_new_images_urls.
  - apply insert_new_images_urls.
  - apply order_before_later.
    + apply StronglySorted_Sorted. now apply strictly_rising_is_sorted.
    + intros a n Ha Hn. rewrite Forall_forall in Habove.
      destruct (Habove n Hn) as (_ & _ & Hlt). specialize (Hlt a Ha). lia.
Qed.

(** * What a submission does not check *)

Lemma booked_conditions env st db db' row :
  handleSubmit env st db = (db', Booked row) ->
  exists van sd ed c,
    st = mkIndexState (Some van) (Some sd) (Some ed) (form st) /\
    phoneRegex_test (strip_separators (phone (form st))) = true /\
    1 <= differenceInDays ed sd /\
    numeric_10_2_fits (differenceInDays ed sd * vans.price_per_day van) = true /\
    generate_booking_code (random_text env) (tbl_bookings db) = Some c /\
    existsb (fun b => String.eqb (bookings.id b) (gen_random_uuid env)) (tbl_bookings db) = false /\
    van_exists db (vans.id van) = true /\
    row = new_row env (submit_payload van sd ed (form st)) c /\
    db' = with_booking db row.
Proof.
  intros H.
  destruct (handleSubmit_booked _ _ _ _ _ H) as (van & sd & ed & c & Hst & Hphone & Hdays & Hgen & Hrow & Hdb).
  destruct (handleSubmit_inv _ _ _ _ _ H)
    as [[_ Hno] | (van' & sd' & ed' & row' & Ev & Es & Ee & _ & _ & Hr & Hins)];
    [exfalso; now apply (Hno row) |].
  rewrite Hst in Ev, Es, Ee. cbn [selectedVan startDate endDate] in Ev, Es, Ee.
  injection Ev as <-. injection Es as <-. injection Ee as <-.
  destruct (insert_booking_inv _ _ _ _ _ Hins) as (c' & _ & _ & Hfit & Hpk & Hfk & _ & _).
  exists van, sd, ed, c.
  assert (Htot : totalPrice st = differenceInDays ed sd * vans.price_per_day van).
  { rewrite Hst. reflexivity. }
  cbn [bookings.i_total_price bookings.i_van_id] in Hfit, Hfk. rewrite Htot in Hfit.
  repeat (split; [assumption |]). exact Hdb.
Qed.

(** X23.  A submission looks neither at other bookings of the van nor at
    the van's status: once a request has been stored, the very same request
    is stored again (given a fresh row id and a draw with a free code), for
    the same van and the same dates; and a request that would be stored is
    stored just the same after staff have hidden the van. *)
Theorem submission_checks_no_availability env st db db' row :
  handleSubmit env st db = (db', Booked row) ->
  (forall env',
      ~ In (gen_random_uuid env') (booking_ids db') ->
      Exists (fun r => code_exists (tbl_bookings db') (candidate r) = false) (random_text env') ->
      exists row',
        handleSubmit env' st db' = (with_booking db' row', Booked row') /\
        bookings.van_id row' = bookings.van_id row /\
        bookings.start_date row' = bookings.start_date row /\
        bookings.end_date row' = bookings.end_date row) /\
  (forall env0 van0,
      handleSubmit env st (toggleStatus env0 van0 db)
      = (with_booking (toggleStatus env0 van0 db) row, Booked row)).
Proof.
  intros H.
  destruct (booked_conditions _ _ _ _ _ H)
    as (van & sd & ed & c & Hst & Hphone & Hdays & Hfit & Hgen & Hpk & Hfk & Hrow & Hdb).
  split.
  - intros env' Hfresh Hfree.
    destruct (generate_exits _ _ Hfree) as [c' Hgen'].
    exists (new_row env' (submit_payload van sd ed (form st)) c').
    split; [| rewrite Hrow; repeat split].
    rewrite Hst at 1. apply handleSubmit_books; try assumption.
    + now apply id_not_in_iff.
    + rewrite Hdb. exact Hfk.
  - intros env0 van0. rewrite Hst at 1. rewrite Hrow.
    apply handleSubmit_books; try assumption.
    change (van_exists (toggleStatus env0 van0 db) (vans.id van) = true).
    rewrite (van_exists_by_ids db (toggleStatus env0 van0 db)); [exact Hfk |].
    apply update_vans_ids. reflexivity.
Qed.

Lemma submission_checks_no_availability_witness :
  handleSubmit customer_env three_days (toggleStatus staff_env city_cruiser db_fresh)
  = (with_booking (toggleStatus staff_env city_cruiser db_fresh) first_booking,
     Booked first_booking).
Proof.
  exact (proj2 (submission_checks_no_availability customer_env three_days db_fresh db_one
                  first_booking first_submission) staff_env city_cruiser).
Defined.

(** * The backfill of booking codes *)

Lemma distinct_codes_iff rows :
  Forall has_well_formed_code rows ->
  (distinct_codes rows = true <-> NoDup (map bookings.booking_code rows)).
Proof.
  intros Hall. split; [now apply distinct_codes_NoDup |].
  induction Hall as [| b r (c & Hc & _) _ IH]; simpl; [reflexivity |].
  intros Hnd. inversion Hnd as [| ? ? Hnot Hnd']; subst.
  rewrite Hc in *. rewrite (IH Hnd'), andb_true_r.
  apply negb_true_iff. now apply code_exists_false_iff.
Qed.

(** What the migration leaves of a row: everything but the code and the
    update time. *)
Definition same_but_code_and_update_time (b b' : bookings.Row) : Prop :=
  bookings.update_updated_at_column (bookings.updated_at b)
    (bookings.set_booking_code (bookings.booking_code b) b') = b.

(** X24.  The migration that adds the code column and backfills it gives
    every existing booking the code derived from its own id; the update
    passes the trigger, so each of these rows also has its update time set
    to the time of the migration, and nothing else changes in any row, van
    or profile.  The migration goes through exactly when the derived codes
    are pairwise different, and otherwise stops with a unique violation.
    The backfill touches only rows without a code: a row that holds one is
    left as it is, and running the backfill again changes nothing, not even
    an update time. *)
Theorem backfill_derives_codes_from_ids env db :
  let derived := map (fun b => Some (candidate (bookings.id b))) (tbl_bookings db) in
  (NoDup derived ->
   exists db',
     backfill_booking_codes env (add_booking_code_column db) = inr db' /\
     map bookings.booking_code (tbl_bookings db') = derived /\
     Forall (fun b' => bookings.updated_at b' = pg_now env) (tbl_bookings db') /\
     Forall2 same_but_code_and_update_time (tbl_bookings db) (tbl_bookings db') /\
     tbl_vans db' = tbl_vans db /\ tbl_profiles db' = tbl_profiles db /\
     forall env', backfill_booking_codes env' db' = inr db') /\
  (~ NoDup derived ->
   backfill_booking_codes env (add_booking_code_column db)
   = inl (unique_violation "bookings_booking_code_key")) /\
  (forall db1 db2 b,
      backfill_booking_codes env db1 = inr db2 ->
      In b (tbl_bookings db1) -> bookings.booking_code b <> None ->
      In b (tbl_bookings db2)).
Proof.
  cbn zeta. rewrite backfill_after_add_column. cbv zeta.
  set (rows := map (backfilled (pg_now env)) (tbl_bookings db)).
  assert (Hcodes : map bookings.booking_code rows
                   = map (fun b => Some (candidate (bookings.id b))) (tbl_bookings db)).
  { unfold rows. rewrite map_map. reflexivity. }
  assert (Hwf : Forall has_well_formed_code rows) by apply backfilled_well_formed.
  split; [| split].
  - intros Hnd. rewrite <- Hcodes in Hnd.
    assert (Hdistinct := proj2 (distinct_codes_iff rows Hwf) Hnd).
    rewrite Hdistinct.
    eexists. split; [reflexivity |]. cbn [tbl_bookings tbl_vans tbl_profiles].
    split; [exact Hcodes | split; [| split; [| split; [reflexivity | split; [reflexivity |]]]]].
    + unfold rows. apply Forall_map, Forall_forall. now intros b _.
    + unfold rows. apply Forall2_map_r. intros b. now destruct b.
    + intros env'. unfold backfill_booking_codes. cbn [tbl_bookings tbl_vans tbl_profiles].
      rewrite (map_fixed _ rows).
      * now rewrite Hdistinct.
      * intros b Hb. rewrite Forall_forall in Hwf. destruct (Hwf b Hb) as (c & -> & _).
        reflexivity.
  - intros Hdup. destruct (distinct_codes rows) eqn:E; [| reflexivity].
    exfalso. apply Hdup. rewrite <- Hcodes. now apply distinct_codes_iff.
  - intros db1 db2 b. unfold backfill_booking_codes.
    destruct (distinct_codes _); [| discriminate]. intros [= <-] Hb Hcode.
    cbn [tbl_bookings]. apply in_map_iff. exists b. split; [| exact Hb].
    destruct (bookings.booking_code b); [reflexivity | contradiction].
Qed.

(** A store from before the migration: two bookings, made at times 100 and
    200, in a table without the code column. *)
Definition db_before_codes : Db :=
  mkDb (tbl_profiles db_fresh) (tbl_vans db_fresh)
    [ bookings.mkRow "booking-a" "Malee" "021234567" "van-4" (ymd 2025 5 1) (ymd 2025 5 2)
        "Don Mueang Airport" None (baht 1800) confirmed None None 100 150;
      bookings.mkRow "booking-b" "Niran" "0812345678" "van-4" (ymd 2025 5 3) (ymd 2025 5 5)
        "Hua Lamphong" None (baht 3600) pending None None 200 200 ].

(** The migration, run at time 500. *)
Definition migration_env : Env := mkEnv None 500 "unused" [].

Lemma backfill_derives_codes_from_ids_witness :
  exists db',
    backfill_booking_codes migration_env (add_booking_code_column db_before_codes) = inr db' /\
    map bookings.booking_code (tbl_bookings db')
    = map (fun b => Some (candidate (bookings.id b))) (tbl_bookings db_before_codes) /\
    Forall (fun b' => bookings.updated_at b' = pg_now migration_env) (tbl_bookings db') /\
    Forall2 same_but_code_and_update_time (tbl_bookings db_before_codes) (tbl_bookings db') /\
    tbl_vans db' = tbl_vans db_before_codes /\ tbl_profiles db' = tbl_profiles db_before_codes /\
    forall env', backfill_booking_codes env' db' = inr db'.
Proof.
  apply (proj1 (backfill_derives_codes_from_ids migration_env db_before_codes)).
  vm_compute. repeat constructor; simpl; intuition discriminate.
Defined.

(** * Editing a van *)

Definition or_empty (o : option string) : string :=
  match o with
  | Some s => s
  | None => EmptyString
  end.

(** [openEditDialog]: the form is filled from the page's copy of the van, a
    missing image or description becoming the empty text. *)
Definition openEditDialog (van : vans.Row) : fleet.Payload :=
  fleet.mkPayload (vans.name van) (vans.model van) (vans.seats van) (vans.price_per_day van)
    (or_empty (vans.image_url van)) (or_empty (vans.description van))
    (vans.features van) (vans.status van) (vans.co2_per_km van).

(** The van as it is stored when the dialog is saved untouched. *)
Definition saved_untouched (van : vans.Row) (t : Z) : vans.Row :=
  vans.mkRow (vans.id van) (vans.name van) (vans.model van) (vans.seats van)
    (vans.price_per_day van) (Some (or_empty (vans.image_url van)))
    (Some (or_empty (vans.description van))) (vans.features van) (vans.status van)
    (vans.co2_per_km van) (vans.created_at van) t.

Lemma same_id_same_van vs v van :
  NoDup (map vans.id vs) -> In v vs -> In van vs -> vans.id v = vans.id van -> v = van.
Proof.
  induction vs as [| a r IH]; simpl; [tauto |].
  intros Hnd Hv Hvan Hid. inversion Hnd as [| ? ? Hnot Hnd']; subst.
  destruct Hv as [-> | Hv], Hvan as [-> | Hvan]; try reflexivity.
  - exfalso. apply Hnot. rewrite Hid. now apply in_map.
  - exfalso. apply Hnot. rewrite <- Hid. now apply in_map.
  - now apply IH.
Qed.

(** X25.  Opening the edit dialog on a van of the table and saving without
    touching the form, as staff, keeps the van's name, model, seats, rate,
    features, status and rating; a missing image or description is stored
    as the empty text, which the gallery treats like a missing image, and
    the update time is set.  Other vans and all bookings stay as they
    were. *)
Theorem edit_without_change env van db :
  is_staff_or_admin db (auth_uid env) = true ->
  numeric_10_2_fits (vans.price_per_day van) = true ->
  NoDup (van_ids db) -> In van (tbl_vans db) ->
  exists db',
    handleSave env (Some van) (openEditDialog van) db = inr db' /\
    tbl_vans db'
    = map (fun v => if String.eqb (vans.id v) (vans.id van)
                    then saved_untouched van (pg_now env) else v) (tbl_vans db) /\
    tbl_bookings db' = tbl_bookings db /\ tbl_profiles db' = tbl_profiles db /\
    (forall imgs, allImages (mkVan (saved_untouched van (pg_now env)) imgs)
                  = allImages (mkVan van imgs)).
Proof.
  intros Hstaff Hfit Hnd Hin. unfold handleSave.
  cbn [openEditDialog fleet.price_per_day]. rewrite Hfit. cbn [negb].
  eexists. split; [reflexivity |]. cbn [update_vans tbl_vans tbl_bookings tbl_profiles].
  split; [| split; [reflexivity | split; [reflexivity |]]].
  - apply map_ext_in. intros v Hv.
    unfold vans_select_policy, vans_update_policy. rewrite Hstaff, orb_true_r, !andb_true_r.
    destruct (String.eqb_spec (vans.id v) (vans.id van)) as [E | _]; [| reflexivity].
    rewrite (same_id_same_van _ v van Hnd Hv Hin E). reflexivity.
  - intros imgs. unfold allImages. cbn [van_row images saved_untouched vans.image_url].
    destruct (vans.image_url van) as [u |]; reflexivity.
Qed.

Lemma edit_without_change_witness :
  exists db',
    handleSave staff_env (Some city_cruiser) (openEditDialog city_cruiser) db_one = inr db' /\
    tbl_vans db'
    = map (fun v => if String.eqb (vans.id v) (vans.id city_cruiser)
                    then saved_untouched city_cruiser (pg_now staff_env) else v)
          (tbl_vans db_one) /\
    tbl_bookings db' = tbl_bookings db_one /\ tbl_profiles db' = tbl_profiles db_one /\
    (forall imgs, allImages (mkVan (saved_untouched city_cruiser (pg_now staff_env)) imgs)
                  = allImages (mkVan city_cruiser imgs)).
Proof.
  apply (edit_without_change staff_env city_cruiser db_one).
  - vm_compute. reflexivity.
  - vm_compute. reflexivity.
  - repeat constructor. simpl. tauto.
  - now left.
Defined.
